(** * BotLi: the per-turn move decision of [Lichess_Game]

    A shallow embedding of [lichess_game.py]: the outcome classifier
    [_value_to_wdl], the tablebase move selectors, the online source
    adapters with their consecutive-miss counters, the draw/resign
    evaluator, the move overhead and the orchestrator [make_move].

    Python integers are [Z].  The board, the tablebases, the opening
    books, the remote services and the engine are collaborators of the
    class; they are gathered in a record [World] of oracle functions that
    every method receives.  Methods that mutate [self] are written in a
    state-and-exception monad over the record [Lichess_Game]. *)

From Stdlib Require Import ZArith List String Bool Lia QArith Qround Lqa.
Import ListNotations.
Local Open Scope string_scope.
Local Open Scope list_scope.
Local Open Scope Z_scope.

(** ** Outcome classifier *)

(** [_value_to_wdl(self, value, halfmove_clock)]; [self] is not used. *)
Definition _value_to_wdl (value halfmove_clock : Z) : Z :=
  if value >? 0 then
    if value + halfmove_clock <=? 100 then 2 else 1
  else if value <? 0 then
    if value - halfmove_clock >=? -100 then -2 else -1
  else 0.

(** ** Collaborators *)

(** A [chess.Move], identified with its UCI text ([move.uci()] and
    [chess.Move.from_uci]). *)
Definition Move := string.

(** A [chess.Board]: the game is its stack of moves; [push] appends and
    [copy] is the identity on values.  What the rules of chess derive from
    the stack is asked of the [World]. *)
Record Board := { move_stack : list Move }.

Definition push (board : Board) (move : Move) : Board :=
  {| move_stack := move_stack board ++ [move] |}.

(** An entry of a polyglot opening book. *)
Record Entry := { entry_move : Move; entry_weight : Z; entry_learn : Z }.

(** [chess.engine.Score] relative to the side to move. *)
Inductive Score :=
| Cp (cp : Z)
| Mate (moves : Z)
| MateGiven.

(** [score.relative.score(mate_score=...)] of python-chess: a mate in [n]
    is [mate_score - n] for the mating side and [-mate_score - n] for the
    mated one. *)
Definition score (s : Score) (mate_score : Z) : Z :=
  match s with
  | Cp cp => cp
  | Mate moves => if moves >? 0 then mate_score - moves else - mate_score - moves
  | MateGiven => mate_score
  end.

(** A move of the opening explorer's answer. *)
Record Explorer_Move := {
  em_uci : Move;
  em_white : Z;
  em_draws : Z;
  em_black : Z;
  em_performance : Z
}.

Record Explorer_Response := {
  er_white : Z;
  er_draws : Z;
  er_black : Z;
  er_moves : list Explorer_Move
}.

(** The cloud evaluation's answer: either [{'error': ...}] or the depth
    and the first principal variation (its moves and its centipawns). *)
Inductive Cloud_Response :=
| Cloud_Error
| Cloud_Eval (depth : Z) (pv_moves : list Move) (pv_cp : Z).

(** The answer of chessdb: [status], the optional [depth], and the move,
    under the key [move] or as the head of [pv]. *)
Record Chessdb_Response := {
  cr_status : string;
  cr_depth : option Z;
  cr_move : option Move;
  cr_pv : list Move
}.

(** The online tablebase's answer: the category of the position, its DTM
    and its moves, each with its DTZ. *)
Record Egtb_Response := {
  gr_category : string;
  gr_dtm : option Z;
  gr_moves : list (Move * Z)
}.

(** [chess.engine.Limit], in seconds. *)
Inductive Limit :=
| Limit_time (time : Q)
| Limit_clock (white_clock white_inc black_clock black_inc : Q).

(** Everything [Lichess_Game] consults and does not own: the rules of chess
    on a board, the book and tablebase readers, the remote services
    ([None] is the failure sentinel of a remote query, and of a probe the
    [MissingTableError]), the engine, and the random generator, whose
    draws are numbered within a decision cycle. *)
Record World := {
  legal_moves : Board -> list Move;
  is_checkmate : Board -> bool;
  is_repetition : Board -> Z -> bool;
  halfmove_clock : Board -> Z;
  fullmove_number : Board -> Z;
  ply : Board -> Z;
  turn : Board -> bool;
  popcount_occupied : Board -> Z;
  uci_variant : Board -> string;
  find_all : nat -> Board -> list Entry;
  probe_dtm : Board -> option Z;
  probe_dtz : Board -> option Z;
  get_opening_explorer : string -> Board -> string -> Z -> option Explorer_Response;
  get_cloud_eval : Board -> Z -> option Cloud_Response;
  get_chessdb_eval : Board -> string -> Z -> option Chessdb_Response;
  get_egtb : Board -> string -> Z -> option Egtb_Response;
  engine_play : Board -> Limit -> bool -> option (Move * option Score);
  random : nat -> nat
}.

(** ** The game object *)

(** The keys of [config] that the decision reads; an optional key
    ([.get] with a default) is an [option], [None] standing for the
    absent key.  Times are in seconds. *)
Record Config := {
  offer_draw_enabled : bool;
  offer_draw_consecutive_moves : Z;
  offer_draw_min_game_length : Z;
  offer_draw_score : Z;
  resign_config_enabled : bool;
  resign_consecutive_moves : Z;
  resign_score : Z;
  opening_books_enabled : bool;
  opening_books_max_depth : option Z;
  opening_books_read_learn : bool;
  opening_books_selection : string;
  opening_explorer_enabled : bool;
  opening_explorer_max_depth : option Z;
  opening_explorer_min_time : Z;
  opening_explorer_use_for_variants : bool;
  opening_explorer_timeout : Z;
  opening_explorer_min_games : Z;
  opening_explorer_only_with_wins : bool;
  opening_explorer_anti : bool;
  opening_explorer_selection : string;
  lichess_cloud_enabled : bool;
  lichess_cloud_max_depth : option Z;
  lichess_cloud_min_time : Z;
  lichess_cloud_only_without_book : bool;
  lichess_cloud_timeout : Z;
  lichess_cloud_min_eval_depth : Z;
  chessdb_enabled : bool;
  chessdb_max_depth : option Z;
  chessdb_min_time : Z;
  chessdb_timeout : Z;
  chessdb_min_eval_depth : Z;
  chessdb_selection : string;
  gaviota_enabled : bool;
  gaviota_max_pieces : Z;
  syzygy_enabled : bool;
  syzygy_instant_play : bool;
  syzygy_max_pieces : Z;
  online_egtb_enabled : bool;
  online_egtb_min_time : Z;
  online_egtb_timeout : Z;
  engine_ponder : bool;
  variants_enabled : bool;
  variants_ponder : bool;
  move_overhead_multiplier : option Q
}.

(** A call issued to a collaborator that answers over the network, reads a
    book or runs the engine. *)
Inductive Call :=
| Book_find_all (book_reader : nat) (position : Board)
| Opening_explorer_query (position : Board)
| Cloud_query (position : Board)
| Chessdb_query (position : Board)
| Egtb_query (position : Board)
| Engine_play (position : Board) (limit : Limit) (ponder : bool)
| Engine_analysis (position : Board) (limit : option Limit).

(** The branch of [make_move] that produced a move, as the prefix of its
    message names it. *)
Inductive Source := Book | Explore | Cloud | ChessDB | Gaviota | Syzygy | EGTB | Engine.

(** [self.last_message] without its formatting: the source and the move. *)
Inductive Message :=
| No_eval_available_yet
| Message_of (source : Source) (move : Move).

(** The attributes of [Lichess_Game].  [calls] is not an attribute of the
    class: it records, oldest first, the calls the object has issued, so
    that what a method asks of its collaborators can be stated. *)
Record Lichess_Game := {
  config : Config;
  board : Board;
  white_name : string;
  black_name : string;
  is_white : bool;
  initial_time : Z;
  increment : Z;
  white_time : Z;
  black_time : Z;
  status : string;
  draw_enabled : bool;
  resign_enabled : bool;
  ponder_enabled : bool;
  move_overhead : Z;
  book_readers : list nat;
  out_of_book_counter : Z;
  out_of_opening_explorer_counter : Z;
  out_of_cloud_counter : Z;
  out_of_chessdb_counter : Z;
  draw_scores : list Score;
  resign_scores : list Score;
  last_message : Message;
  calls : list Call
}.

(** Assignments [self.attribute = v]. *)
Definition set_board (v : Board) (self : Lichess_Game) : Lichess_Game :=
  {| config := config self;
     board := v;
     white_name := white_name self;
     black_name := black_name self;
     is_white := is_white self;
     initial_time := initial_time self;
     increment := increment self;
     white_time := white_time self;
     black_time := black_time self;
     status := status self;
     draw_enabled := draw_enabled self;
     resign_enabled := resign_enabled self;
     ponder_enabled := ponder_enabled self;
     move_overhead := move_overhead self;
     book_readers := book_readers self;
     out_of_book_counter := out_of_book_counter self;
     out_of_opening_explorer_counter := out_of_opening_explorer_counter self;
     out_of_cloud_counter := out_of_cloud_counter self;
     out_of_chessdb_counter := out_of_chessdb_counter self;
     draw_scores := draw_scores self;
     resign_scores := resign_scores self;
     last_message := last_message self;
     calls := calls self |}.

Definition set_white_time (v : Z) (self : Lichess_Game) : Lichess_Game :=
  {| config := config self;
     board := board self;
     white_name := white_name self;
     black_name := black_name self;
     is_white := is_white self;
     initial_time := initial_time self;
     increment := increment self;
     white_time := v;
     black_time := black_time self;
     status := status self;
     draw_enabled := draw_enabled self;
     resign_enabled := resign_enabled self;
     ponder_enabled := ponder_enabled self;
     move_overhead := move_overhead self;
     book_readers := book_readers self;
     out_of_book_counter := out_of_book_counter self;
     out_of_opening_explorer_counter := out_of_opening_explorer_counter self;
     out_of_cloud_counter := out_of_cloud_counter self;
     out_of_chessdb_counter := out_of_chessdb_counter self;
     draw_scores := draw_scores self;
     resign_scores := resign_scores self;
     last_message := last_message self;
     calls := calls self |}.

Definition set_black_time (v : Z) (self : Lichess_Game) : Lichess_Game :=
  {| config := config self;
     board := board self;
     white_name := white_name self;
     black_name := black_name self;
     is_white := is_white self;
     initial_time := initial_time self;
     increment := increment self;
     white_time := white_time self;
     black_time := v;
     status := status self;
     draw_enabled := draw_enabled self;
     resign_enabled := resign_enabled self;
     ponder_enabled := ponder_enabled self;
     move_overhead := move_overhead self;
     book_readers := book_readers self;
     out_of_book_counter := out_of_book_counter self;
     out_of_opening_explorer_counter := out_of_opening_explorer_counter self;
     out_of_cloud_counter := out_of_cloud_counter self;
     out_of_chessdb_counter := out_of_chessdb_counter self;
     draw_scores := draw_scores self;
     resign_scores := resign_scores self;
     last_message := last_message self;
     calls := calls self |}.

Definition set_status (v : string) (self : Lichess_Game) : Lichess_Game :=
  {| config := config self;
     board := board self;
     white_name := white_name self;
     black_name := black_name self;
     is_white := is_white self;
     initial_time := initial_time self;
     increment := increment self;
     white_time := white_time self;
     black_time := black_time self;
     status := v;
     draw_enabled := draw_enabled self;
     resign_enabled := resign_enabled self;
     ponder_enabled := ponder_enabled self;
     move_overhead := move_overhead self;
     book_readers := book_readers self;
     out_of_book_counter := out_of_book_counter self;
     out_of_opening_explorer_counter := out_of_opening_explorer_counter self;
     out_of_cloud_counter := out_of_cloud_counter self;
     out_of_chessdb_counter := out_of_chessdb_counter self;
     draw_scores := draw_scores self;
     resign_scores := resign_scores self;
     last_message := last_message self;
     calls := calls self |}.

Definition set_ponder_enabled (v : bool) (self : Lichess_Game) : Lichess_Game :=
  {| config := config self;
     board := board self;
     white_name := white_name self;
     black_name := black_name self;
     is_white := is_white self;
     initial_time := initial_time self;
     increment := increment self;
     white_time := white_time self;
     black_time := black_time self;
     status := status self;
     draw_enabled := draw_enabled self;
     resign_enabled := resign_enabled self;
     ponder_enabled := v;
     move_overhead := move_overhead self;
     book_readers := book_readers self;
     out_of_book_counter := out_of_book_counter self;
     out_of_opening_explorer_counter := out_of_opening_explorer_counter self;
     out_of_cloud_counter := out_of_cloud_counter self;
     out_of_chessdb_counter := out_of_chessdb_counter self;
     draw_scores := draw_scores self;
     resign_scores := resign_scores self;
     last_message := last_message self;
     calls := calls self |}.

Definition set_out_of_book_counter (v : Z) (self : Lichess_Game) : Lichess_Game :=
  {| config := config self;
     board := board self;
     white_name := white_name self;
     black_name := black_name self;
     is_white := is_white self;
     initial_time := initial_time self;
     increment := increment self;
     white_time := white_time self;
     black_time := black_time self;
     status := status self;
     draw_enabled := draw_enabled self;
     resign_enabled := resign_enabled self;
     ponder_enabled := ponder_enabled self;
     move_overhead := move_overhead self;
     book_readers := book_readers self;
     out_of_book_counter := v;
     out_of_opening_explorer_counter := out_of_opening_explorer_counter self;
     out_of_cloud_counter := out_of_cloud_counter self;
     out_of_chessdb_counter := out_of_chessdb_counter self;
     draw_scores := draw_scores self;
     resign_scores := resign_scores self;
     last_message := last_message self;
     calls := calls self |}.

Definition set_out_of_opening_explorer_counter (v : Z) (self : Lichess_Game) : Lichess_Game :=
  {| config := config self;
     board := board self;
     white_name := white_name self;
     black_name := black_name self;
     is_white := is_white self;
     initial_time := initial_time self;
     increment := increment self;
     white_time := white_time self;
     black_time := black_time self;
     status := status self;
     draw_enabled := draw_enabled self;
     resign_enabled := resign_enabled self;
     ponder_enabled := ponder_enabled self;
     move_overhead := move_overhead self;
     book_readers := book_readers self;
     out_of_book_counter := out_of_book_counter self;
     out_of_opening_explorer_counter := v;
     out_of_cloud_counter := out_of_cloud_counter self;
     out_of_chessdb_counter := out_of_chessdb_counter self;
     draw_scores := draw_scores self;
     resign_scores := resign_scores self;
     last_message := last_message self;
     calls := calls self |}.

Definition set_out_of_cloud_counter (v : Z) (self : Lichess_Game) : Lichess_Game :=
  {| config := config self;
     board := board self;
     white_name := white_name self;
     black_name := black_name self;
     is_white := is_white self;
     initial_time := initial_time self;
     increment := increment self;
     white_time := white_time self;
     black_time := black_time self;
     status := status self;
     draw_enabled := draw_enabled self;
     resign_enabled := resign_enabled self;
     ponder_enabled := ponder_enabled self;
     move_overhead := move_overhead self;
     book_readers := book_readers self;
     out_of_book_counter := out_of_book_counter self;
     out_of_opening_explorer_counter := out_of_opening_explorer_counter self;
     out_of_cloud_counter := v;
     out_of_chessdb_counter := out_of_chessdb_counter self;
     draw_scores := draw_scores self;
     resign_scores := resign_scores self;
     last_message := last_message self;
     calls := calls self |}.

Definition set_out_of_chessdb_counter (v : Z) (self : Lichess_Game) : Lichess_Game :=
  {| config := config self;
     board := board self;
     white_name := white_name self;
     black_name := black_name self;
     is_white := is_white self;
     initial_time := initial_time self;
     increment := increment self;
     white_time := white_time self;
     black_time := black_time self;
     status := status self;
     draw_enabled := draw_enabled self;
     resign_enabled := resign_enabled self;
     ponder_enabled := ponder_enabled self;
     move_overhead := move_overhead self;
     book_readers := book_readers self;
     out_of_book_counter := out_of_book_counter self;
     out_of_opening_explorer_counter := out_of_opening_explorer_counter self;
     out_of_cloud_counter := out_of_cloud_counter self;
     out_of_chessdb_counter := v;
     draw_scores := draw_scores self;
     resign_scores := resign_scores self;
     last_message := last_message self;
     calls := calls self |}.

Definition set_draw_scores (v : list Score) (self : Lichess_Game) : Lichess_Game :=
  {| config := config self;
     board := board self;
     white_name := white_name self;
     black_name := black_name self;
     is_white := is_white self;
     initial_time := initial_time self;
     increment := increment self;
     white_time := white_time self;
     black_time := black_time self;
     status := status self;
     draw_enabled := draw_enabled self;
     resign_enabled := resign_enabled self;
     ponder_enabled := ponder_enabled self;
     move_overhead := move_overhead self;
     book_readers := book_readers self;
     out_of_book_counter := out_of_book_counter self;
     out_of_opening_explorer_counter := out_of_opening_explorer_counter self;
     out_of_cloud_counter := out_of_cloud_counter self;
     out_of_chessdb_counter := out_of_chessdb_counter self;
     draw_scores := v;
     resign_scores := resign_scores self;
     last_message := last_message self;
     calls := calls self |}.

Definition set_resign_scores (v : list Score) (self : Lichess_Game) : Lichess_Game :=
  {| config := config self;
     board := board self;
     white_name := white_name self;
     black_name := black_name self;
     is_white := is_white self;
     initial_time := initial_time self;
     increment := increment self;
     white_time := white_time self;
     black_time := black_time self;
     status := status self;
     draw_enabled := draw_enabled self;
     resign_enabled := resign_enabled self;
     ponder_enabled := ponder_enabled self;
     move_overhead := move_overhead self;
     book_readers := book_readers self;
     out_of_book_counter := out_of_book_counter self;
     out_of_opening_explorer_counter := out_of_opening_explorer_counter self;
     out_of_cloud_counter := out_of_cloud_counter self;
     out_of_chessdb_counter := out_of_chessdb_counter self;
     draw_scores := draw_scores self;
     resign_scores := v;
     last_message := last_message self;
     calls := calls self |}.

Definition set_last_message (v : Message) (self : Lichess_Game) : Lichess_Game :=
  {| config := config self;
     board := board self;
     white_name := white_name self;
     black_name := black_name self;
     is_white := is_white self;
     initial_time := initial_time self;
     increment := increment self;
     white_time := white_time self;
     black_time := black_time self;
     status := status self;
     draw_enabled := draw_enabled self;
     resign_enabled := resign_enabled self;
     ponder_enabled := ponder_enabled self;
     move_overhead := move_overhead self;
     book_readers := book_readers self;
     out_of_book_counter := out_of_book_counter self;
     out_of_opening_explorer_counter := out_of_opening_explorer_counter self;
     out_of_cloud_counter := out_of_cloud_counter self;
     out_of_chessdb_counter := out_of_chessdb_counter self;
     draw_scores := draw_scores self;
     resign_scores := resign_scores self;
     last_message := v;
     calls := calls self |}.

Definition set_calls (v : list Call) (self : Lichess_Game) : Lichess_Game :=
  {| config := config self;
     board := board self;
     white_name := white_name self;
     black_name := black_name self;
     is_white := is_white self;
     initial_time := initial_time self;
     increment := increment self;
     white_time := white_time self;
     black_time := black_time self;
     status := status self;
     draw_enabled := draw_enabled self;
     resign_enabled := resign_enabled self;
     ponder_enabled := ponder_enabled self;
     move_overhead := move_overhead self;
     book_readers := book_readers self;
     out_of_book_counter := out_of_book_counter self;
     out_of_opening_explorer_counter := out_of_opening_explorer_counter self;
     out_of_cloud_counter := out_of_cloud_counter self;
     out_of_chessdb_counter := out_of_chessdb_counter self;
     draw_scores := draw_scores self;
     resign_scores := resign_scores self;
     last_message := last_message self;
     calls := v |}.

(** ** Methods as state transformers that may raise *)

Inductive Exception := IndexError | ValueError | ZeroDivisionError | RuntimeError.

Inductive Result (A : Type) :=
| Returns (value : A) (self : Lichess_Game)
| Raises (e : Exception).
Arguments Returns {A} value self.
Arguments Raises {A} e.

Definition M (A : Type) : Type := Lichess_Game -> Result A.

Definition ret {A} (a : A) : M A := fun self => Returns a self.

Definition bind {A B} (m : M A) (k : A -> M B) : M B :=
  fun self =>
    match m self with
    | Returns a self' => k a self'
    | Raises e => Raises e
    end.

Definition raise {A} (e : Exception) : M A := fun _ => Raises e.

Definition get : M Lichess_Game := fun self => Returns self self.

Definition modify (f : Lichess_Game -> Lichess_Game) : M unit :=
  fun self => Returns tt (f self).

Notation "x <- m ;; k" := (bind m (fun x => k))
  (at level 61, m at next level, right associativity).
Notation "m ;; k" := (bind m (fun _ => k))
  (at level 61, right associativity).

(** Issuing a call appends it to the record of calls. *)
Definition call (c : Call) : M unit :=
  modify (fun self => set_calls (calls self ++ [c]) self).

(** [len(l)] as a Python integer. *)
Definition len {A} (l : list A) : Z := Z.of_nat (List.length l).

(** [x >= max_depth] where [max_depth] defaults to [float('inf')]. *)
Definition reaches (x : Z) (max_depth : option Z) : bool :=
  match max_depth with
  | Some d => x >=? d
  | None => false
  end.

(** [max(x :: l, key=key)]: the first element whose key no later one
    strictly exceeds. *)
Fixpoint max_by {A K} (gt : K -> K -> bool) (key : A -> K) (x : A) (l : list A) : A :=
  match l with
  | [] => x
  | y :: l' => if gt (key y) (key x) then max_by gt key y l' else max_by gt key x l'
  end.

(** [random.choice(l)], given the number drawn. *)
Definition choice {A} (drawn : nat) (l : list A) : option A :=
  match l with
  | [] => None
  | _ => nth_error l (drawn mod List.length l)
  end.

(** [random.choices(entries, weights, k=1)] once the point drawn in
    [0, total) is fixed: the first entry whose cumulated weight exceeds the
    point. *)
Fixpoint choices (entries : list Entry) (point : Z) : option Entry :=
  match entries with
  | [] => None
  | entry :: rest =>
      if point <? entry_weight entry then Some entry
      else choices rest (point - entry_weight entry)
  end.

Definition sum_weights (entries : list Entry) : Z :=
  fold_right (fun entry acc => entry_weight entry + acc) 0 entries.

(** Appending to a [deque(maxlen=maxlen)]: the oldest elements leave. *)
Definition deque_append {A} (maxlen : Z) (d : list A) (x : A) : list A :=
  skipn (List.length (d ++ [x]) - Z.to_nat maxlen) (d ++ [x]).

Section Methods.

Variable w : World.

Definition _has_time (min_time : Z) (self : Lichess_Game) : bool :=
  if len (move_stack (board self)) <? 2 then true
  else
    let min_time := min_time * 1000 in
    if is_white self then white_time self >=? min_time
    else black_time self >=? min_time.

Definition _reduce_own_time (milliseconds : Z) : M unit :=
  self <- get ;;
  if is_white self then modify (set_white_time (white_time self - milliseconds))
  else modify (set_black_time (black_time self - milliseconds)).

Definition _is_repetition (self : Lichess_Game) (move : Move) : bool :=
  is_repetition w (push (board self) move) 2.

(** *** Opening books *)

(** The entry one reader proposes, by the configured selection. *)
Definition select_entry (selection : string) (drawn : nat)
    (first : Entry) (others : list Entry) : M Entry :=
  let entries := first :: others in
  if String.eqb selection "weighted_random" then
    let total := sum_weights entries in
    if total <=? 0 then raise ValueError
    else
      match choices entries (Z.of_nat drawn mod total) with
      | Some entry => ret entry
      | None => raise IndexError
      end
  else if String.eqb selection "uniform_random" then
    match choice drawn entries with
    | Some entry => ret entry
    | None => raise IndexError
    end
  else ret (max_by Z.gtb entry_weight first others).

(** The loop over [self.book_readers]; [None] when it runs to its end. *)
Fixpoint book_readers_loop (readers : list nat) : M (option (Move * Q * Z)) :=
  match readers with
  | [] => ret None
  | book_reader :: readers' =>
      self <- get ;;
      call (Book_find_all book_reader (board self)) ;;
      match find_all w book_reader (board self) with
      | [] => book_readers_loop readers'
      | first :: others =>
          let entries := first :: others in
          entry <- select_entry (opening_books_selection (config self))
                     (random w book_reader) first others ;;
          if negb (_is_repetition self (entry_move entry)) then
            modify (set_out_of_book_counter 0) ;;
            if sum_weights entries =? 0 then raise ZeroDivisionError
            else
              let weight :=
                (inject_Z (entry_weight entry) / inject_Z (sum_weights entries) * 100)%Q in
              let learn :=
                if opening_books_read_learn (config self) then entry_learn entry else 0 in
              ret (Some (entry_move entry, weight, learn))
          else book_readers_loop readers'
      end
  end.

Definition _make_book_move : M (option (Move * Q * Z)) :=
  self <- get ;;
  let enabled := opening_books_enabled (config self) in
  if negb enabled then ret None
  else
    let out_of_book := out_of_book_counter self >=? 10 in
    let too_deep := reaches (ply w (board self)) (opening_books_max_depth (config self)) in
    if out_of_book || too_deep then ret None
    else
      response <- book_readers_loop (book_readers self) ;;
      match response with
      | Some found => ret (Some found)
      | None =>
          self <- get ;;
          modify (set_out_of_book_counter (out_of_book_counter self + 1)) ;;
          ret None
      end.

(** *** Opening explorer *)

(** The move [_get_opening_explorer_top_move] returns, with the keys
    [wins] and [losses] it adds. *)
Record Top_Move := {
  tm_uci : Move;
  tm_performance : Z;
  tm_wins : Z;
  tm_draws : Z;
  tm_losses : Z
}.

Definition with_wins_and_losses (self : Lichess_Game) (move : Explorer_Move) : Top_Move :=
  {| tm_uci := em_uci move;
     tm_performance := em_performance move;
     tm_wins := if turn w (board self) then em_white move else em_black move;
     tm_draws := em_draws move;
     tm_losses := if turn w (board self) then em_black move else em_white move |}.

Definition games (move : Explorer_Move) : Z :=
  em_white move + em_draws move + em_black move.

Definition Qgtb (a b : Q) : bool := negb (Qle_bool a b).

Definition win_rate (self : Lichess_Game) (move : Explorer_Move) : Q :=
  (inject_Z (tm_wins (with_wins_and_losses self move)) / inject_Z (games move))%Q.

Definition _get_opening_explorer_top_move (self : Lichess_Game)
    (moves : list Explorer_Move) : M Top_Move :=
  let selection := opening_explorer_selection (config self) in
  match moves with
  | [] => raise ValueError
  | first :: others =>
      if String.eqb selection "win_rate" then
        if existsb (fun move => games move =? 0) moves then raise ZeroDivisionError
        else ret (with_wins_and_losses self (max_by Qgtb (win_rate self) first others))
      else ret (with_wins_and_losses self (max_by Z.gtb em_performance first others))
  end.

Definition _make_opening_explorer_move : M (option (Move * Z * (Z * Z * Z))) :=
  self <- get ;;
  let enabled := opening_explorer_enabled (config self) in
  if negb enabled then ret None
  else
    let out_of_book := out_of_opening_explorer_counter self >=? 10 in
    let too_deep := reaches (ply w (board self)) (opening_explorer_max_depth (config self)) in
    let has_time := _has_time (opening_explorer_min_time (config self)) self in
    let is_variant := negb (String.eqb (uci_variant w (board self)) "chess") in
    let use_for_variants := opening_explorer_use_for_variants (config self) in
    let forbidden_variant := is_variant && negb use_for_variants in
    if out_of_book || too_deep || negb has_time || forbidden_variant then ret None
    else
      let timeout := opening_explorer_timeout (config self) in
      let min_games := Z.max (opening_explorer_min_games (config self)) 1 in
      let only_with_wins := opening_explorer_only_with_wins (config self) in
      let anti := opening_explorer_anti (config self) in
      let color :=
        if anti then (if turn w (board self) then "black" else "white")
        else (if turn w (board self) then "white" else "black") in
      let username :=
        if anti then (if turn w (board self) then black_name self else white_name self)
        else (if turn w (board self) then white_name self else black_name self) in
      call (Opening_explorer_query (board self)) ;;
      match get_opening_explorer w username (board self) color timeout with
      | Some response =>
          let game_count := er_white response + er_draws response + er_black response in
          found <-
            (if game_count >=? min_games then
               top_move <- _get_opening_explorer_top_move self (er_moves response) ;;
               let missing_win := only_with_wins && (tm_wins top_move =? 0) in
               if negb missing_win then
                 modify (set_out_of_opening_explorer_counter 0) ;;
                 let move := tm_uci top_move in
                 if negb (_is_repetition self move) then
                   ret (Some (move, tm_performance top_move,
                              (tm_wins top_move, tm_draws top_move, tm_losses top_move)))
                 else ret None
               else ret None
             else ret None) ;;
          match found with
          | Some answer => ret (Some answer)
          | None =>
              self <- get ;;
              modify (set_out_of_opening_explorer_counter
                        (out_of_opening_explorer_counter self + 1)) ;;
              ret None
          end
      | None =>
          _reduce_own_time (timeout * 1000) ;;
          ret None
      end.

(** *** Cloud evaluation *)

Definition _make_cloud_move : M (option (Move * Z * Z)) :=
  self <- get ;;
  let enabled := lichess_cloud_enabled (config self) in
  if negb enabled then ret None
  else
    let out_of_book := out_of_cloud_counter self >=? 10 in
    let too_deep := reaches (ply w (board self)) (lichess_cloud_max_depth (config self)) in
    let has_time := _has_time (lichess_cloud_min_time (config self)) self in
    let only_without_book := lichess_cloud_only_without_book (config self) in
    let blocking_book :=
      only_without_book && match book_readers self with [] => false | _ => true end in
    if out_of_book || too_deep || negb has_time || blocking_book then ret None
    else
      let timeout := lichess_cloud_timeout (config self) in
      let min_eval_depth := lichess_cloud_min_eval_depth (config self) in
      call (Cloud_query (board self)) ;;
      match get_cloud_eval w (board self) timeout with
      | Some response =>
          found <-
            match response with
            | Cloud_Error => ret None
            | Cloud_Eval depth pv_moves pv_cp =>
                if depth >=? min_eval_depth then
                  modify (set_out_of_cloud_counter 0) ;;
                  match pv_moves with
                  | [] => raise IndexError
                  | move :: _ =>
                      if negb (_is_repetition self move) then ret (Some (move, pv_cp, depth))
                      else ret None
                  end
                else ret None
            end ;;
          match found with
          | Some answer => ret (Some answer)
          | None =>
              self <- get ;;
              modify (set_out_of_cloud_counter (out_of_cloud_counter self + 1)) ;;
              ret None
          end
      | None =>
          _reduce_own_time (timeout * 1000) ;;
          ret None
      end.

(** *** Community database *)

Definition _make_chessdb_move : M (option Move) :=
  self <- get ;;
  let enabled := chessdb_enabled (config self) in
  if negb enabled then ret None
  else
    let out_of_book := out_of_chessdb_counter self >=? 10 in
    let too_deep := reaches (ply w (board self)) (chessdb_max_depth (config self)) in
    let has_time := _has_time (chessdb_min_time (config self)) self in
    let incompatible_variant := negb (String.eqb (uci_variant w (board self)) "chess") in
    let is_endgame := popcount_occupied w (board self) <=? 7 in
    if out_of_book || too_deep || negb has_time || incompatible_variant || is_endgame
    then ret None
    else
      let timeout := chessdb_timeout (config self) in
      let min_eval_depth := chessdb_min_eval_depth (config self) in
      let selection := chessdb_selection (config self) in
      let action :=
        if String.eqb selection "good" then "querybest"
        else if String.eqb selection "all" then "query"
        else "querypv" in
      call (Chessdb_query (board self)) ;;
      match get_chessdb_eval w (board self) action timeout with
      | Some response =>
          found <-
            (if String.eqb (cr_status response) "ok" then
               if match cr_depth response with Some d => d | None => 50 end >=? min_eval_depth
               then
                 modify (set_out_of_chessdb_counter 0) ;;
                 uci_move <-
                   match cr_move response, cr_pv response with
                   | Some uci, _ => ret uci
                   | None, uci :: _ => ret uci
                   | None, [] => raise IndexError
                   end ;;
                 if negb (_is_repetition self uci_move) then ret (Some uci_move)
                 else ret None
               else ret None
             else ret None) ;;
          match found with
          | Some move => ret (Some move)
          | None =>
              self <- get ;;
              modify (set_out_of_chessdb_counter (out_of_chessdb_counter self + 1)) ;;
              ret None
          end
      | None =>
          _reduce_own_time (timeout * 1000) ;;
          ret None
      end.

(** *** Local tablebases *)

Definition random_choice (moves : list Move) : M Move :=
  match choice (random w 0) moves with
  | Some move => ret move
  | None => raise IndexError
  end.

(** The three variables the loop of [_make_gaviota_move] carries. *)
Record Best_DTM := { best_moves : list Move; best_wdl : Z; best_dtm : Z }.

(** What the loop body computes for one legal move before it compares:
    [(wdl, dtm)], or [None] on [MissingTableError]. *)
Definition gaviota_probe (self : Lichess_Game) (move : Move) : option (Z * Z) :=
  let board_copy := push (board self) move in
  if is_checkmate w board_copy then Some (2, 0)
  else
    match probe_dtm w board_copy with
    | Some probed =>
        let dtm := - probed in
        Some (_value_to_wdl dtm (halfmove_clock w board_copy), dtm)
    | None => None
    end.

Definition gaviota_compare (best : Best_DTM) (move : Move) (wdl dtm : Z) : Best_DTM :=
  match best_moves best with
  | _ :: _ =>
      if wdl >? best_wdl best then
        {| best_moves := [move]; best_wdl := wdl; best_dtm := dtm |}
      else if wdl =? best_wdl best then
        if dtm <? best_dtm best then
          {| best_moves := [move]; best_wdl := best_wdl best; best_dtm := dtm |}
        else if dtm =? best_dtm best then
          {| best_moves := best_moves best ++ [move];
             best_wdl := best_wdl best; best_dtm := best_dtm best |}
        else best
      else best
  | [] => {| best_moves := best_moves best ++ [move]; best_wdl := wdl; best_dtm := dtm |}
  end.

(** The loop over the legal moves; [None] when a probe misses its table. *)
Fixpoint gaviota_loop (self : Lichess_Game) (moves : list Move) (best : Best_DTM)
    : option Best_DTM :=
  match moves with
  | [] => Some best
  | move :: moves' =>
      match gaviota_probe self move with
      | Some (wdl, dtm) => gaviota_loop self moves' (gaviota_compare best move wdl dtm)
      | None => None
      end
  end.

Definition gaviota_scan (self : Lichess_Game) : option Best_DTM :=
  gaviota_loop self (legal_moves w (board self))
    {| best_moves := []; best_wdl := -2; best_dtm := 1000000 |}.

Definition _make_gaviota_move : M (option (Move * string * Z * bool * bool)) :=
  self <- get ;;
  let enabled := gaviota_enabled (config self) in
  if negb enabled then ret None
  else
    let is_endgame := popcount_occupied w (board self) <=? gaviota_max_pieces (config self) in
    let incompatible_variant := negb (String.eqb (uci_variant w (board self)) "chess") in
    if negb is_endgame || incompatible_variant then ret None
    else
      match gaviota_scan self with
      | None => ret None
      | Some best =>
          if best_wdl best =? 2 then
            move <- random_choice (best_moves best) ;;
            ret (Some (move, "win", best_dtm best, false, false))
          else if best_wdl best =? 0 then
            move <- random_choice (best_moves best) ;;
            ret (Some (move, "draw", best_dtm best, true, false))
          else if best_wdl best =? -2 then
            move <- random_choice (best_moves best) ;;
            ret (Some (move, "loss", best_dtm best, false, true))
          else ret None
      end.

(** The four variables the loop of [_make_syzygy_move] carries. *)
Record Best_DTZ := {
  syzygy_best_moves : list Move;
  syzygy_best_wdl : Z;
  best_dtz : Z;
  best_real_dtz : Z
}.

(** What the loop body computes for one legal move before it compares:
    [(wdl, dtz, real_dtz)], or [None] on [MissingTableError]. *)
Definition syzygy_probe (self : Lichess_Game) (move : Move) : option (Z * Z * Z) :=
  let board_copy := push (board self) move in
  match probe_dtz w board_copy with
  | None => None
  | Some probed =>
      let dtz := - probed in
      let wdl := _value_to_wdl dtz (halfmove_clock w board_copy) in
      let real_dtz := dtz in
      let dtz :=
        if halfmove_clock w board_copy =? 0 then
          if wdl <? 0 then dtz + 10000
          else if wdl >? 0 then dtz - 10000
          else dtz
        else dtz in
      Some (wdl, dtz, real_dtz)
  end.

Definition syzygy_compare (best : Best_DTZ) (move : Move) (wdl dtz real_dtz : Z)
    : Best_DTZ :=
  match syzygy_best_moves best with
  | _ :: _ =>
      if wdl >? syzygy_best_wdl best then
        {| syzygy_best_moves := [move]; syzygy_best_wdl := wdl;
           best_dtz := dtz; best_real_dtz := real_dtz |}
      else if wdl =? syzygy_best_wdl best then
        if dtz <? best_dtz best then
          {| syzygy_best_moves := [move]; syzygy_best_wdl := syzygy_best_wdl best;
             best_dtz := dtz; best_real_dtz := real_dtz |}
        else if dtz =? best_dtz best then
          {| syzygy_best_moves := syzygy_best_moves best ++ [move];
             syzygy_best_wdl := syzygy_best_wdl best;
             best_dtz := best_dtz best; best_real_dtz := best_real_dtz best |}
        else best
      else best
  | [] =>
      {| syzygy_best_moves := syzygy_best_moves best ++ [move]; syzygy_best_wdl := wdl;
         best_dtz := dtz; best_real_dtz := real_dtz |}
  end.

Fixpoint syzygy_loop (self : Lichess_Game) (moves : list Move) (best : Best_DTZ)
    : option Best_DTZ :=
  match moves with
  | [] => Some best
  | move :: moves' =>
      match syzygy_probe self move with
      | Some (wdl, dtz, real_dtz) =>
          syzygy_loop self moves' (syzygy_compare best move wdl dtz real_dtz)
      | None => None
      end
  end.

Definition syzygy_scan (self : Lichess_Game) : option Best_DTZ :=
  syzygy_loop self (legal_moves w (board self))
    {| syzygy_best_moves := []; syzygy_best_wdl := -2;
       best_dtz := 1000000; best_real_dtz := 1000000 |}.

Definition one_of (s : string) (l : list string) : bool :=
  existsb (String.eqb s) l.

Definition _make_syzygy_move : M (option (Move * string * Z * bool * bool)) :=
  self <- get ;;
  let enabled := syzygy_enabled (config self) && syzygy_instant_play (config self) in
  if negb enabled then ret None
  else
    let is_endgame := popcount_occupied w (board self) <=? syzygy_max_pieces (config self) in
    let incompatible_variant :=
      negb (one_of (uci_variant w (board self)) ["chess"; "antichess"; "atomic"]) in
    if negb is_endgame || incompatible_variant then ret None
    else
      match syzygy_scan self with
      | None => ret None
      | Some best =>
          if syzygy_best_wdl best =? 2 then
            move <- random_choice (syzygy_best_moves best) ;;
            ret (Some (move, "win", best_real_dtz best, false, false))
          else if syzygy_best_wdl best =? 1 then
            move <- random_choice (syzygy_best_moves best) ;;
            ret (Some (move, "cursed win", best_real_dtz best, false, false))
          else if syzygy_best_wdl best =? 0 then
            move <- random_choice (syzygy_best_moves best) ;;
            ret (Some (move, "draw", best_real_dtz best, true, false))
          else if syzygy_best_wdl best =? -1 then
            move <- random_choice (syzygy_best_moves best) ;;
            ret (Some (move, "blessed loss", best_real_dtz best, true, false))
          else
            move <- random_choice (syzygy_best_moves best) ;;
            ret (Some (move, "loss", best_real_dtz best, false, true))
      end.

(** *** Online tablebase *)

Definition _make_egtb_move : M (option (Move * string * Z * option Z * bool * bool)) :=
  self <- get ;;
  let enabled := online_egtb_enabled (config self) in
  if negb enabled then ret None
  else
    let max_pieces := if String.eqb (uci_variant w (board self)) "chess" then 7 else 6 in
    let is_endgame := popcount_occupied w (board self) <=? max_pieces in
    let has_time := _has_time (online_egtb_min_time (config self)) self in
    let incompatible_variant :=
      negb (one_of (uci_variant w (board self)) ["chess"; "antichess"; "atomic"]) in
    if negb is_endgame || negb has_time || incompatible_variant then ret None
    else
      let timeout := online_egtb_timeout (config self) in
      let variant :=
        if String.eqb (uci_variant w (board self)) "chess" then "standard"
        else uci_variant w (board self) in
      call (Egtb_query (board self)) ;;
      match get_egtb w (board self) variant timeout with
      | Some response =>
          match gr_moves response with
          | [] => raise IndexError
          | (uci_move, first_dtz) :: _ =>
              let outcome := gr_category response in
              let dtz := - first_dtz in
              let dtm := gr_dtm response in
              let offer_draw := one_of outcome ["draw"; "blessed loss"] in
              let resign := String.eqb outcome "loss" in
              ret (Some (uci_move, outcome, dtz, dtm, offer_draw, resign))
          end
      | None =>
          _reduce_own_time (timeout * 1000) ;;
          ret None
      end.

(** *** Engine *)

Definition _make_engine_move : M (Move * option Score) :=
  self <- get ;;
  let '(limit, ponder) :=
    if len (move_stack (board self)) <? 2 then (Limit_time 15, false)
    else
      let increment := (inject_Z (increment self) / 1000)%Q in
      let '(white_time, black_time) :=
        if is_white self then
          let white_time :=
            if white_time self >? move_overhead self
            then inject_Z (white_time self - move_overhead self)
            else (inject_Z (white_time self) / 2)%Q in
          ((white_time / 1000)%Q, (inject_Z (black_time self) / 1000)%Q)
        else
          let black_time :=
            if black_time self >? move_overhead self
            then inject_Z (black_time self - move_overhead self)
            else (inject_Z (black_time self) / 2)%Q in
          ((inject_Z (white_time self) / 1000)%Q, (black_time / 1000)%Q) in
      (Limit_clock white_time increment black_time increment, ponder_enabled self) in
  call (Engine_play (board self) limit ponder) ;;
  match engine_play w (board self) limit ponder with
  | Some (move, info_score) =>
      let score := match info_score with Some s => s | None => Mate 1 end in
      modify (fun self =>
        set_draw_scores
          (deque_append (offer_draw_consecutive_moves (config self)) (draw_scores self) score)
          self) ;;
      modify (fun self =>
        set_resign_scores
          (deque_append (resign_consecutive_moves (config self)) (resign_scores self) score)
          self) ;;
      ret (move, info_score)
  | None => raise RuntimeError
  end.

Definition start_pondering : M unit :=
  self <- get ;;
  if ponder_enabled self then call (Engine_analysis (board self) None)
  else ret tt.

Definition stop_pondering : M unit :=
  self <- get ;;
  if ponder_enabled self then
    modify (set_ponder_enabled false) ;;
    call (Engine_analysis (board self) (Some (Limit_time (1 # 1000))))
  else ret tt.

(** *** Draw and resignation *)

Definition _is_drawish (self : Lichess_Game) : bool :=
  if negb (draw_enabled self) then false
  else
    let too_shallow :=
      fullmove_number w (board self) <? offer_draw_min_game_length (config self) in
    let too_few_scores :=
      len (draw_scores self) <? offer_draw_consecutive_moves (config self) in
    if too_shallow || too_few_scores then false
    else
      let max_score := offer_draw_score (config self) in
      forallb (fun s => negb (Z.abs (score s 40000) >? max_score)) (draw_scores self).

Definition _is_resignable (self : Lichess_Game) : bool :=
  if negb (resign_enabled self) then false
  else if len (resign_scores self) <? resign_consecutive_moves (config self) then false
  else
    let max_score := resign_score (config self) in
    forallb (fun s => negb (score s 40000 >? max_score)) (resign_scores self).

(** *** The decision cycle *)

(** The statements of [make_move] after its chain of branches; [offer_draw],
    [resign] and [engine_move] are [False] unless a branch sets them. *)
Definition play (source : Source) (move : Move) (offer_draw resign engine_move : bool)
    : M (Move * bool * bool) :=
  modify (set_last_message (Message_of source move)) ;;
  modify (fun self => set_board (push (board self) move) self) ;;
  (if negb engine_move then start_pondering else ret tt) ;;
  self <- get ;;
  ret (move, offer_draw && draw_enabled self, resign && resign_enabled self).

(** The chain of [make_move], branch by branch from its last: each
    definition is one [elif] with all that follows it. *)
Definition else_engine : M (Move * bool * bool) :=
  response <- _make_engine_move ;;
  let '(move, info) := response in
  self <- get ;;
  let offer_draw := _is_drawish self in
  let resign := _is_resignable self in
  let engine_move := len (move_stack (board self)) >? 1 in
  play Engine move offer_draw resign engine_move.

Definition elif_egtb : M (Move * bool * bool) :=
  response <- _make_egtb_move ;;
  match response with
  | Some (uci_move, outcome, dtz, dtm, offer_draw, resign) =>
      play EGTB uci_move offer_draw resign false
  | None => else_engine
  end.

Definition elif_syzygy : M (Move * bool * bool) :=
  response <- _make_syzygy_move ;;
  match response with
  | Some (move, outcome, dtz, offer_draw, resign) =>
      stop_pondering ;;
      play Syzygy move offer_draw resign false
  | None => elif_egtb
  end.

Definition elif_gaviota : M (Move * bool * bool) :=
  response <- _make_gaviota_move ;;
  match response with
  | Some (move, outcome, dtm, offer_draw, resign) =>
      stop_pondering ;;
      play Gaviota move offer_draw resign false
  | None => elif_syzygy
  end.

Definition elif_chessdb : M (Move * bool * bool) :=
  response <- _make_chessdb_move ;;
  match response with
  | Some move => play ChessDB move false false false
  | None => elif_gaviota
  end.

Definition elif_cloud : M (Move * bool * bool) :=
  response <- _make_cloud_move ;;
  match response with
  | Some (move, cp_score, depth) => play Cloud move false false false
  | None => elif_chessdb
  end.

Definition elif_opening_explorer : M (Move * bool * bool) :=
  response <- _make_opening_explorer_move ;;
  match response with
  | Some (move, perfomance, wdl) => play Explore move false false false
  | None => elif_cloud
  end.

Definition make_move : M (Move * bool * bool) :=
  response <- _make_book_move ;;
  match response with
  | Some (move, weight, learn) => play Book move false false false
  | None => elif_opening_explorer
  end.

(** [update(gameState_event)]; the event carries the status, the moves
    played so far and both clocks. *)
Record GameState_Event := {
  gs_status : string;
  gs_moves : list Move;
  gs_wtime : Z;
  gs_btime : Z
}.

Definition update (gameState_event : GameState_Event) : M bool :=
  modify (set_status (gs_status gameState_event)) ;;
  self <- get ;;
  let moves := gs_moves gameState_event in
  if len moves <=? len (move_stack (board self)) then ret false
  else
    modify (set_board (push (board self) (last moves ""))) ;;
    modify (set_white_time (gs_wtime gameState_event)) ;;
    modify (set_black_time (gs_btime gameState_event)) ;;
    ret true.

End Methods.

(** ** Move overhead and construction *)

(** [int(x)] of a Python number: truncation towards zero. *)
Definition int (x : Q) : Z := Z.quot (Qnum x) (Zpos (Qden x)).

(** *** Binary64 numbers

    A Python [float] is a binary64 number; its finite values are
    rationals, and a division or a product of floats is the exact result
    rounded to the nearest binary64 number, ties to even. *)

(** The integer nearest to [n / d], ties to even, for [0 <= n] and
    [0 < d]. *)
Definition round_half_even (n d : Z) : Z :=
  let q := n / d in
  let r := n mod d in
  if 2 * r <? d then q
  else if d <? 2 * r then q + 1
  else if Z.even q then q else q + 1.

(** The exponent of the leading binary digit of [n / d], for [0 < n] and
    [0 < d]: the [e] with [2 ^ e <= n / d < 2 ^ (e + 1)]. *)
Definition binary_exponent (n d : Z) : Z :=
  let e := Z.log2 n - Z.log2 d in
  if d * 2 ^ Z.max e 0 <=? n * 2 ^ Z.max (- e) 0 then e else e - 1.

(** The binary64 number nearest to a rational: 53 significant bits above
    the exponent -1022, the fixed step [2 ^ -1074] below it (subnormal
    numbers).  A rational beyond the largest binary64 number rounds to an
    infinity, on which [int] raises OverflowError; the model does not
    represent it, and holds for magnitudes below [2 ^ 1023]. *)
Definition float (x : Q) : Q :=
  let n := Z.abs (Qnum x) in
  let d := Zpos (Qden x) in
  if n =? 0 then 0%Q
  else
    let q := Z.max (binary_exponent n d) (-1022) - 52 in
    let m := round_half_even (n * 2 ^ Z.max (- q) 0) (d * 2 ^ Z.max q 0) in
    let value :=
      if 0 <=? q then inject_Z (m * 2 ^ q) else (m # Z.to_pos (2 ^ (- q))) in
    if Qnum x <? 0 then (- value)%Q else value.

(** [_get_move_overhead]; it reads [self.config] and [self.initial_time],
    the only attributes set when [__init__] calls it.  [initial_time] is
    [gameFull_event['clock']['initial']], in milliseconds like
    [increment], which [_make_engine_move] divides by 1000 to get
    seconds.  The quotient of the two integers and the product by the
    multiplier are binary64 operations; the multiplier is the number of
    the configuration as a float, 1.0 when the key is absent. *)
Definition _get_move_overhead (config : Config) (initial_time : Z) : Z :=
  let multiplier :=
    match move_overhead_multiplier config with
    | Some m => float m
    | None => 1%Q
    end in
  Z.max (int (float (float (inject_Z initial_time / 60) * multiplier))) 1000.

(** The [gameFull] event: the names (absent for the site's AI, whose
    level is then given), the clock, and the state of the game. *)
Record GameFull_Event := {
  gf_white_name : option string;
  gf_white_ai_level : string;
  gf_black_name : option string;
  gf_black_ai_level : string;
  gf_clock_initial : Z;
  gf_clock_increment : Z;
  gf_wtime : Z;
  gf_btime : Z;
  gf_status : string;
  gf_moves : list Move
}.

Definition name_or_level (name : option string) (level : string) : string :=
  match name with
  | Some n => if String.eqb n "" then "AI Level " ++ level else n
  | None => "AI Level " ++ level
  end.

(** [__init__]: [username] is [api.user['username']] and [readers] are the
    books [_get_book_readers] opens. *)
Definition __init__ (w : World) (username : string) (readers : list nat)
    (gameFull_event : GameFull_Event) (config : Config) : Lichess_Game :=
  let board := {| move_stack := gf_moves gameFull_event |} in
  {| config := config;
     board := board;
     white_name :=
       name_or_level (gf_white_name gameFull_event) (gf_white_ai_level gameFull_event);
     black_name :=
       name_or_level (gf_black_name gameFull_event) (gf_black_ai_level gameFull_event);
     is_white :=
       match gf_white_name gameFull_event with
       | Some n => String.eqb n username
       | None => false
       end;
     initial_time := gf_clock_initial gameFull_event;
     increment := gf_clock_increment gameFull_event;
     white_time := gf_wtime gameFull_event;
     black_time := gf_btime gameFull_event;
     status := gf_status gameFull_event;
     draw_enabled := offer_draw_enabled config;
     resign_enabled := resign_config_enabled config;
     ponder_enabled :=
       if negb (String.eqb (uci_variant w board) "chess") && variants_enabled config
       then variants_ponder config
       else engine_ponder config;
     move_overhead := _get_move_overhead config (gf_clock_initial gameFull_event);
     book_readers := if opening_books_enabled config then readers else [];
     out_of_book_counter := 0;
     out_of_opening_explorer_counter := 0;
     out_of_cloud_counter := 0;
     out_of_chessdb_counter := 0;
     draw_scores := [];
     resign_scores := [];
     last_message := No_eval_available_yet;
     calls := [] |}.

(** * Vocabulary of the properties *)

(** ** The best set of a tablebase scan *)

Section Best_Set.

(** The class and the comparison distance of a move, when its position
    is in the tablebase. *)
Variable probe : Move -> option (Z * Z).

(** [move] is one of [legal], of maximal class and, within that class, of
    minimal comparison distance. *)
Definition optimal (legal : list Move) (move : Move) : Prop :=
  In move legal /\
  exists wdl d,
    probe move = Some (wdl, d) /\
    forall move' wdl' d',
      In move' legal -> probe move' = Some (wdl', d') ->
      wdl' < wdl \/ (wdl' = wdl /\ d <= d').

(** The comparison both selectors make, on the triple of the best moves,
    their class and their distance. *)
Definition scan_compare (best : list Move * Z * Z) (move : Move) (wdl d : Z)
    : list Move * Z * Z :=
  let '(moves, best_wdl, best_d) := best in
  match moves with
  | _ :: _ =>
      if wdl >? best_wdl then ([move], wdl, d)
      else if wdl =? best_wdl then
        if d <? best_d then ([move], best_wdl, d)
        else if d =? best_d then (moves ++ [move], best_wdl, best_d)
        else best
      else best
  | [] => (moves ++ [move], wdl, d)
  end.

Fixpoint scan_loop (moves : list Move) (best : list Move * Z * Z)
    : option (list Move * Z * Z) :=
  match moves with
  | [] => Some best
  | move :: moves' =>
      match probe move with
      | Some (wdl, d) => scan_loop moves' (scan_compare best move wdl d)
      | None => None
      end
  end.

(** What the loop maintains once it has seen the moves [seen]. *)
Definition scan_invariant (seen : list Move) (best : list Move * Z * Z) : Prop :=
  let '(moves, best_wdl, best_d) := best in
  (seen = [] /\ moves = []) \/
  (moves <> [] /\
   (forall move, In move moves <-> In move seen /\ probe move = Some (best_wdl, best_d)) /\
   (forall move wdl d, In move seen -> probe move = Some (wdl, d) ->
      wdl < best_wdl \/ (wdl = best_wdl /\ best_d <= d))).

End Best_Set.

Definition dtm_triple (best : Best_DTM) : list Move * Z * Z :=
  (best_moves best, best_wdl best, best_dtm best).

Definition dtz_triple (best : Best_DTZ) : list Move * Z * Z :=
  (syzygy_best_moves best, syzygy_best_wdl best, best_dtz best).

(** The class and the comparison distance [_make_syzygy_move] gives a move. *)
Definition syzygy_key (w : World) (self : Lichess_Game) (move : Move) : option (Z * Z) :=
  match syzygy_probe w self move with
  | Some (wdl, dtz, real_dtz) => Some (wdl, dtz)
  | None => None
  end.

(** The distance [_make_syzygy_move] reports for a move: the probed
    distance to zeroing, from the mover's side. *)
Definition syzygy_real_dtz (w : World) (self : Lichess_Game) (move : Move) : option Z :=
  match syzygy_probe w self move with
  | Some (wdl, dtz, real_dtz) => Some real_dtz
  | None => None
  end.

(** ** Example games *)

Definition source_eqb (a b : Source) : bool :=
  match a, b with
  | Book, Book | Explore, Explore | Cloud, Cloud | ChessDB, ChessDB
  | Gaviota, Gaviota | Syzygy, Syzygy | EGTB, EGTB | Engine, Engine => true
  | _, _ => false
  end.

(** A configuration that enables the sources [enabled] (the engine needs no
    key), offers draws after three quiet scores within 50 centipawns from
    move 35 on, resigns after three scores of -1000 or less, and asks the
    remote sources for a depth of 20 and a sample of 5 games, with a
    timeout of 2 seconds. *)
Definition example_config (enabled : list Source) (ponder : bool) : Config :=
  let on source := existsb (source_eqb source) enabled in
  {| offer_draw_enabled := true;
     offer_draw_consecutive_moves := 3;
     offer_draw_min_game_length := 35;
     offer_draw_score := 50;
     resign_config_enabled := true;
     resign_consecutive_moves := 3;
     resign_score := -1000;
     opening_books_enabled := on Book;
     opening_books_max_depth := None;
     opening_books_read_learn := false;
     opening_books_selection := "best_move";
     opening_explorer_enabled := on Explore;
     opening_explorer_max_depth := None;
     opening_explorer_min_time := 20;
     opening_explorer_use_for_variants := false;
     opening_explorer_timeout := 2;
     opening_explorer_min_games := 5;
     opening_explorer_only_with_wins := false;
     opening_explorer_anti := false;
     opening_explorer_selection := "performance";
     lichess_cloud_enabled := on Cloud;
     lichess_cloud_max_depth := None;
     lichess_cloud_min_time := 20;
     lichess_cloud_only_without_book := false;
     lichess_cloud_timeout := 2;
     lichess_cloud_min_eval_depth := 20;
     chessdb_enabled := on ChessDB;
     chessdb_max_depth := None;
     chessdb_min_time := 20;
     chessdb_timeout := 2;
     chessdb_min_eval_depth := 20;
     chessdb_selection := "good";
     gaviota_enabled := on Gaviota;
     gaviota_max_pieces := 5;
     syzygy_enabled := on Syzygy;
     syzygy_instant_play := on Syzygy;
     syzygy_max_pieces := 7;
     online_egtb_enabled := on EGTB;
     online_egtb_min_time := 20;
     online_egtb_timeout := 2;
     engine_ponder := ponder;
     variants_enabled := false;
     variants_ponder := false;
     move_overhead_multiplier := None |}.

(** A game of standard chess, ten minutes a side, in which user "bot" has
    White against "opponent"; [moves] were played so far and both sides
    have [clock] milliseconds left. *)
Definition example_event (moves : list Move) (clock : Z) : GameFull_Event :=
  {| gf_white_name := Some "bot";
     gf_white_ai_level := "";
     gf_black_name := Some "opponent";
     gf_black_ai_level := "";
     gf_clock_initial := 600000;
     gf_clock_increment := 0;
     gf_wtime := clock;
     gf_btime := clock;
     gf_status := "started";
     gf_moves := moves |}.

Definition last_move (board : Board) : Move := last (move_stack board) "".

(** A position of [pieces] men at move [number] with the moves [legal];
    the remote services do not answer, there is no book and no engine
    move.  The position after a move is told by that move alone: whether
    it mates, what the tablebases probe there ([probed], for DTM and DTZ
    alike), its halfmove clock, and whether it repeats ([repeats]). *)
Definition example_world (pieces number : Z) (legal : list Move)
    (mates : Move -> bool) (probed : Move -> option Z) (clock : Move -> Z)
    (repeats : Move -> bool) (drawn : nat -> nat) : World :=
  {| legal_moves := fun _ => legal;
     is_checkmate := fun board => mates (last_move board);
     is_repetition := fun board _ => repeats (last_move board);
     halfmove_clock := fun board => clock (last_move board);
     fullmove_number := fun _ => number;
     ply := fun board => len (move_stack board);
     turn := fun board => Z.even (len (move_stack board));
     popcount_occupied := fun _ => pieces;
     uci_variant := fun _ => "chess";
     find_all := fun _ _ => [];
     probe_dtm := fun board => probed (last_move board);
     probe_dtz := fun board => probed (last_move board);
     get_opening_explorer := fun _ _ _ _ => None;
     get_cloud_eval := fun _ _ => None;
     get_chessdb_eval := fun _ _ _ => None;
     get_egtb := fun _ _ _ => None;
     engine_play := fun _ _ _ => None;
     random := drawn |}.

Definition no_move : Move -> bool := fun _ => false.

(** Four legal moves in a five-men ending: "Kb6" wins in 3 plies and so
    does "Kb7", "Ka6" wins in 7, and "Rh8" would mate next ply but leaves
    the halfmove clock at 100. *)
Definition mate_table (move : Move) : option Z :=
  if String.eqb move "Rh8" then Some (-1)
  else if String.eqb move "Kb6" then Some (-3)
  else if String.eqb move "Ka6" then Some (-7)
  else if String.eqb move "Kb7" then Some (-3)
  else None.

Definition mate_clock (move : Move) : Z :=
  if String.eqb move "Rh8" then 100 else 4.

Definition mate_world (drawn : nat -> nat) : World :=
  example_world 5 60 ["Rh8"; "Kb6"; "Ka6"; "Kb7"] no_move mate_table mate_clock
    no_move drawn.

Definition mate_game (drawn : nat -> nat) : Lichess_Game :=
  __init__ (mate_world drawn) "bot" [] (example_event [] 300000)
    (example_config [Gaviota] true).





(** The probes of the legal moves stay within [bound] plies. *)
Definition probes_within (w : World) (self : Lichess_Game) (bound : Z) : Prop :=
  forall move probed,
    In move (legal_moves w (board self)) ->
    probe_dtz w (push (board self) move) = Some probed ->
    Z.abs probed <= bound.

(** The world [w] with another answer from one of its collaborators. *)
Definition with_find_all (answer : nat -> Board -> list Entry) (w : World) : World :=
  {| legal_moves := legal_moves w;
     is_checkmate := is_checkmate w;
     is_repetition := is_repetition w;
     halfmove_clock := halfmove_clock w;
     fullmove_number := fullmove_number w;
     ply := ply w;
     turn := turn w;
     popcount_occupied := popcount_occupied w;
     uci_variant := uci_variant w;
     find_all := answer;
     probe_dtm := probe_dtm w;
     probe_dtz := probe_dtz w;
     get_opening_explorer := get_opening_explorer w;
     get_cloud_eval := get_cloud_eval w;
     get_chessdb_eval := get_chessdb_eval w;
     get_egtb := get_egtb w;
     engine_play := engine_play w;
     random := random w |}.

Definition with_get_opening_explorer (answer : string -> Board -> string -> Z -> option Explorer_Response) (w : World) : World :=
  {| legal_moves := legal_moves w;
     is_checkmate := is_checkmate w;
     is_repetition := is_repetition w;
     halfmove_clock := halfmove_clock w;
     fullmove_number := fullmove_number w;
     ply := ply w;
     turn := turn w;
     popcount_occupied := popcount_occupied w;
     uci_variant := uci_variant w;
     find_all := find_all w;
     probe_dtm := probe_dtm w;
     probe_dtz := probe_dtz w;
     get_opening_explorer := answer;
     get_cloud_eval := get_cloud_eval w;
     get_chessdb_eval := get_chessdb_eval w;
     get_egtb := get_egtb w;
     engine_play := engine_play w;
     random := random w |}.

Definition with_get_cloud_eval (answer : Board -> Z -> option Cloud_Response) (w : World) : World :=
  {| legal_moves := legal_moves w;
     is_checkmate := is_checkmate w;
     is_repetition := is_repetition w;
     halfmove_clock := halfmove_clock w;
     fullmove_number := fullmove_number w;
     ply := ply w;
     turn := turn w;
     popcount_occupied := popcount_occupied w;
     uci_variant := uci_variant w;
     find_all := find_all w;
     probe_dtm := probe_dtm w;
     probe_dtz := probe_dtz w;
     get_opening_explorer := get_opening_explorer w;
     get_cloud_eval := answer;
     get_chessdb_eval := get_chessdb_eval w;
     get_egtb := get_egtb w;
     engine_play := engine_play w;
     random := random w |}.

Definition with_get_chessdb_eval (answer : Board -> string -> Z -> option Chessdb_Response) (w : World) : World :=
  {| legal_moves := legal_moves w;
     is_checkmate := is_checkmate w;
     is_repetition := is_repetition w;
     halfmove_clock := halfmove_clock w;
     fullmove_number := fullmove_number w;
     ply := ply w;
     turn := turn w;
     popcount_occupied := popcount_occupied w;
     uci_variant := uci_variant w;
     find_all := find_all w;
     probe_dtm := probe_dtm w;
     probe_dtz := probe_dtz w;
     get_opening_explorer := get_opening_explorer w;
     get_cloud_eval := get_cloud_eval w;
     get_chessdb_eval := answer;
     get_egtb := get_egtb w;
     engine_play := engine_play w;
     random := random w |}.

Definition with_get_egtb (answer : Board -> string -> Z -> option Egtb_Response) (w : World) : World :=
  {| legal_moves := legal_moves w;
     is_checkmate := is_checkmate w;
     is_repetition := is_repetition w;
     halfmove_clock := halfmove_clock w;
     fullmove_number := fullmove_number w;
     ply := ply w;
     turn := turn w;
     popcount_occupied := popcount_occupied w;
     uci_variant := uci_variant w;
     find_all := find_all w;
     probe_dtm := probe_dtm w;
     probe_dtz := probe_dtz w;
     get_opening_explorer := get_opening_explorer w;
     get_cloud_eval := get_cloud_eval w;
     get_chessdb_eval := get_chessdb_eval w;
     get_egtb := answer;
     engine_play := engine_play w;
     random := random w |}.

Definition with_engine_play (answer : Board -> Limit -> bool -> option (Move * option Score)) (w : World) : World :=
  {| legal_moves := legal_moves w;
     is_checkmate := is_checkmate w;
     is_repetition := is_repetition w;
     halfmove_clock := halfmove_clock w;
     fullmove_number := fullmove_number w;
     ply := ply w;
     turn := turn w;
     popcount_occupied := popcount_occupied w;
     uci_variant := uci_variant w;
     find_all := find_all w;
     probe_dtm := probe_dtm w;
     probe_dtz := probe_dtz w;
     get_opening_explorer := get_opening_explorer w;
     get_cloud_eval := get_cloud_eval w;
     get_chessdb_eval := get_chessdb_eval w;
     get_egtb := get_egtb w;
     engine_play := answer;
     random := random w |}.

(** The only legal move, "Kg1", loses in 5 plies with the halfmove
    clock at 96: a blessed loss. *)
Definition blessed_table (move : Move) : option Z :=
  if String.eqb move "Kg1" then Some 5 else None.

Definition blessed_world : World :=
  example_world 5 80 ["Kg1"] no_move blessed_table (fun _ => 96) no_move
    (fun _ => 0%nat).

Definition blessed_game (enabled : list Source) : Lichess_Game :=
  __init__ blessed_world "bot" [] (example_event [] 300000)
    (example_config enabled true).

(** The same position, answered by the online tablebase. *)
Definition blessed_online_world : World :=
  with_get_egtb
    (fun _ _ _ =>
       Some {| gr_category := "blessed loss"; gr_dtm := None; gr_moves := [("Kg1", 5)] |})
    blessed_world.

(** The flags the specification gives a class: a draw offer for 0, a
    resignation for -2, neither for the others. *)
Definition stated_flags (wdl : Z) : bool * bool :=
  if wdl =? 0 then (true, false)
  else if wdl =? -2 then (false, true)
  else (false, false).

(** ** What a method leaves as it was *)

(** A method relates the state it returns in to the state it ran from. *)
Definition keeps {A} (R : Lichess_Game -> Lichess_Game -> Prop) (m : M A) : Prop :=
  forall self a self', m self = Returns a self' -> R self self'.

Definition is_analysis (c : Call) : bool :=
  match c with
  | Engine_analysis _ _ => true
  | _ => false
  end.

(** The pondering searches started so far. *)
Definition analyses (self : Lichess_Game) : list Call :=
  filter is_analysis (calls self).

(** What no source before the engine changes: the position, the
    configuration, the features enabled, the score windows, and the
    pondering searches started. *)
Definition same_game (self self' : Lichess_Game) : Prop :=
  config self' = config self /\
  board self' = board self /\
  draw_enabled self' = draw_enabled self /\
  resign_enabled self' = resign_enabled self /\
  ponder_enabled self' = ponder_enabled self /\
  draw_scores self' = draw_scores self /\
  resign_scores self' = resign_scores self /\
  analyses self' = analyses self.

(** The consecutive-miss counter of a source that keeps one. *)
Definition counter (source : Source) (self : Lichess_Game) : option Z :=
  match source with
  | Book => Some (out_of_book_counter self)
  | Explore => Some (out_of_opening_explorer_counter self)
  | Cloud => Some (out_of_cloud_counter self)
  | ChessDB => Some (out_of_chessdb_counter self)
  | _ => None
  end.

Definition is_query_of (source : Source) (c : Call) : bool :=
  match source, c with
  | Book, Book_find_all _ _
  | Explore, Opening_explorer_query _
  | Cloud, Cloud_query _
  | ChessDB, Chessdb_query _
  | EGTB, Egtb_query _
  | Engine, Engine_play _ _ _ => true
  | _, _ => false
  end.

(** The queries issued to a source so far. *)
Definition queries (source : Source) (self : Lichess_Game) : list Call :=
  filter (is_query_of source) (calls self).

(** The counter of the source has reached 10. *)
Definition out_of (source : Source) (self : Lichess_Game) : Prop :=
  exists n, counter source self = Some n /\ 10 <= n.

(** From a state in which the source is out, its counter and the queries
    issued to it are the same afterwards. *)
Definition stays_out (source : Source) (self self' : Lichess_Game) : Prop :=
  out_of source self ->
  counter source self' = counter source self /\
  queries source self' = queries source self.

(** What the object does during a game: a decision cycle, or the arrival
    of a game state.  The world may answer differently each time. *)
Inductive step : Lichess_Game -> Lichess_Game -> Prop :=
| step_make_move w self response self' :
    make_move w self = Returns response self' -> step self self'
| step_update gameState_event self changed self' :
    update gameState_event self = Returns changed self' -> step self self'.

Inductive steps : Lichess_Game -> Lichess_Game -> Prop :=
| steps_none self : steps self self
| steps_more self self' self'' : steps self self' -> step self' self'' -> steps self self''.

(** ** The branch that decides *)

(** The source [source], called in [self], answers with [move] and the
    flags [offer_draw] and [resign], leaving [self']. *)
Definition answers (w : World) (source : Source) (self : Lichess_Game)
    (move : Move) (offer_draw resign : bool) (self' : Lichess_Game) : Prop :=
  match source with
  | Book =>
      exists weight learn,
        _make_book_move w self = Returns (Some (move, weight, learn)) self' /\
        offer_draw = false /\ resign = false
  | Explore =>
      exists performance wdl,
        _make_opening_explorer_move w self = Returns (Some (move, performance, wdl)) self' /\
        offer_draw = false /\ resign = false
  | Cloud =>
      exists cp_score depth,
        _make_cloud_move w self = Returns (Some (move, cp_score, depth)) self' /\
        offer_draw = false /\ resign = false
  | ChessDB =>
      _make_chessdb_move w self = Returns (Some move) self' /\
      offer_draw = false /\ resign = false
  | Gaviota =>
      exists outcome dtm,
        _make_gaviota_move w self
        = Returns (Some (move, outcome, dtm, offer_draw, resign)) self'
  | Syzygy =>
      exists outcome dtz,
        _make_syzygy_move w self
        = Returns (Some (move, outcome, dtz, offer_draw, resign)) self'
  | EGTB =>
      exists outcome dtz dtm,
        _make_egtb_move w self
        = Returns (Some (move, outcome, dtz, dtm, offer_draw, resign)) self'
  | Engine =>
      exists info,
        _make_engine_move w self = Returns (move, info) self' /\
        offer_draw = _is_drawish w self' /\ resign = _is_resignable self'
  end.

(** What [make_move] does once [source] has answered. *)
Definition conclude (source : Source) (move : Move) (offer_draw resign : bool)
    : M (Move * bool * bool) :=
  match source with
  | Gaviota | Syzygy => stop_pondering ;; play source move offer_draw resign false
  | Engine =>
      self <- get ;;
      play Engine move offer_draw resign (len (move_stack (board self)) >? 1)
  | _ => play source move offer_draw resign false
  end.

(** The pondering search [make_move] starts, or the short one by which it
    stops pondering, once [source] has answered with [move] in [self]. *)
Definition pondering_after (source : Source) (move : Move) (self : Lichess_Game)
    : list Call :=
  match source with
  | Gaviota | Syzygy =>
      if ponder_enabled self
      then [Engine_analysis (board self) (Some (Limit_time (1 # 1000)))]
      else []
  | Engine =>
      if len (move_stack (board self)) >? 1 then []
      else if ponder_enabled self
           then [Engine_analysis (push (board self) move) None]
           else []
  | _ =>
      if ponder_enabled self
      then [Engine_analysis (push (board self) move) None]
      else []
  end.

Definition stops_pondering (source : Source) : bool :=
  match source with
  | Gaviota | Syzygy => true
  | _ => false
  end.

(** The cycle run from [self] returns [response] in [self']: some source,
    called in a state [asked] that the sources before it left the same
    game as [self], answers, and [make_move] concludes. *)
Definition decided (w : World) (self : Lichess_Game) (response : Move * bool * bool)
    (self' : Lichess_Game) : Prop :=
  exists source asked answered move offer_draw resign,
    same_game self asked /\
    answers w source asked move offer_draw resign answered /\
    conclude source move offer_draw resign answered = Returns response self'.

(** ** Example cycles *)

(** A five-men ending in which the only legal move, "Kb6", wins in 3
    plies and repeats the position; the engine would play "Ka6". *)
Definition repeating_table (move : Move) : option Z :=
  if String.eqb move "Kb6" then Some (-3) else None.

Definition repeating_world : World :=
  with_engine_play (fun _ _ _ => Some ("Ka6", Some (Cp 900)))
    (example_world 5 60 ["Kb6"] no_move repeating_table (fun _ => 4)
       (fun move => String.eqb move "Kb6") (fun _ => 0%nat)).

(** The game in that ending after the moves "Ka5" and "Kc8", pondering
    enabled. *)
Definition repeating_game (enabled : list Source) : Lichess_Game :=
  __init__ repeating_world "bot" [] (example_event ["Ka5"; "Kc8"] 300000)
    (example_config enabled true).

(** The same ending with one move on the board and no source but the
    engine. *)
Definition early_game : Lichess_Game :=
  __init__ repeating_world "bot" [] (example_event ["Ka5"] 300000)
    (example_config [] true).

(** The state a method returns in; the one it ran from, should it raise. *)
Definition state_after {A} (m : M A) (self : Lichess_Game) : Lichess_Game :=
  match m self with
  | Returns _ self' => self'
  | Raises _ => self
  end.

(** Pondering as the specification has it: a move of a source other than
    the engine starts a search on the position it leads to. *)
Definition stated_pondering (source : Source) (move : Move) (self : Lichess_Game)
    : list Call :=
  match source with
  | Engine => []
  | _ => [Engine_analysis (push (board self) move) None]
  end.

(** ** The repetition guard *)

(** The world [w] in which the repetition predicate is [answer]. *)
Definition with_is_repetition (answer : Board -> Z -> bool) (w : World) : World :=
  {| legal_moves := legal_moves w;
     is_checkmate := is_checkmate w;
     is_repetition := answer;
     halfmove_clock := halfmove_clock w;
     fullmove_number := fullmove_number w;
     ply := ply w;
     turn := turn w;
     popcount_occupied := popcount_occupied w;
     uci_variant := uci_variant w;
     find_all := find_all w;
     probe_dtm := probe_dtm w;
     probe_dtz := probe_dtz w;
     get_opening_explorer := get_opening_explorer w;
     get_cloud_eval := get_cloud_eval w;
     get_chessdb_eval := get_chessdb_eval w;
     get_egtb := get_egtb w;
     engine_play := engine_play w;
     random := random w |}.

(** The world in which no position counts as repeated: what a source
    returns there is its candidate before the guard. *)
Definition unguarded (w : World) : World := with_is_repetition (fun _ _ => false) w.

(** The sources that consult the guard. *)
Definition guarded (source : Source) : bool :=
  match source with
  | Book | Explore | Cloud | ChessDB => true
  | _ => false
  end.

(** The repeating ending, answered by the online tablebase. *)
Definition repeating_online_world : World :=
  with_get_egtb
    (fun _ _ _ =>
       Some {| gr_category := "win"; gr_dtm := Some 3; gr_moves := [("Kb6", -3)] |})
    repeating_world.

(** A book whose heaviest entry, "Kb6", repeats the position, in the
    repeating ending. *)
Definition repeating_book_world : World :=
  with_find_all
    (fun _ _ =>
       [{| entry_move := "Kb6"; entry_weight := 90; entry_learn := 0 |};
        {| entry_move := "Ka6"; entry_weight := 10; entry_learn := 0 |}])
    repeating_world.

Definition repeating_book_game : Lichess_Game :=
  __init__ repeating_book_world "bot" [0%nat] (example_event ["Ka5"; "Kc8"] 300000)
    (example_config [Book] true).

(** ** A source that has run out *)

(** The repeating ending with a cloud that knows the position at depth 30
    and recommends "Ka6". *)
Definition cloud_world : World :=
  with_get_cloud_eval (fun _ _ => Some (Cloud_Eval 30 ["Ka6"] 15)) repeating_world.

(** A game in which the cloud has missed ten times in a row. *)
Definition cloud_out_game : Lichess_Game :=
  set_out_of_cloud_counter 10 (repeating_game [Cloud]).

(** ** Draw offers *)

(** A position at move [number] in which the engine plays "Ka6" with a
    score of [cp] centipawns. *)
Definition draw_world (number cp : Z) : World :=
  with_engine_play (fun _ _ _ => Some ("Ka6", Some (Cp cp)))
    (example_world 5 number ["Ka6"] no_move (fun _ => None) (fun _ => 4) no_move
       (fun _ => 0%nat)).

(** A game there with no source but the engine, whose draw window holds
    the centipawn scores [window]; its capacity is 3, the threshold 50 and
    the minimal game length 35. *)
Definition draw_game (number cp : Z) (window : list Z) : Lichess_Game :=
  set_draw_scores (map Cp window)
    (__init__ (draw_world number cp) "bot" [] (example_event ["Ka5"; "Kc8"] 300000)
       (example_config [] true)).

(** The condition of a draw offer as the specification words it: the move
    number exceeds the minimum, the window is full, every score is below
    the threshold. *)
Definition stated_drawish (w : World) (self : Lichess_Game) : Prop :=
  draw_enabled self = true /\
  fullmove_number w (board self) > offer_draw_min_game_length (config self) /\
  len (draw_scores self) = offer_draw_consecutive_moves (config self) /\
  Forall (fun s => Z.abs (score s 40000) < offer_draw_score (config self))
    (draw_scores self).

(** ** Move overhead *)

(** The overhead as the specification words it:
    max(initial time in seconds / 60 * multiplier, 1000). *)
Definition stated_move_overhead (initial_time_seconds multiplier : Q) : Q :=
  let share := (initial_time_seconds / 60 * multiplier)%Q in
  if Qle_bool share 1000 then 1000%Q else share.

(** ** The best class of a position *)

(** [wdl] is the best class over the moves [legal]: every move has a
    class, none a higher one, and some move has this one. *)
Definition best_class (probe : Move -> option (Z * Z)) (legal : list Move) (wdl : Z)
    : Prop :=
  (exists move d, In move legal /\ probe move = Some (wdl, d)) /\
  (forall move, In move legal -> exists wdl' d, probe move = Some (wdl', d) /\ wdl' <= wdl).

(** The only legal move, "Rh8", would mate in one ply but leaves the
    halfmove clock at 100: a cursed win.  The engine would play it. *)
Definition cursed_world : World :=
  with_engine_play (fun _ _ _ => Some ("Rh8", Some (Cp 0)))
    (example_world 5 60 ["Rh8"] no_move mate_table mate_clock no_move (fun _ => 0%nat)).

Definition cursed_game : Lichess_Game :=
  __init__ cursed_world "bot" [] (example_event ["Ka5"; "Kc8"] 300000)
    (example_config [Gaviota] true).

(** ** Further vocabulary *)

(** The remaining time of the side the object plays, and of the other. *)
Definition own_time (self : Lichess_Game) : Z :=
  if is_white self then white_time self else black_time self.

Definition opponent_time (self : Lichess_Game) : Z :=
  if is_white self then black_time self else white_time self.

(** The clock a limit gives the side the object plays, and the other. *)
Definition own_clock (self : Lichess_Game) (limit : Limit) : option Q :=
  match limit with
  | Limit_time _ => None
  | Limit_clock white_clock _ black_clock _ =>
      Some (if is_white self then white_clock else black_clock)
  end.

Definition opponent_clock (self : Lichess_Game) (limit : Limit) : option Q :=
  match limit with
  | Limit_time _ => None
  | Limit_clock white_clock _ black_clock _ =>
      Some (if is_white self then black_clock else white_clock)
  end.

(** Both score windows are within their configured capacities. *)
Definition windows_bounded (self : Lichess_Game) : Prop :=
  len (draw_scores self) <= Z.max 0 (offer_draw_consecutive_moves (config self)) /\
  len (resign_scores self) <= Z.max 0 (resign_consecutive_moves (config self)).

(** The clock of the side played has been charged [timeout] seconds, and
    nothing else of the clocks and the counters has changed. *)
Definition debited (timeout : Z) (self self' : Lichess_Game) : Prop :=
  own_time self' = own_time self - timeout * 1000 /\
  opponent_time self' = opponent_time self /\
  is_white self' = is_white self /\
  forall source, counter source self' = counter source self.

(** A remote service that never answers. *)
Definition silent_world : World :=
  with_get_cloud_eval (fun _ _ => None) cloud_world.

(** The configured timeouts of the remote sources are not negative. *)
Definition timeouts_nonnegative (config : Config) : Prop :=
  0 <= opening_explorer_timeout config /\
  0 <= lichess_cloud_timeout config /\
  0 <= chessdb_timeout config /\
  0 <= online_egtb_timeout config.

(** What a cycle keeps of the clocks: the side played, the opponent's
    time, and, the timeouts not being negative, an own time no greater
    than before. *)
Definition clocks_kept (self self' : Lichess_Game) : Prop :=
  config self' = config self /\
  is_white self' = is_white self /\
  opponent_time self' = opponent_time self /\
  (timeouts_nonnegative (config self) -> own_time self' <= own_time self).

(** The gates of the two selectors: enabled, few enough men, a variant the
    tablebase knows. *)
Definition gaviota_eligible (w : World) (self : Lichess_Game) : bool :=
  gaviota_enabled (config self)
  && (popcount_occupied w (board self) <=? gaviota_max_pieces (config self))
  && String.eqb (uci_variant w (board self)) "chess".

Definition syzygy_eligible (w : World) (self : Lichess_Game) : bool :=
  syzygy_enabled (config self) && syzygy_instant_play (config self)
  && (popcount_occupied w (board self) <=? syzygy_max_pieces (config self))
  && one_of (uci_variant w (board self)) ["chess"; "antichess"; "atomic"].

(** A five-men ending with a mate in one, "Rh8", beside the slower win
    "Kb6"; and the same ending with a move, "Ka6", whose table is missing. *)
Definition mating_world : World :=
  example_world 5 60 ["Kb6"; "Rh8"] (fun move => String.eqb move "Rh8")
    repeating_table (fun _ => 4) no_move (fun _ => 0%nat).

Definition gap_world : World :=
  example_world 5 60 ["Kb6"; "Ka6"] no_move repeating_table (fun _ => 4) no_move
    (fun _ => 0%nat).

Definition tablebase_game (w : World) : Lichess_Game :=
  __init__ w "bot" [] (example_event ["Ka5"; "Kc8"] 300000)
    (example_config [Gaviota; Syzygy] true).

(** ** The order of the sources *)

(** The place of a source in the chain of [make_move]. *)
Definition rank (source : Source) : nat :=
  match source with
  | Book => 0 | Explore => 1 | Cloud => 2 | ChessDB => 3
  | Gaviota => 4 | Syzygy => 5 | EGTB => 6 | Engine => 7
  end.

(** Only [own] was asked between two states. *)
Definition asks_only (own : Source) (self self' : Lichess_Game) : Prop :=
  forall source, source <> own -> queries source self' = queries source self.

(** Nothing was asked between two states. *)
Definition asks_nothing (self self' : Lichess_Game) : Prop :=
  forall source, queries source self' = queries source self.

(** No source from [first] on was asked between two states. *)
Definition unasked_from (first : nat) (self self' : Lichess_Game) : Prop :=
  forall source, (first <= rank source)%nat -> queries source self' = queries source self.

(** The sources whose queries are recorded as calls: the local
    tablebases are probed without one. *)
Definition recorded (source : Source) : bool :=
  match source with
  | Gaviota | Syzygy => false
  | _ => true
  end.

(** The source [source], called in [self], returns no move and leaves
    [self']. *)
Definition returns_none (w : World) (source : Source) (self self' : Lichess_Game)
    : Prop :=
  match source with
  | Book => _make_book_move w self = Returns None self'
  | Explore => _make_opening_explorer_move w self = Returns None self'
  | Cloud => _make_cloud_move w self = Returns None self'
  | ChessDB => _make_chessdb_move w self = Returns None self'
  | Gaviota => _make_gaviota_move w self = Returns None self'
  | Syzygy => _make_syzygy_move w self = Returns None self'
  | EGTB => _make_egtb_move w self = Returns None self'
  | Engine => False
  end.

(** The sources of [sources], called one after the other from [self], all
    return no move, and leave [asked]. *)
Fixpoint all_decline (w : World) (sources : list Source) (self asked : Lichess_Game)
    : Prop :=
  match sources with
  | [] => asked = self
  | source :: rest =>
      exists next, returns_none w source self next /\ all_decline w rest next asked
  end.

(** The chain of [make_move], and the part of it from the rank [first] up
    to the source [source], which is left out. *)
Definition chain : list Source :=
  [Book; Explore; Cloud; ChessDB; Gaviota; Syzygy; EGTB; Engine].

Definition sources_between (first : nat) (source : Source) : list Source :=
  skipn first (firstn (rank source) chain).

(** The cycle run from [self], entered at the branch of rank [first],
    returns [response] in [self']: every source from that rank up to some
    source returns no move, that source answers in the state they leave,
    and before it none from it on was asked. *)
Definition decided_from (first : nat) (w : World) (self : Lichess_Game)
    (response : Move * bool * bool) (self' : Lichess_Game) : Prop :=
  exists source asked answered move offer_draw resign,
    (first <= rank source)%nat /\
    all_decline w (sources_between first source) self asked /\
    unasked_from (rank source) self asked /\
    answers w source asked move offer_draw resign answered /\
    conclude source move offer_draw resign answered = Returns response self'.

(** ** The miss counters *)

(** Every miss counter lies between 0 and 10. *)
Definition counters_within (self : Lichess_Game) : Prop :=
  forall source n, counter source self = Some n -> 0 <= n <= 10.

Definition stays_within (self self' : Lichess_Game) : Prop :=
  counters_within self -> counters_within self'.

Definition counters_kept (self self' : Lichess_Game) : Prop :=
  forall source, counter source self' = counter source self.

(** The repeating ending with a cloud that knows the position at depth 30
    and recommends "Kb6", which repeats it. *)
Definition stubborn_cloud_world : World :=
  with_get_cloud_eval (fun _ _ => Some (Cloud_Eval 30 ["Kb6"] 15)) repeating_world.

(** A game there in which the cloud has missed seven times in a row. *)
Definition stubborn_cloud_game : Lichess_Game :=
  set_out_of_cloud_counter 7 (repeating_game [Cloud]).

(** The remote source [source], called in [self], returns no move and
    leaves [self']. *)
Definition declines (w : World) (source : Source) (self self' : Lichess_Game) : Prop :=
  match source with
  | Explore => _make_opening_explorer_move w self = Returns None self'
  | Cloud => _make_cloud_move w self = Returns None self'
  | ChessDB => _make_chessdb_move w self = Returns None self'
  | _ => False
  end.

(** The gate of the book is open: it is enabled, not out, and the game is
    not too deep. *)
Definition book_eligible (w : World) (self : Lichess_Game) : bool :=
  opening_books_enabled (config self)
  && negb (out_of_book_counter self >=? 10)
  && negb (reaches (ply w (board self)) (opening_books_max_depth (config self))).

(** The repeating book, asked when the book has missed four times. *)
Definition repeating_book_game_after_misses : Lichess_Game :=
  set_out_of_book_counter 4 repeating_book_game.

(** ** Gates of the remote sources *)

(** The repeating ending with five seconds left on both clocks, every
    remote source enabled; the configured minimum is twenty seconds. *)
Definition hurried_game : Lichess_Game :=
  __init__ repeating_online_world "bot" [] (example_event ["Ka5"; "Kc8"] 5000)
    (example_config [Explore; Cloud; ChessDB; EGTB] true).

(** A middlegame of [pieces] men in which the community database
    recommends "Ka6" and the online tablebase would answer too. *)
Definition crowded_world (pieces : Z) : World :=
  with_get_chessdb_eval
    (fun _ _ _ => Some {| cr_status := "ok"; cr_depth := Some 30;
                          cr_move := Some "Ka6"; cr_pv := [] |})
    (with_get_egtb
       (fun _ _ _ =>
          Some {| gr_category := "win"; gr_dtm := Some 3; gr_moves := [("Kb6", -3)] |})
       (example_world pieces 20 ["Ka6"; "Kb6"] no_move (fun _ => None) (fun _ => 4)
          no_move (fun _ => 0%nat))).

Definition crowded_game (pieces : Z) : Lichess_Game :=
  __init__ (crowded_world pieces) "bot" [] (example_event ["Ka5"; "Kc8"] 300000)
    (example_config [ChessDB; EGTB] true).

(** ** The opening explorer *)

(** Three moves of an explorer answer; the last two share the best
    performance, the first has the best share of white wins. *)
Definition explorer_moves : list Explorer_Move :=
  [{| em_uci := "Ka6"; em_white := 4; em_draws := 1; em_black := 1; em_performance := 2400 |};
   {| em_uci := "Kb5"; em_white := 5; em_draws := 2; em_black := 3; em_performance := 2500 |};
   {| em_uci := "Kb6"; em_white := 1; em_draws := 0; em_black := 1; em_performance := 2500 |}].

(** The repeating ending with an explorer that knows eighteen games. *)
Definition explorer_world : World :=
  with_get_opening_explorer
    (fun _ _ _ _ =>
       Some {| er_white := 10; er_draws := 3; er_black := 5; er_moves := explorer_moves |})
    repeating_world.

Definition explorer_game : Lichess_Game :=
  __init__ explorer_world "bot" [] (example_event ["Ka5"; "Kc8"] 300000)
    (example_config [Explore] true).

(** ** The opening books *)

(** No entry of a book has a negative weight in the position of [self]
    (a Polyglot weight is an unsigned 16-bit number). *)
Definition weights_nonnegative (w : World) (self : Lichess_Game) : Prop :=
  forall reader entry,
    In entry (find_all w reader (board self)) -> 0 <= entry_weight entry.

(** Three entries of a book, the first without weight. *)
Definition example_entries : list Entry :=
  [{| entry_move := "Kb5"; entry_weight := 0; entry_learn := 0 |};
   {| entry_move := "Ka6"; entry_weight := 30; entry_learn := 0 |};
   {| entry_move := "Kb6"; entry_weight := 10; entry_learn := 0 |}].

(** Two books in the repeating ending: the first knows only "Kb6", which
    repeats the position, the second the three entries above. *)
Definition two_books_world : World :=
  with_find_all
    (fun reader _ =>
       match reader with
       | O => [{| entry_move := "Kb6"; entry_weight := 50; entry_learn := 0 |}]
       | _ => example_entries
       end)
    repeating_world.

Definition two_books_game : Lichess_Game :=
  __init__ two_books_world "bot" [0%nat; 1%nat] (example_event ["Ka5"; "Kc8"] 300000)
    (example_config [Book] true).

(** ** Pondering *)

Definition is_pondering_play (c : Call) : bool :=
  match c with
  | Engine_play _ _ ponder => ponder
  | _ => false
  end.

(** The searches for a move that were asked to go on pondering. *)
Definition pondering_plays (self : Lichess_Game) : list Call :=
  filter is_pondering_play (calls self).

(** Neither the flag nor the searches that ponder have changed. *)
Definition ponder_kept (self self' : Lichess_Game) : Prop :=
  ponder_enabled self' = ponder_enabled self /\
  analyses self' = analyses self /\
  pondering_plays self' = pondering_plays self.

(** Pondering that is off stays off, and nothing ponders. *)
Definition ponder_stays_off (self self' : Lichess_Game) : Prop :=
  ponder_enabled self = false -> ponder_kept self self'.

(** ** The move overhead, continued *)

(** The configuration [config] with the multiplier [m]. *)
Definition with_move_overhead_multiplier (m : Q) (config : Config) : Config :=
  {| offer_draw_enabled := offer_draw_enabled config;
     offer_draw_consecutive_moves := offer_draw_consecutive_moves config;
     offer_draw_min_game_length := offer_draw_min_game_length config;
     offer_draw_score := offer_draw_score config;
     resign_config_enabled := resign_config_enabled config;
     resign_consecutive_moves := resign_consecutive_moves config;
     resign_score := resign_score config;
     opening_books_enabled := opening_books_enabled config;
     opening_books_max_depth := opening_books_max_depth config;
     opening_books_read_learn := opening_books_read_learn config;
     opening_books_selection := opening_books_selection config;
     opening_explorer_enabled := opening_explorer_enabled config;
     opening_explorer_max_depth := opening_explorer_max_depth config;
     opening_explorer_min_time := opening_explorer_min_time config;
     opening_explorer_use_for_variants := opening_explorer_use_for_variants config;
     opening_explorer_timeout := opening_explorer_timeout config;
     opening_explorer_min_games := opening_explorer_min_games config;
     opening_explorer_only_with_wins := opening_explorer_only_with_wins config;
     opening_explorer_anti := opening_explorer_anti config;
     opening_explorer_selection := opening_explorer_selection config;
     lichess_cloud_enabled := lichess_cloud_enabled config;
     lichess_cloud_max_depth := lichess_cloud_max_depth config;
     lichess_cloud_min_time := lichess_cloud_min_time config;
     lichess_cloud_only_without_book := lichess_cloud_only_without_book config;
     lichess_cloud_timeout := lichess_cloud_timeout config;
     lichess_cloud_min_eval_depth := lichess_cloud_min_eval_depth config;
     chessdb_enabled := chessdb_enabled config;
     chessdb_max_depth := chessdb_max_depth config;
     chessdb_min_time := chessdb_min_time config;
     chessdb_timeout := chessdb_timeout config;
     chessdb_min_eval_depth := chessdb_min_eval_depth config;
     chessdb_selection := chessdb_selection config;
     gaviota_enabled := gaviota_enabled config;
     gaviota_max_pieces := gaviota_max_pieces config;
     syzygy_enabled := syzygy_enabled config;
     syzygy_instant_play := syzygy_instant_play config;
     syzygy_max_pieces := syzygy_max_pieces config;
     online_egtb_enabled := online_egtb_enabled config;
     online_egtb_min_time := online_egtb_min_time config;
     online_egtb_timeout := online_egtb_timeout config;
     engine_ponder := engine_ponder config;
     variants_enabled := variants_enabled config;
     variants_ponder := variants_ponder config;
     move_overhead_multiplier := Some m |}.


(** ** More tablebase positions *)

(** The five-men ending of the mate, asked of the Syzygy selector. *)
Definition syzygy_mate_game (drawn : nat -> nat) : Lichess_Game :=
  __init__ (mate_world drawn) "bot" [] (example_event [] 300000)
    (example_config [Syzygy] true).

(** Three winning moves in a four-men ending: the king move "Kd6" is 3
    plies from the next zeroing with the clock at 5, the pawn moves "c7"
    and "c8" reset the clock and are 20 and 30 plies from the next
    zeroing. *)
Definition preference_table (move : Move) : option Z :=
  if String.eqb move "Kd6" then Some (-3)
  else if String.eqb move "c7" then Some (-20)
  else if String.eqb move "c8" then Some (-30)
  else None.

Definition preference_clock (move : Move) : Z :=
  if String.eqb move "Kd6" then 5 else 0.

Definition preference_world : World :=
  example_world 4 60 ["Kd6"; "c7"; "c8"] no_move preference_table preference_clock
    no_move (fun _ => 0%nat).

Definition preference_game : Lichess_Game :=
  __init__ preference_world "bot" [] (example_event [] 300000)
    (example_config [Syzygy] true).




(** * Properties *)

(** ** The outcome classifier *)

(** C1. For every signed distance [d] and halfmove clock [h] the classifier
    returns +2 if [d > 0] and [d + h <= 100], +1 if [d > 0] and
    [d + h > 100], -2 if [d < 0] and [d - h >= -100], -1 if [d < 0] and
    [d - h < -100], and 0 if [d = 0]; in particular it maps (5,96) to +1,
    (5,90) to +2, (-5,96) to -1 and (0,40) to 0. *)
Theorem value_to_wdl_classes (d h : Z) :
  (d > 0 /\ d + h <= 100 -> _value_to_wdl d h = 2) /\
  (d > 0 /\ d + h > 100 -> _value_to_wdl d h = 1) /\
  (d < 0 /\ d - h >= -100 -> _value_to_wdl d h = -2) /\
  (d < 0 /\ d - h < -100 -> _value_to_wdl d h = -1) /\
  (d = 0 -> _value_to_wdl d h = 0) /\
  _value_to_wdl 5 96 = 1 /\
  _value_to_wdl 5 90 = 2 /\
  _value_to_wdl (-5) 96 = -1 /\
  _value_to_wdl 0 40 = 0.
Proof.
  unfold _value_to_wdl.
  repeat split; try reflexivity; intros;
    repeat match goal with
           | |- context [if ?b then _ else _] =>
               let E := fresh "E" in destruct b eqn:E
           end; lia.
Qed.

Lemma value_to_wdl_range (d h : Z) :
  -2 <= _value_to_wdl d h <= 2.
Proof.
  unfold _value_to_wdl.
  repeat match goal with
         | |- context [if ?b then _ else _] => destruct b
         end; lia.
Qed.

Lemma value_to_wdl_sign (d h : Z) :
  (0 < _value_to_wdl d h <-> 0 < d) /\ (_value_to_wdl d h < 0 <-> d < 0).
Proof.
  unfold _value_to_wdl.
  repeat match goal with
         | |- context [if ?b then _ else _] =>
             let E := fresh "E" in destruct b eqn:E
         end; lia.
Qed.

(** ** The best set of a tablebase scan *)

Section Scan_Facts.

Variable probe : Move -> option (Z * Z).

Lemma scan_compare_invariant seen best move wdl d :
  scan_invariant probe seen best ->
  probe move = Some (wdl, d) ->
  scan_invariant probe (seen ++ [move]) (scan_compare best move wdl d).
Proof.
  destruct best as [[moves bw] bd]. unfold scan_invariant, scan_compare.
  intros [[-> ->] | (Hne & Hin & Hle)] Hp.
  - right. simpl. split; [discriminate|]. split.
    + intros m. simpl. split.
      * intros [<- | []]. auto.
      * intros [[<- | []] _]. auto.
    + intros m w' d' [<- | []] Hm. rewrite Hp in Hm. inversion Hm. lia.
  - destruct moves as [|m0 moves0]; [congruence|].
    assert (Hseen : forall m, In m (seen ++ [move]) <-> In m seen \/ m = move).
    { intros m. rewrite in_app_iff. simpl. intuition. }
    destruct (wdl >? bw) eqn:E1; [|destruct (wdl =? bw) eqn:E2;
      [destruct (d <? bd) eqn:E3; [|destruct (d =? bd) eqn:E4]|]]; right.
    + split; [discriminate|]. split.
      * intros m. rewrite Hseen. simpl. split.
        -- intros [<- | []]. auto.
        -- intros [[Hs | ->] Hm]; auto.
           destruct (Hle _ _ _ Hs Hm); lia.
      * intros m w' d' Hm Hpm. apply Hseen in Hm. destruct Hm as [Hs | ->].
        -- destruct (Hle _ _ _ Hs Hpm); lia.
        -- rewrite Hp in Hpm. inversion Hpm. lia.
    + assert (wdl = bw) by lia. subst wdl.
      split; [discriminate|]. split.
      * intros m. rewrite Hseen. simpl. split.
        -- intros [<- | []]. auto.
        -- intros [[Hs | ->] Hm]; auto.
           destruct (Hle _ _ _ Hs Hm); lia.
      * intros m w' d' Hm Hpm. apply Hseen in Hm. destruct Hm as [Hs | ->].
        -- destruct (Hle _ _ _ Hs Hpm); lia.
        -- rewrite Hp in Hpm. inversion Hpm. lia.
    + assert (wdl = bw) by lia. assert (d = bd) by lia. subst wdl d.
      split; [destruct moves0; discriminate|]. split.
      * intros m. rewrite Hseen. rewrite in_app_iff. rewrite Hin. simpl.
        split.
        -- intros [[Hs Hm] | [<- | []]]; auto.
        -- intros [[Hs | ->] Hm]; auto.
      * intros m w' d' Hm Hpm. apply Hseen in Hm. destruct Hm as [Hs | ->].
        -- eauto.
        -- rewrite Hp in Hpm. inversion Hpm. lia.
    + assert (wdl = bw) by lia. subst wdl.
      split; [discriminate|]. split.
      * intros m. rewrite Hseen. rewrite Hin. split.
        -- intros [Hs Hm]; auto.
        -- intros [[Hs | ->] Hm]; auto.
           rewrite Hp in Hm. inversion Hm. lia.
      * intros m w' d' Hm Hpm. apply Hseen in Hm. destruct Hm as [Hs | ->].
        -- eauto.
        -- rewrite Hp in Hpm. inversion Hpm. lia.
    + split; [discriminate|]. split.
      * intros m. rewrite Hseen. rewrite Hin. split.
        -- intros [Hs Hm]; auto.
        -- intros [[Hs | ->] Hm]; auto.
           rewrite Hp in Hm. inversion Hm. lia.
      * intros m w' d' Hm Hpm. apply Hseen in Hm. destruct Hm as [Hs | ->].
        -- eauto.
        -- rewrite Hp in Hpm. inversion Hpm. lia.
Qed.

Lemma scan_loop_invariant moves : forall seen best best',
  scan_invariant probe seen best ->
  scan_loop probe moves best = Some best' ->
  scan_invariant probe (seen ++ moves) best'.
Proof.
  induction moves as [|move moves IH]; intros seen best best' Hinv Hloop.
  - simpl in Hloop. inversion Hloop. subst. now rewrite app_nil_r.
  - simpl in Hloop. destruct (probe move) as [[wdl d]|] eqn:Hp; [|discriminate].
    replace (seen ++ move :: moves) with ((seen ++ [move]) ++ moves)
      by (rewrite <- app_assoc; reflexivity).
    eapply IH; [|eassumption]. now apply scan_compare_invariant.
Qed.

(** After a scan of a position with legal moves, the best moves are the
    optimal ones, and they are of the class and at the distance kept. *)
Lemma scan_loop_optimal legal init_wdl init_d moves best_wdl best_d :
  legal <> [] ->
  scan_loop probe legal ([], init_wdl, init_d) = Some (moves, best_wdl, best_d) ->
  moves <> [] /\
  (forall move, In move moves -> probe move = Some (best_wdl, best_d)) /\
  (forall move, In move moves <-> optimal probe legal move).
Proof.
  intros Hlegal Hloop.
  apply (scan_loop_invariant legal []) in Hloop; [|left; auto].
  simpl in Hloop. destruct Hloop as [[? _] | (Hne & Hin & Hle)]; [congruence|].
  split; [assumption|]. split.
  - intros m Hm. now apply Hin in Hm.
  - intros m. rewrite Hin. unfold optimal. split.
    + intros [Hm Hp]. split; [assumption|]. exists best_wdl, best_d.
      split; [assumption|]. intros m' w' d' Hm' Hp'.
      destruct (Hle _ _ _ Hm' Hp'); lia.
    + intros [Hm (wdl & d & Hp & Hopt)]. split; [assumption|].
      destruct moves as [|m0 moves0]; [congruence|].
      assert (H0 : In m0 legal /\ probe m0 = Some (best_wdl, best_d))
        by (apply Hin; left; reflexivity).
      destruct H0 as [H0 Hp0].
      pose proof (Hle _ _ _ Hm Hp) as H1.
      pose proof (Hopt _ _ _ H0 Hp0) as H2.
      rewrite Hp. f_equal. f_equal; lia.
Qed.

Lemma scan_loop_nil init best :
  scan_loop probe [] init = Some best -> best = init.
Proof. simpl. congruence. Qed.

End Scan_Facts.

(** ** The two selectors scan as [scan_loop] does *)

Ltac unfold_monad :=
  unfold call in *; unfold bind, ret, get, modify, raise in *.

(** Splits a conjunction of closed facts and evaluates each. *)
Ltac split_all := repeat match goal with |- _ /\ _ => split end.
Ltac evaluate := vm_compute; reflexivity.

(** Runs a method whose text is in [H] to the point where it returns. *)
Ltac run_in H :=
  unfold_monad;
  repeat (cbv beta iota zeta in H;
          match type of H with
          | context [match ?x with _ => _ end] =>
              lazymatch x with
              | context [match _ with _ => _ end] => fail
              | _ => destruct x eqn:?
              end
          end);
  cbv beta iota zeta in H;
  try discriminate H.


Lemma choice_In {A} (drawn : nat) (l : list A) (x : A) :
  choice drawn l = Some x -> In x l.
Proof.
  unfold choice. destruct l as [|a l]; [discriminate|].
  apply nth_error_In.
Qed.

Lemma choice_nonempty {A} (drawn : nat) (l : list A) :
  l <> [] -> exists x, choice drawn l = Some x.
Proof.
  intros Hl. destruct l as [|a l]; [congruence|]. unfold choice.
  destruct (nth_error (a :: l) (drawn mod List.length (a :: l))) eqn:E; eauto.
  apply nth_error_None in E.
  pose proof (Nat.mod_upper_bound drawn (List.length (a :: l))) as Hb.
  simpl in *. lia.
Qed.

Section Selector_Facts.

Variable w : World.

Lemma random_choice_returns moves self move self' :
  random_choice w moves self = Returns move self' ->
  self' = self /\ In move moves.
Proof.
  unfold random_choice. destruct (choice (random w 0) moves) eqn:E;
    unfold_monad; intros H; inversion H; subst.
  split; [reflexivity|]. eapply choice_In; eassumption.
Qed.

Lemma gaviota_compare_triple best move wdl dtm :
  dtm_triple (gaviota_compare best move wdl dtm)
  = scan_compare (dtm_triple best) move wdl dtm.
Proof.
  destruct best as [moves bw bd].
  unfold gaviota_compare, scan_compare, dtm_triple. simpl.
  destruct moves; [reflexivity|].
  repeat match goal with
         | |- context [if ?b then _ else _] => destruct b
         end; reflexivity.
Qed.

Lemma gaviota_loop_scan self moves : forall best best',
  gaviota_loop w self moves best = Some best' ->
  scan_loop (gaviota_probe w self) moves (dtm_triple best) = Some (dtm_triple best').
Proof.
  induction moves as [|move moves IH]; intros best best' H;
    cbn [gaviota_loop scan_loop] in *.
  - congruence.
  - destruct (gaviota_probe w self move) as [[wdl dtm]|]; [|discriminate].
    rewrite <- gaviota_compare_triple. now apply IH.
Qed.

Lemma gaviota_scan_optimal self best :
  gaviota_scan w self = Some best ->
  legal_moves w (board self) <> [] ->
  best_moves best <> [] /\
  (forall move, In move (best_moves best) ->
     gaviota_probe w self move = Some (best_wdl best, best_dtm best)) /\
  (forall move, In move (best_moves best) <->
     optimal (gaviota_probe w self) (legal_moves w (board self)) move).
Proof.
  unfold gaviota_scan. intros H Hlegal.
  apply gaviota_loop_scan in H. unfold dtm_triple in H. simpl in H.
  eapply scan_loop_optimal; eassumption.
Qed.

Lemma gaviota_scan_nil self best :
  gaviota_scan w self = Some best ->
  legal_moves w (board self) = [] ->
  best_moves best = [].
Proof.
  unfold gaviota_scan. intros H Hl. rewrite Hl in H. simpl in H.
  inversion H. reflexivity.
Qed.

Lemma syzygy_compare_triple best move wdl dtz real_dtz :
  dtz_triple (syzygy_compare best move wdl dtz real_dtz)
  = scan_compare (dtz_triple best) move wdl dtz.
Proof.
  destruct best as [moves bw bd br].
  unfold syzygy_compare, scan_compare, dtz_triple. simpl.
  destruct moves; [reflexivity|].
  repeat match goal with
         | |- context [if ?b then _ else _] => destruct b
         end; reflexivity.
Qed.

Lemma syzygy_loop_scan self moves : forall best best',
  syzygy_loop w self moves best = Some best' ->
  scan_loop (syzygy_key w self) moves (dtz_triple best) = Some (dtz_triple best').
Proof.
  induction moves as [|move moves IH]; intros best best' H;
    cbn [syzygy_loop scan_loop] in *.
  - congruence.
  - unfold syzygy_key at 1.
    destruct (syzygy_probe w self move) as [[[wdl dtz] real_dtz]|]; [|discriminate].
    rewrite <- (syzygy_compare_triple _ _ _ _ real_dtz). now apply IH.
Qed.

Lemma syzygy_scan_optimal self best :
  syzygy_scan w self = Some best ->
  legal_moves w (board self) <> [] ->
  syzygy_best_moves best <> [] /\
  (forall move, In move (syzygy_best_moves best) ->
     syzygy_key w self move = Some (syzygy_best_wdl best, best_dtz best)) /\
  (forall move, In move (syzygy_best_moves best) <->
     optimal (syzygy_key w self) (legal_moves w (board self)) move).
Proof.
  unfold syzygy_scan. intros H Hlegal.
  apply syzygy_loop_scan in H. unfold dtz_triple in H. simpl in H.
  eapply scan_loop_optimal; eassumption.
Qed.

Lemma syzygy_scan_nil self best :
  syzygy_scan w self = Some best ->
  legal_moves w (board self) = [] ->
  syzygy_best_moves best = [].
Proof.
  unfold syzygy_scan. intros H Hl. rewrite Hl in H. simpl in H.
  inversion H. reflexivity.
Qed.

(** What a returned move of [_make_gaviota_move] tells. *)
Lemma make_gaviota_move_returns self move outcome dtm offer_draw resign self' :
  _make_gaviota_move w self = Returns (Some (move, outcome, dtm, offer_draw, resign)) self' ->
  self' = self /\
  exists best,
    gaviota_scan w self = Some best /\
    In move (best_moves best) /\
    dtm = best_dtm best /\
    ((best_wdl best = 2 /\ outcome = "win" /\ offer_draw = false /\ resign = false) \/
     (best_wdl best = 0 /\ outcome = "draw" /\ offer_draw = true /\ resign = false) \/
     (best_wdl best = -2 /\ outcome = "loss" /\ offer_draw = false /\ resign = true)).
Proof.
  unfold _make_gaviota_move. unfold_monad.
  destruct (negb (gaviota_enabled (config self))); [discriminate|].
  destruct (negb _ || _); [discriminate|].
  destruct (gaviota_scan w self) as [best|] eqn:Hscan; [|discriminate].
  destruct (best_wdl best =? 2) eqn:E2;
    [|destruct (best_wdl best =? 0) eqn:E0;
      [|destruct (best_wdl best =? -2) eqn:E3; [|discriminate]]];
    (destruct (random_choice w (best_moves best) self) as [m s|] eqn:Hc; [|discriminate]);
    apply random_choice_returns in Hc; destruct Hc as [-> Hin];
    intros H; inversion H; subst; split; try reflexivity;
    exists best; repeat split; auto.
  - left. repeat split; auto. lia.
  - right. left. repeat split; auto. lia.
  - right. right. repeat split; auto. lia.
Qed.

(** What a returned move of [_make_syzygy_move] tells. *)
Lemma make_syzygy_move_returns self move outcome dtz offer_draw resign self' :
  _make_syzygy_move w self = Returns (Some (move, outcome, dtz, offer_draw, resign)) self' ->
  self' = self /\
  exists best,
    syzygy_scan w self = Some best /\
    In move (syzygy_best_moves best) /\
    dtz = best_real_dtz best /\
    ((syzygy_best_wdl best = 2 /\ outcome = "win" /\ offer_draw = false /\ resign = false) \/
     (syzygy_best_wdl best = 1 /\ outcome = "cursed win"
      /\ offer_draw = false /\ resign = false) \/
     (syzygy_best_wdl best = 0 /\ outcome = "draw" /\ offer_draw = true /\ resign = false) \/
     (syzygy_best_wdl best = -1 /\ outcome = "blessed loss"
      /\ offer_draw = true /\ resign = false) \/
     (syzygy_best_wdl best <> 2 /\ syzygy_best_wdl best <> 1 /\ syzygy_best_wdl best <> 0
      /\ syzygy_best_wdl best <> -1
      /\ outcome = "loss" /\ offer_draw = false /\ resign = true)).
Proof.
  unfold _make_syzygy_move. unfold_monad.
  destruct (negb (syzygy_enabled (config self) && _)); [discriminate|].
  destruct (negb _ || _); [discriminate|].
  destruct (syzygy_scan w self) as [best|] eqn:Hscan; [|discriminate].
  destruct (syzygy_best_wdl best =? 2) eqn:E2;
    [|destruct (syzygy_best_wdl best =? 1) eqn:E1;
      [|destruct (syzygy_best_wdl best =? 0) eqn:E0;
        [|destruct (syzygy_best_wdl best =? -1) eqn:E3]]];
    (destruct (random_choice w (syzygy_best_moves best) self) as [m s|] eqn:Hc;
     [|discriminate]);
    apply random_choice_returns in Hc; destruct Hc as [-> Hin];
    intros H; inversion H; subst; split; try reflexivity;
    exists best; repeat split; auto.
  - left. repeat split; auto. lia.
  - right. left. repeat split; auto. lia.
  - right. right. left. repeat split; auto. lia.
  - right. right. right. left. repeat split; auto. lia.
  - right. right. right. right. repeat split; auto; lia.
Qed.

End Selector_Facts.

(** ** The tablebase selectors *)

Lemma gaviota_best_set w self best :
  gaviota_scan w self = Some best ->
  forall move, In move (best_moves best) <->
    optimal (gaviota_probe w self) (legal_moves w (board self)) move.
Proof.
  intros H move. destruct (legal_moves w (board self)) eqn:Hl.
  - rewrite (gaviota_scan_nil w self best H Hl). unfold optimal. simpl. tauto.
  - rewrite <- Hl. apply gaviota_scan_optimal; [assumption|]. congruence.
Qed.

Lemma syzygy_best_set w self best :
  syzygy_scan w self = Some best ->
  forall move, In move (syzygy_best_moves best) <->
    optimal (syzygy_key w self) (legal_moves w (board self)) move.
Proof.
  intros H move. destruct (legal_moves w (board self)) eqn:Hl.
  - rewrite (syzygy_scan_nil w self best H Hl). unfold optimal. simpl. tauto.
  - rewrite <- Hl. apply syzygy_scan_optimal; [assumption|]. congruence.
Qed.

Lemma mate_game_choice (drawn : nat -> nat) :
  exists move,
    (move = "Kb6" \/ move = "Kb7") /\
    _make_gaviota_move (mate_world drawn) (mate_game drawn)
    = Returns (Some (move, "win", 3, false, false)) (mate_game drawn).
Proof.
  assert (Hscan : gaviota_scan (mate_world drawn) (mate_game drawn)
                  = Some {| best_moves := ["Kb6"; "Kb7"]; best_wdl := 2; best_dtm := 3 |})
    by reflexivity.
  unfold _make_gaviota_move, bind, get.
  change (gaviota_enabled (config (mate_game drawn))) with true.
  change (popcount_occupied (mate_world drawn) (board (mate_game drawn))) with 5.
  change (gaviota_max_pieces (config (mate_game drawn))) with 5.
  change (uci_variant (mate_world drawn) (board (mate_game drawn))) with "chess".
  rewrite Hscan. cbn -[mate_game mate_world].
  unfold random_choice, choice.
  change (random (mate_world drawn) 0) with (drawn 0%nat).
  change (List.length ["Kb6"; "Kb7"]) with 2%nat.
  assert (Hm : (drawn 0%nat mod 2 = 0 \/ drawn 0%nat mod 2 = 1)%nat).
  { pose proof (Nat.mod_upper_bound (drawn 0%nat) 2). lia. }
  destruct Hm as [E | E]; rewrite E.
  - exists "Kb6". split; [auto|]. reflexivity.
  - exists "Kb7". split; [auto|]. reflexivity.
Qed.

Lemma gaviota_loop_probes w self moves : forall best best',
  gaviota_loop w self moves best = Some best' ->
  forall move, In move moves -> exists wdl d, gaviota_probe w self move = Some (wdl, d).
Proof.
  induction moves as [|m moves IH]; intros best best' H move Hin; [inversion Hin|].
  cbn [gaviota_loop] in H.
  destruct (gaviota_probe w self m) as [[wdl d]|] eqn:Hp; [|discriminate].
  destruct Hin as [<- | Hin]; [eauto | eapply IH; eassumption].
Qed.

Lemma gaviota_loop_returns w self moves : forall best,
  (forall move, In move moves -> exists wdl d, gaviota_probe w self move = Some (wdl, d)) ->
  exists best', gaviota_loop w self moves best = Some best'.
Proof.
  induction moves as [|m moves IH]; intros best Hall; cbn [gaviota_loop]; [eauto|].
  destruct (Hall m (or_introl eq_refl)) as (wdl & d & ->).
  apply IH. intros move Hin. apply Hall. now right.
Qed.


Lemma syzygy_loop_returns w self moves : forall best,
  (forall move, In move moves -> probe_dtz w (push (board self) move) <> None) ->
  exists best', syzygy_loop w self moves best = Some best'.
Proof.
  induction moves as [|m moves IH]; intros best Hall; cbn [syzygy_loop]; [eauto|].
  destruct (syzygy_probe w self m) as [[[wdl dtz] real]|] eqn:Hp.
  - apply IH. intros move Hin. apply Hall. now right.
  - exfalso. unfold syzygy_probe in Hp.
    destruct (probe_dtz w (push (board self) m)) eqn:E; [discriminate Hp|].
    exact (Hall m (or_introl eq_refl) E).
Qed.

(** With its gate open, legal moves and no table missing, the Syzygy
    selector returns a move, one of the optimal ones, with the real
    distance the scan kept. *)
Lemma make_syzygy_move_answers w self :
  syzygy_eligible w self = true ->
  legal_moves w (board self) <> [] ->
  (forall move, In move (legal_moves w (board self)) ->
     probe_dtz w (push (board self) move) <> None) ->
  exists best move outcome offer_draw resign,
    syzygy_scan w self = Some best /\
    _make_syzygy_move w self
    = Returns (Some (move, outcome, best_real_dtz best, offer_draw, resign)) self /\
    optimal (syzygy_key w self) (legal_moves w (board self)) move.
Proof.
  intros He Hl Hall. unfold syzygy_eligible in He.
  apply andb_prop in He. destruct He as [He Hvariant].
  apply andb_prop in He. destruct He as [Hon Hpieces].
  destruct (syzygy_loop_returns w self (legal_moves w (board self))
              {| syzygy_best_moves := []; syzygy_best_wdl := -2;
                 best_dtz := 1000000; best_real_dtz := 1000000 |} Hall)
    as [best Hscan].
  fold (syzygy_scan w self) in Hscan.
  destruct (syzygy_scan_optimal w self best Hscan Hl) as (Hne & _ & Hopt).
  destruct (choice_nonempty (random w 0) (syzygy_best_moves best) Hne) as [move Hc].
  assert (Hbest : optimal (syzygy_key w self) (legal_moves w (board self)) move).
  { apply Hopt. eapply choice_In. exact Hc. }
  exists best, move.
  unfold _make_syzygy_move, bind, get. cbv zeta.
  rewrite Hon, Hpieces, Hvariant. cbn [negb orb]. rewrite Hscan.
  unfold random_choice. rewrite Hc. unfold ret.
  repeat match goal with
         | |- context [if ?b then _ else _] => destruct b
         end;
    do 3 eexists; (split; [reflexivity|]); (split; [reflexivity|]); exact Hbest.
Qed.

(** So does the Gaviota selector when the optimal moves are of class +2,
    0 or -2. *)
Lemma make_gaviota_move_answers w self :
  gaviota_eligible w self = true ->
  legal_moves w (board self) <> [] ->
  (forall move, In move (legal_moves w (board self)) ->
     gaviota_probe w self move <> None) ->
  (forall move wdl d,
     optimal (gaviota_probe w self) (legal_moves w (board self)) move ->
     gaviota_probe w self move = Some (wdl, d) ->
     wdl = 2 \/ wdl = 0 \/ wdl = -2) ->
  exists move outcome dtm offer_draw resign,
    _make_gaviota_move w self
    = Returns (Some (move, outcome, dtm, offer_draw, resign)) self /\
    optimal (gaviota_probe w self) (legal_moves w (board self)) move.
Proof.
  intros He Hl Hall Hclass. unfold gaviota_eligible in He.
  apply andb_prop in He. destruct He as [He Hvariant].
  apply andb_prop in He. destruct He as [Hon Hpieces].
  destruct (gaviota_loop_returns w self (legal_moves w (board self))
              {| best_moves := []; best_wdl := -2; best_dtm := 1000000 |})
    as [best Hscan].
  { intros move Hin. specialize (Hall move Hin).
    destruct (gaviota_probe w self move) as [[wdl d]|]; [eauto | congruence]. }
  fold (gaviota_scan w self) in Hscan.
  destruct (gaviota_scan_optimal w self best Hscan Hl) as (Hne & Hkey & Hopt).
  destruct (choice_nonempty (random w 0) (best_moves best) Hne) as [move Hc].
  assert (Hin : In move (best_moves best)) by (eapply choice_In; exact Hc).
  assert (Hbest : optimal (gaviota_probe w self) (legal_moves w (board self)) move)
    by now apply Hopt.
  pose proof (Hclass move _ _ Hbest (Hkey move Hin)) as Hwdl.
  exists move.
  unfold _make_gaviota_move, bind, get. cbv zeta.
  rewrite Hon, Hpieces, Hvariant. cbn [negb orb]. rewrite Hscan.
  unfold random_choice. rewrite Hc. unfold ret.
  destruct Hwdl as [-> | [-> | ->]]; cbn;
    do 4 eexists; (split; [reflexivity|]); exact Hbest.
Qed.

Lemma syzygy_mate_game_choice (drawn : nat -> nat) :
  exists move,
    (move = "Kb6" \/ move = "Kb7") /\
    _make_syzygy_move (mate_world drawn) (syzygy_mate_game drawn)
    = Returns (Some (move, "win", 3, false, false)) (syzygy_mate_game drawn).
Proof.
  assert (Hscan : syzygy_scan (mate_world drawn) (syzygy_mate_game drawn)
                  = Some {| syzygy_best_moves := ["Kb6"; "Kb7"]; syzygy_best_wdl := 2;
                            best_dtz := 3; best_real_dtz := 3 |})
    by reflexivity.
  unfold _make_syzygy_move, bind, get.
  change (syzygy_enabled (config (syzygy_mate_game drawn))) with true.
  change (syzygy_instant_play (config (syzygy_mate_game drawn))) with true.
  change (popcount_occupied (mate_world drawn) (board (syzygy_mate_game drawn))) with 5.
  change (syzygy_max_pieces (config (syzygy_mate_game drawn))) with 7.
  change (uci_variant (mate_world drawn) (board (syzygy_mate_game drawn))) with "chess".
  rewrite Hscan. cbn -[syzygy_mate_game mate_world].
  unfold random_choice, choice.
  change (random (mate_world drawn) 0) with (drawn 0%nat).
  change (List.length ["Kb6"; "Kb7"]) with 2%nat.
  assert (Hm : (drawn 0%nat mod 2 = 0 \/ drawn 0%nat mod 2 = 1)%nat).
  { pose proof (Nat.mod_upper_bound (drawn 0%nat) 2). lia. }
  destruct Hm as [E | E]; rewrite E.
  - exists "Kb6". split; [auto|]. reflexivity.
  - exists "Kb7". split; [auto|]. reflexivity.
Qed.

(** C5. After the scan of all legal moves the best moves of either selector
    are exactly the legal moves of maximal class whose comparison distance
    is minimal within that class (ties in the distance accumulate), and a
    move the selector returns is one of them.  A selector whose gate is
    open does return one when the position has legal moves and no table
    is missing (the Gaviota selector when the best class is +2, 0 or -2).
    With the legal moves "Rh8" (class +1, distance 1), "Kb6" and "Kb7"
    (class +2, distance 3) and "Ka6" (class +2, distance 7), whatever
    number is drawn either selector returns "Kb6" or "Kb7". *)
Theorem selectors_choose_among_the_best :
  (forall w self best,
     gaviota_scan w self = Some best ->
     forall move, In move (best_moves best) <->
       optimal (gaviota_probe w self) (legal_moves w (board self)) move) /\
  (forall w self best,
     syzygy_scan w self = Some best ->
     forall move, In move (syzygy_best_moves best) <->
       optimal (syzygy_key w self) (legal_moves w (board self)) move) /\
  (forall w self move outcome dtm offer_draw resign self',
     _make_gaviota_move w self
     = Returns (Some (move, outcome, dtm, offer_draw, resign)) self' ->
     optimal (gaviota_probe w self) (legal_moves w (board self)) move) /\
  (forall w self move outcome dtz offer_draw resign self',
     _make_syzygy_move w self
     = Returns (Some (move, outcome, dtz, offer_draw, resign)) self' ->
     optimal (syzygy_key w self) (legal_moves w (board self)) move) /\
  (forall drawn,
     map (gaviota_probe (mate_world drawn) (mate_game drawn))
       (legal_moves (mate_world drawn) (board (mate_game drawn)))
     = [Some (1, 1); Some (2, 3); Some (2, 7); Some (2, 3)] /\
     exists move,
       (move = "Kb6" \/ move = "Kb7") /\
       _make_gaviota_move (mate_world drawn) (mate_game drawn)
       = Returns (Some (move, "win", 3, false, false)) (mate_game drawn)) /\
  (forall w self,
     gaviota_eligible w self = true ->
     legal_moves w (board self) <> [] ->
     (forall move, In move (legal_moves w (board self)) ->
        gaviota_probe w self move <> None) ->
     (forall move wdl d,
        optimal (gaviota_probe w self) (legal_moves w (board self)) move ->
        gaviota_probe w self move = Some (wdl, d) ->
        wdl = 2 \/ wdl = 0 \/ wdl = -2) ->
     exists move outcome dtm offer_draw resign,
       _make_gaviota_move w self
       = Returns (Some (move, outcome, dtm, offer_draw, resign)) self /\
       optimal (gaviota_probe w self) (legal_moves w (board self)) move) /\
  (forall w self,
     syzygy_eligible w self = true ->
     legal_moves w (board self) <> [] ->
     (forall move, In move (legal_moves w (board self)) ->
        probe_dtz w (push (board self) move) <> None) ->
     exists move outcome dtz offer_draw resign,
       _make_syzygy_move w self
       = Returns (Some (move, outcome, dtz, offer_draw, resign)) self /\
       optimal (syzygy_key w self) (legal_moves w (board self)) move) /\
  (forall drawn,
     map (syzygy_key (mate_world drawn) (syzygy_mate_game drawn))
       (legal_moves (mate_world drawn) (board (syzygy_mate_game drawn)))
     = [Some (1, 1); Some (2, 3); Some (2, 7); Some (2, 3)] /\
     exists move,
       (move = "Kb6" \/ move = "Kb7") /\
       _make_syzygy_move (mate_world drawn) (syzygy_mate_game drawn)
       = Returns (Some (move, "win", 3, false, false)) (syzygy_mate_game drawn)).
Proof.
  split; [exact gaviota_best_set|]. split; [exact syzygy_best_set|].
  split; [|split; [|split; [|split; [|split]]]].
  - intros w self move outcome dtm od rs self' H.
    apply make_gaviota_move_returns in H.
    destruct H as (_ & best & Hscan & Hin & _).
    now apply (gaviota_best_set w self best Hscan).
  - intros w self move outcome dtz od rs self' H.
    apply make_syzygy_move_returns in H.
    destruct H as (_ & best & Hscan & Hin & _).
    now apply (syzygy_best_set w self best Hscan).
  - intros drawn. split; [reflexivity|]. apply mate_game_choice.
  - intros w self. apply make_gaviota_move_answers.
  - intros w self He Hl Hall.
    destruct (make_syzygy_move_answers w self He Hl Hall)
      as (best & move & outcome & od & rs & _ & Hm & Hopt).
    exists move, outcome, (best_real_dtz best), od, rs. auto.
  - intros drawn. split; [reflexivity|]. apply syzygy_mate_game_choice.
Qed.

Lemma selectors_choose_among_the_best_witness :
  optimal (gaviota_probe (mate_world (fun _ => 1%nat)) (mate_game (fun _ => 1%nat)))
    (legal_moves (mate_world (fun _ => 1%nat)) (board (mate_game (fun _ => 1%nat))))
    "Kb7" /\
  exists move outcome dtz offer_draw resign,
    _make_syzygy_move (mate_world (fun _ => 1%nat)) (syzygy_mate_game (fun _ => 1%nat))
    = Returns (Some (move, outcome, dtz, offer_draw, resign))
        (syzygy_mate_game (fun _ => 1%nat)) /\
    optimal (syzygy_key (mate_world (fun _ => 1%nat)) (syzygy_mate_game (fun _ => 1%nat)))
      (legal_moves (mate_world (fun _ => 1%nat))
         (board (syzygy_mate_game (fun _ => 1%nat))))
      move.
Proof.
  split.
  - apply (proj1 (proj2 (proj2 selectors_choose_among_the_best))
             (mate_world (fun _ => 1%nat)) (mate_game (fun _ => 1%nat))
             "Kb7" "win" 3 false false (mate_game (fun _ => 1%nat))).
    reflexivity.
  - apply (proj1 (proj2 (proj2 (proj2 (proj2 (proj2 (proj2
             selectors_choose_among_the_best))))))
             (mate_world (fun _ => 1%nat)) (syzygy_mate_game (fun _ => 1%nat))).
    + reflexivity.
    + discriminate.
    + intros move [<- | [<- | [<- | [<- | []]]]]; discriminate.
Defined.

(** ** The two distances of the Syzygy selector *)

Section Syzygy_Distances.

Variable w : World.
Variable self : Lichess_Game.


Lemma syzygy_probe_inv move wdl dtz real_dtz :
  syzygy_probe w self move = Some (wdl, dtz, real_dtz) ->
  exists probed,
    probe_dtz w (push (board self) move) = Some probed /\
    real_dtz = - probed /\
    wdl = _value_to_wdl real_dtz (halfmove_clock w (push (board self) move)).
Proof.
  unfold syzygy_probe.
  destruct (probe_dtz w (push (board self) move)) as [probed|]; [|discriminate].
  intros H. inversion H. exists probed. auto.
Qed.






End Syzygy_Distances.





(** ** Draw and resignation signals of the tablebase sources *)

Lemma gaviota_probe_range w self move wdl d :
  gaviota_probe w self move = Some (wdl, d) -> -2 <= wdl <= 2.
Proof.
  unfold gaviota_probe.
  destruct (is_checkmate w (push (board self) move)).
  - intros H. inversion H. lia.
  - destruct (probe_dtm w (push (board self) move)); [|discriminate].
    intros H. inversion H. apply value_to_wdl_range.
Qed.

Lemma syzygy_key_range w self move wdl d :
  syzygy_key w self move = Some (wdl, d) -> -2 <= wdl <= 2.
Proof.
  unfold syzygy_key.
  destruct (syzygy_probe w self move) as [[[wdl' dtz] real]|] eqn:Hp; [|discriminate].
  intros H. inversion H. subst.
  destruct (syzygy_probe_inv w self _ _ _ _ Hp) as (p & _ & _ & ->).
  apply value_to_wdl_range.
Qed.

Lemma make_egtb_move_returns w self uci_move outcome dtz dtm offer_draw resign self' :
  _make_egtb_move w self
  = Returns (Some (uci_move, outcome, dtz, dtm, offer_draw, resign)) self' ->
  offer_draw = one_of outcome ["draw"; "blessed loss"] /\
  resign = String.eqb outcome "loss" /\
  self' = set_calls (calls self ++ [Egtb_query (board self)]) self /\
  exists response first_dtz rest,
    get_egtb w (board self)
      (if String.eqb (uci_variant w (board self)) "chess" then "standard"
       else uci_variant w (board self))
      (online_egtb_timeout (config self)) = Some response /\
    gr_moves response = (uci_move, first_dtz) :: rest /\
    outcome = gr_category response.
Proof.
  unfold _make_egtb_move, _reduce_own_time. unfold_monad.
  destruct (negb (online_egtb_enabled (config self))); [discriminate|].
  destruct (negb _ || negb _ || _); [discriminate|].
  cbn [set_calls config board uci_variant].
  destruct (get_egtb w _ _ _) as [response|] eqn:Hr.
  - destruct (gr_moves response) as [|[uci d] rest] eqn:Hm; [discriminate|].
    intros H. inversion H. subst.
    split; [reflexivity|]. split; [reflexivity|]. split; [reflexivity|].
    exists response, d, rest. auto.
  - simpl. destruct (is_white self); discriminate.
Qed.

(** C2, as the code has it. A move returned by a tablebase source comes
    with these flags: for class 0 (draw) an offer of a draw and no
    resignation; for class -2 (loss) a resignation and no offer; for
    classes +2 and +1 neither; and for class -1 (blessed loss) an offer of
    a draw and no resignation, from the Syzygy selector and from the
    online tablebase, while the Gaviota selector returns moves of classes
    +2, 0 and -2 only.  The class is that of the returned move; the online
    tablebase names it by its category. *)
Theorem tablebase_flags :
  (forall w self move outcome dtm offer_draw resign self',
     _make_gaviota_move w self
     = Returns (Some (move, outcome, dtm, offer_draw, resign)) self' ->
     exists wdl d,
       gaviota_probe w self move = Some (wdl, d) /\
       ((wdl = 2 /\ offer_draw = false /\ resign = false) \/
        (wdl = 0 /\ offer_draw = true /\ resign = false) \/
        (wdl = -2 /\ offer_draw = false /\ resign = true))) /\
  (forall w self move outcome dtz offer_draw resign self',
     _make_syzygy_move w self
     = Returns (Some (move, outcome, dtz, offer_draw, resign)) self' ->
     exists wdl d,
       syzygy_key w self move = Some (wdl, d) /\
       (((wdl = 2 \/ wdl = 1) /\ offer_draw = false /\ resign = false) \/
        ((wdl = 0 \/ wdl = -1) /\ offer_draw = true /\ resign = false) \/
        (wdl = -2 /\ offer_draw = false /\ resign = true))) /\
  (forall w self uci_move outcome dtz dtm offer_draw resign self',
     _make_egtb_move w self
     = Returns (Some (uci_move, outcome, dtz, dtm, offer_draw, resign)) self' ->
     ((outcome = "draw" \/ outcome = "blessed loss") /\
      offer_draw = true /\ resign = false) \/
     (outcome = "loss" /\ offer_draw = false /\ resign = true) \/
     (outcome <> "draw" /\ outcome <> "blessed loss" /\ outcome <> "loss" /\
      offer_draw = false /\ resign = false)).
Proof.
  split; [|split].
  - intros w self move outcome dtm od rs self' H.
    apply make_gaviota_move_returns in H.
    destruct H as (_ & best & Hscan & Hin & _ & Hflags).
    assert (Hlegal : legal_moves w (board self) <> []).
    { intros Hl. rewrite (gaviota_scan_nil w self best Hscan Hl) in Hin. inversion Hin. }
    destruct (gaviota_scan_optimal w self best Hscan Hlegal) as (_ & Hkey & _).
    exists (best_wdl best), (best_dtm best). split; [now apply Hkey|].
    intuition.
  - intros w self move outcome dtz od rs self' H.
    apply make_syzygy_move_returns in H.
    destruct H as (_ & best & Hscan & Hin & _ & Hflags).
    assert (Hlegal : legal_moves w (board self) <> []).
    { intros Hl. rewrite (syzygy_scan_nil w self best Hscan Hl) in Hin. inversion Hin. }
    destruct (syzygy_scan_optimal w self best Hscan Hlegal) as (_ & Hkey & _).
    exists (syzygy_best_wdl best), (best_dtz best). split; [now apply Hkey|].
    pose proof (syzygy_key_range _ _ _ _ _ (Hkey _ Hin)) as Hrange.
    destruct Hflags as [F | [F | [F | [F | F]]]]; try (intuition; fail).
    right. right. intuition. lia.
  - intros w self uci outcome dtz dtm od rs self' H.
    apply make_egtb_move_returns in H. destruct H as (-> & -> & _).
    unfold one_of. simpl.
    destruct (String.eqb_spec outcome "draw") as [-> | N1]; [left; auto|].
    destruct (String.eqb_spec outcome "blessed loss") as [-> | N2]; [left; auto|].
    destruct (String.eqb_spec outcome "loss") as [-> | N3]; [right; left; auto|].
    right. right. auto.
Qed.

Lemma tablebase_flags_witness :
  exists wdl d,
    syzygy_key blessed_world (blessed_game [Syzygy]) "Kg1" = Some (wdl, d) /\
    (((wdl = 2 \/ wdl = 1) /\ true = false /\ false = false) \/
     ((wdl = 0 \/ wdl = -1) /\ true = true /\ false = false) \/
     (wdl = -2 /\ true = false /\ false = true)).
Proof.
  apply (proj1 (proj2 tablebase_flags) blessed_world (blessed_game [Syzygy])
           "Kg1" "blessed loss" (-5) true false (blessed_game [Syzygy])).
  reflexivity.
Defined.

(** C2 as the specification states it fails: the Syzygy selector returns
    the blessed loss "Kg1" (class -1) with an offer of a draw, and so does
    the online tablebase, where the stated flags are neither. *)
Lemma blessed_loss_offers_draw :
  syzygy_key blessed_world (blessed_game [Syzygy]) "Kg1" = Some (-1, -5) /\
  _make_syzygy_move blessed_world (blessed_game [Syzygy])
  = Returns (Some ("Kg1", "blessed loss", -5, true, false)) (blessed_game [Syzygy]) /\
  (exists self',
     _make_egtb_move blessed_online_world (blessed_game [EGTB])
     = Returns (Some ("Kg1", "blessed loss", -5, None, true, false)) self') /\
  stated_flags (-1) = (false, false) /\
  ~ (forall w self move outcome dtz offer_draw resign self' wdl d,
       _make_syzygy_move w self
       = Returns (Some (move, outcome, dtz, offer_draw, resign)) self' ->
       syzygy_key w self move = Some (wdl, d) ->
       (offer_draw, resign) = stated_flags wdl).
Proof.
  split; [evaluate|]. split; [evaluate|]. split.
  { exists (set_calls [Egtb_query (board (blessed_game [EGTB]))] (blessed_game [EGTB])).
    evaluate. }
  split; [evaluate|].
  intros H.
  specialize (H blessed_world (blessed_game [Syzygy]) "Kg1" "blessed loss" (-5)
                true false (blessed_game [Syzygy]) (-1) (-5) eq_refl eq_refl).
  discriminate H.
Qed.

(** ** What the methods leave as it was *)

Section Keeps.

Variable R : Lichess_Game -> Lichess_Game -> Prop.
Hypothesis R_refl : forall self, R self self.
Hypothesis R_trans : forall a b c, R a b -> R b c -> R a c.

Lemma keeps_ret {A} (a : A) : keeps R (ret a).
Proof. intros self a' self' H. inversion H. subst. apply R_refl. Qed.

Lemma keeps_raise {A} (e : Exception) : keeps R (@raise A e).
Proof. intros self a self' H. discriminate H. Qed.

Lemma keeps_get : keeps R get.
Proof. intros self a self' H. inversion H. subst. apply R_refl. Qed.

Lemma keeps_modify f : (forall self, R self (f self)) -> keeps R (modify f).
Proof. intros Hf self a self' H. inversion H. subst. apply Hf. Qed.

Lemma keeps_bind {A B} (m : M A) (k : A -> M B) :
  keeps R m -> (forall a, keeps R (k a)) -> keeps R (bind m k).
Proof.
  intros Hm Hk self b self' H. unfold bind in H.
  destruct (m self) as [a s|] eqn:E; [|discriminate].
  eapply R_trans; [eapply Hm; eassumption | eapply Hk; eassumption].
Qed.

End Keeps.

(** One step through the text of a method: [refl] and [trans] prove the
    relation reflexive and transitive, [assign] proves it of an
    assignment. *)
Ltac keeps_step refl trans assign :=
  cbv beta zeta;
  first
    [ apply (keeps_ret _ refl)
    | apply keeps_raise
    | apply (keeps_get _ refl)
    | apply keeps_modify; intros; assign
    | apply (keeps_bind _ trans); [|intros ?]
    | match goal with
      | |- keeps _ (if ?b then _ else _) => destruct b
      | |- keeps _ (match ?x with _ => _ end) => destruct x
      end ].

Ltac keeps_steps refl trans assign :=
  unfold call, _reduce_own_time; repeat keeps_step refl trans assign.

Lemma same_game_refl self : same_game self self.
Proof. unfold same_game. tauto. Qed.

Lemma same_game_trans a b c : same_game a b -> same_game b c -> same_game a c.
Proof. unfold same_game. intuition congruence. Qed.

Lemma filter_snoc_false {A} (f : A -> bool) (l : list A) (x : A) :
  f x = false -> filter f (l ++ [x]) = filter f l.
Proof.
  intros H. rewrite filter_app. simpl. rewrite H. apply app_nil_r.
Qed.

Lemma filter_snoc_true {A} (f : A -> bool) (l : list A) (x : A) :
  f x = true -> filter f (l ++ [x]) = filter f l ++ [x].
Proof.
  intros H. rewrite filter_app. simpl. now rewrite H.
Qed.

Ltac same_game_assign :=
  unfold same_game, analyses; simpl;
  repeat split; try reflexivity;
  apply filter_snoc_false; reflexivity.

Ltac same_game_steps :=
  keeps_steps same_game_refl same_game_trans same_game_assign.

Section Sources_Keep_The_Game.

Variable w : World.

Lemma select_entry_keeps selection drawn first others :
  keeps same_game (select_entry selection drawn first others).
Proof. unfold select_entry. same_game_steps. Qed.

Lemma book_readers_loop_keeps readers : keeps same_game (book_readers_loop w readers).
Proof.
  induction readers as [|book_reader readers IH]; cbn [book_readers_loop].
  - same_game_steps.
  - apply (keeps_bind _ same_game_trans); [apply (keeps_get _ same_game_refl)|].
    intros self. apply (keeps_bind _ same_game_trans); [same_game_steps|]. intros _.
    destruct (find_all w book_reader (board self)); [exact IH|].
    apply (keeps_bind _ same_game_trans); [apply select_entry_keeps|]. intros entry.
    destruct (negb _); [|exact IH]. same_game_steps.
Qed.

Lemma make_book_move_keeps : keeps same_game (_make_book_move w).
Proof.
  unfold _make_book_move.
  apply (keeps_bind _ same_game_trans); [apply (keeps_get _ same_game_refl)|].
  intros self. cbv zeta. destruct (negb _); [same_game_steps|].
  destruct (_ || _); [same_game_steps|].
  apply (keeps_bind _ same_game_trans); [apply book_readers_loop_keeps|].
  intros response. same_game_steps.
Qed.

Lemma get_opening_explorer_top_move_keeps self moves :
  keeps same_game (_get_opening_explorer_top_move w self moves).
Proof. unfold _get_opening_explorer_top_move. same_game_steps. Qed.

Lemma make_opening_explorer_move_keeps :
  keeps same_game (_make_opening_explorer_move w).
Proof.
  unfold _make_opening_explorer_move.
  apply (keeps_bind _ same_game_trans); [apply (keeps_get _ same_game_refl)|].
  intros self. cbv zeta. destruct (negb _); [same_game_steps|].
  destruct (_ || _ || _ || _); [same_game_steps|].
  apply (keeps_bind _ same_game_trans); [same_game_steps|]. intros _.
  destruct (get_opening_explorer w _ _ _ _); [|same_game_steps].
  apply (keeps_bind _ same_game_trans); [|intros found; same_game_steps].
  destruct (_ >=? _); [|same_game_steps].
  apply (keeps_bind _ same_game_trans);
    [apply get_opening_explorer_top_move_keeps|].
  intros top_move. same_game_steps.
Qed.

Lemma make_cloud_move_keeps : keeps same_game (_make_cloud_move w).
Proof. unfold _make_cloud_move. same_game_steps. Qed.

Lemma make_chessdb_move_keeps : keeps same_game (_make_chessdb_move w).
Proof. unfold _make_chessdb_move. same_game_steps. Qed.

Lemma random_choice_keeps moves : keeps same_game (random_choice w moves).
Proof. unfold random_choice. same_game_steps. Qed.

Lemma make_gaviota_move_keeps : keeps same_game (_make_gaviota_move w).
Proof. unfold _make_gaviota_move, random_choice. same_game_steps. Qed.

Lemma make_syzygy_move_keeps : keeps same_game (_make_syzygy_move w).
Proof. unfold _make_syzygy_move, random_choice. same_game_steps. Qed.

Lemma make_egtb_move_keeps : keeps same_game (_make_egtb_move w).
Proof. unfold _make_egtb_move. same_game_steps. Qed.

End Sources_Keep_The_Game.

(** ** The decision cycle, branch by branch *)

Section Decision.

Variable w : World.

Lemma decided_after self asked response self' :
  same_game self asked -> decided w asked response self' ->
  decided w self response self'.
Proof.
  intros Hs (source & s0 & s1 & move & od & rs & H0 & Ha & Hc).
  exists source, s0, s1, move, od, rs. split; [|auto].
  eapply same_game_trans; eassumption.
Qed.

Lemma else_engine_decided self response self' :
  else_engine w self = Returns response self' -> decided w self response self'.
Proof.
  unfold else_engine, bind. intros H.
  destruct (_make_engine_move w self) as [[move info] s1|] eqn:E; [|discriminate].
  exists Engine, self, s1, move, (_is_drawish w s1), (_is_resignable s1).
  split; [apply same_game_refl|]. split; [exists info; auto|]. exact H.
Qed.

Lemma elif_egtb_decided self response self' :
  elif_egtb w self = Returns response self' -> decided w self response self'.
Proof.
  unfold elif_egtb, bind. intros H.
  destruct (_make_egtb_move w self) as [[[[[[[move outcome] dtz] dtm] od] rs]|] s1|] eqn:E;
    [| |discriminate].
  - exists EGTB, self, s1, move, od, rs.
    split; [apply same_game_refl|]. split; [exists outcome, dtz, dtm; exact E|]. exact H.
  - apply (decided_after self s1); [eapply make_egtb_move_keeps; eassumption|].
    now apply else_engine_decided.
Qed.

Lemma elif_syzygy_decided self response self' :
  elif_syzygy w self = Returns response self' -> decided w self response self'.
Proof.
  unfold elif_syzygy, bind at 1. intros H.
  destruct (_make_syzygy_move w self) as [[[[[[move outcome] dtz] od] rs]|] s1|] eqn:E;
    [| |discriminate].
  - exists Syzygy, self, s1, move, od, rs.
    split; [apply same_game_refl|]. split; [exists outcome, dtz; exact E|]. exact H.
  - apply (decided_after self s1); [eapply make_syzygy_move_keeps; eassumption|].
    now apply elif_egtb_decided.
Qed.

Lemma elif_gaviota_decided self response self' :
  elif_gaviota w self = Returns response self' -> decided w self response self'.
Proof.
  unfold elif_gaviota, bind at 1. intros H.
  destruct (_make_gaviota_move w self) as [[[[[[move outcome] dtm] od] rs]|] s1|] eqn:E;
    [| |discriminate].
  - exists Gaviota, self, s1, move, od, rs.
    split; [apply same_game_refl|]. split; [exists outcome, dtm; exact E|]. exact H.
  - apply (decided_after self s1); [eapply make_gaviota_move_keeps; eassumption|].
    now apply elif_syzygy_decided.
Qed.

Lemma elif_chessdb_decided self response self' :
  elif_chessdb w self = Returns response self' -> decided w self response self'.
Proof.
  unfold elif_chessdb, bind. intros H.
  destruct (_make_chessdb_move w self) as [[move|] s1|] eqn:E; [| |discriminate].
  - exists ChessDB, self, s1, move, false, false.
    split; [apply same_game_refl|]. split; [split; auto|]. exact H.
  - apply (decided_after self s1); [eapply make_chessdb_move_keeps; eassumption|].
    now apply elif_gaviota_decided.
Qed.

Lemma elif_cloud_decided self response self' :
  elif_cloud w self = Returns response self' -> decided w self response self'.
Proof.
  unfold elif_cloud, bind. intros H.
  destruct (_make_cloud_move w self) as [[[[move cp] depth]|] s1|] eqn:E; [| |discriminate].
  - exists Cloud, self, s1, move, false, false.
    split; [apply same_game_refl|]. split; [exists cp, depth; auto|]. exact H.
  - apply (decided_after self s1); [eapply make_cloud_move_keeps; eassumption|].
    now apply elif_chessdb_decided.
Qed.

Lemma elif_opening_explorer_decided self response self' :
  elif_opening_explorer w self = Returns response self' -> decided w self response self'.
Proof.
  unfold elif_opening_explorer, bind. intros H.
  destruct (_make_opening_explorer_move w self) as [[[[move perf] wdl]|] s1|] eqn:E;
    [| |discriminate].
  - exists Explore, self, s1, move, false, false.
    split; [apply same_game_refl|]. split; [exists perf, wdl; auto|]. exact H.
  - apply (decided_after self s1);
      [eapply make_opening_explorer_move_keeps; eassumption|].
    now apply elif_cloud_decided.
Qed.

(** Every cycle that returns was decided by one source. *)
Lemma make_move_decided self response self' :
  make_move w self = Returns response self' -> decided w self response self'.
Proof.
  unfold make_move, bind. intros H.
  destruct (_make_book_move w self) as [[[[move weight] learn]|] s1|] eqn:E;
    [| |discriminate].
  - exists Book, self, s1, move, false, false.
    split; [apply same_game_refl|]. split; [exists weight, learn; auto|]. exact H.
  - apply (decided_after self s1); [eapply make_book_move_keeps; eassumption|].
    now apply elif_opening_explorer_decided.
Qed.

End Decision.

(** ** Pushing the move and pondering *)

Lemma conclude_returns source move offer_draw resign self response self' :
  conclude source move offer_draw resign self = Returns response self' ->
  response = (move, offer_draw && draw_enabled self, resign && resign_enabled self) /\
  board self' = push (board self) move /\
  last_message self' = Message_of source move /\
  ponder_enabled self'
  = (if stops_pondering source then false else ponder_enabled self) /\
  analyses self' = analyses self ++ pondering_after source move self /\
  config self' = config self /\
  draw_scores self' = draw_scores self /\
  resign_scores self' = resign_scores self.
Proof.
  unfold conclude, play, stop_pondering, start_pondering, analyses, pondering_after.
  destruct source; unfold_monad; cbn;
    destruct (ponder_enabled self) eqn:Ep; cbn;
    try (destruct (len (move_stack (board self)) >? 1) eqn:El; cbn);
    rewrite ?Ep; cbn;
    intros H; inversion H; subst; cbn;
    rewrite ?filter_app; cbn; rewrite ?app_nil_r;
    repeat split; congruence.
Qed.

Lemma make_engine_move_returns w self move info self' :
  _make_engine_move w self = Returns (move, info) self' ->
  config self' = config self /\
  board self' = board self /\
  draw_enabled self' = draw_enabled self /\
  resign_enabled self' = resign_enabled self /\
  ponder_enabled self' = ponder_enabled self /\
  analyses self' = analyses self /\
  draw_scores self'
  = deque_append (offer_draw_consecutive_moves (config self)) (draw_scores self)
      (match info with Some s => s | None => Mate 1 end) /\
  resign_scores self'
  = deque_append (resign_consecutive_moves (config self)) (resign_scores self)
      (match info with Some s => s | None => Mate 1 end).
Proof.
  unfold _make_engine_move. unfold_monad.
  destruct (if len (move_stack (board self)) <? 2 then _ else _) as [limit ponder].
  cbn. destruct (engine_play w (board self) limit ponder) as [[m i]|]; [|discriminate].
  intros H. inversion H. subst. unfold analyses. cbn.
  rewrite filter_snoc_false by reflexivity. repeat split; reflexivity.
Qed.

(** What an answer leaves of the game, whichever source gave it. *)
Lemma answers_keeps w source asked move offer_draw resign answered :
  answers w source asked move offer_draw resign answered ->
  config answered = config asked /\
  board answered = board asked /\
  draw_enabled answered = draw_enabled asked /\
  resign_enabled answered = resign_enabled asked /\
  ponder_enabled answered = ponder_enabled asked /\
  analyses answered = analyses asked.
Proof.
  assert (Hs : same_game asked answered ->
               config answered = config asked /\
               board answered = board asked /\
               draw_enabled answered = draw_enabled asked /\
               resign_enabled answered = resign_enabled asked /\
               ponder_enabled answered = ponder_enabled asked /\
               analyses answered = analyses asked)
    by (unfold same_game; tauto).
  destruct source; unfold answers.
  - intros (? & ? & H & _). apply Hs. eapply make_book_move_keeps; eassumption.
  - intros (? & ? & H & _). apply Hs.
    eapply make_opening_explorer_move_keeps; eassumption.
  - intros (? & ? & H & _). apply Hs. eapply make_cloud_move_keeps; eassumption.
  - intros (H & _). apply Hs. eapply make_chessdb_move_keeps; eassumption.
  - intros (? & ? & H). apply Hs. eapply make_gaviota_move_keeps; eassumption.
  - intros (? & ? & H). apply Hs. eapply make_syzygy_move_keeps; eassumption.
  - intros (? & ? & ? & H). apply Hs. eapply make_egtb_move_keeps; eassumption.
  - intros (info & H & _). apply make_engine_move_returns in H. tauto.
Qed.

(** C3, as the code has it.  A cycle that returns a move has pushed it onto
    the board.  After a move of the book, the explorer, the cloud, the
    community database or the online tablebase, and after an engine move
    made while at most one move was on the board, [make_move] starts a
    pondering search on the resulting position if pondering is enabled.
    After a move of Gaviota or Syzygy it stops pondering for good: the
    flag is cleared, the only search started is the one of a millisecond
    on the position before the move, and none on the resulting position.
    After an engine move made later in the game it starts none. *)
Theorem make_move_pushes_and_ponders w self move offer_draw resign self' :
  make_move w self = Returns (move, offer_draw, resign) self' ->
  exists source,
    last_message self' = Message_of source move /\
    board self' = push (board self) move /\
    ponder_enabled self'
    = (if stops_pondering source then false else ponder_enabled self) /\
    analyses self' = analyses self ++ pondering_after source move self.
Proof.
  intros H. apply make_move_decided in H.
  destruct H as (source & s0 & s1 & m & od & rs & Hsame & Hans & Hc).
  apply conclude_returns in Hc.
  destruct Hc as (Hr & Hb & Hm & Hp & Ha & _).
  inversion Hr. subst m.
  apply answers_keeps in Hans.
  destruct Hans as (_ & Hb1 & _ & _ & Hp1 & Ha1).
  destruct Hsame as (_ & Hb0 & _ & _ & Hp0 & _ & _ & Ha0).
  exists source. split; [assumption|].
  assert (Hpa : pondering_after source move s1 = pondering_after source move self).
  { unfold pondering_after. rewrite Hb1, Hb0, Hp1, Hp0. reflexivity. }
  rewrite Hb, Hp, Ha, Hpa, Hb1, Hb0, Hp1, Hp0, Ha1, Ha0. auto.
Qed.

Lemma make_move_pushes_and_ponders_witness :
  exists source,
    last_message (state_after (make_move repeating_world) (repeating_game [Gaviota]))
    = Message_of source "Kb6" /\
    board (state_after (make_move repeating_world) (repeating_game [Gaviota]))
    = push (board (repeating_game [Gaviota])) "Kb6" /\
    ponder_enabled (state_after (make_move repeating_world) (repeating_game [Gaviota]))
    = (if stops_pondering source then false
       else ponder_enabled (repeating_game [Gaviota])) /\
    analyses (state_after (make_move repeating_world) (repeating_game [Gaviota]))
    = analyses (repeating_game [Gaviota])
      ++ pondering_after source "Kb6" (repeating_game [Gaviota]).
Proof.
  apply (make_move_pushes_and_ponders repeating_world (repeating_game [Gaviota])
           "Kb6" false false).
  vm_compute. reflexivity.
Defined.

(** C3 as the specification states it fails.  A Gaviota move leaves
    pondering disabled and starts no search on the resulting position: the
    only analysis is the one of a millisecond on the position before the
    move.  And an engine move on a board with one move does start a
    pondering search. *)
Lemma gaviota_move_stops_pondering :
  make_move repeating_world (repeating_game [Gaviota])
  = Returns ("Kb6", false, false)
      (state_after (make_move repeating_world) (repeating_game [Gaviota])) /\
  last_message (state_after (make_move repeating_world) (repeating_game [Gaviota]))
  = Message_of Gaviota "Kb6" /\
  ponder_enabled (repeating_game [Gaviota]) = true /\
  ponder_enabled (state_after (make_move repeating_world) (repeating_game [Gaviota]))
  = false /\
  analyses (state_after (make_move repeating_world) (repeating_game [Gaviota]))
  = [Engine_analysis (board (repeating_game [Gaviota])) (Some (Limit_time (1 # 1000)))] /\
  analyses (state_after (make_move repeating_world) (repeating_game [Gaviota]))
  <> analyses (repeating_game [Gaviota])
     ++ stated_pondering Gaviota "Kb6" (repeating_game [Gaviota]) /\
  last_message (state_after (make_move repeating_world) early_game)
  = Message_of Engine "Ka6" /\
  analyses (state_after (make_move repeating_world) early_game)
  = [Engine_analysis (push (board early_game) "Ka6") None] /\
  analyses (state_after (make_move repeating_world) early_game)
  <> analyses early_game ++ stated_pondering Engine "Ka6" early_game.
Proof.
  split_all; try evaluate; vm_compute; discriminate.
Qed.

(** ** The repetition guard *)


Section Repetition_Guard.

Variable w : World.



Lemma negb_true_false b : negb b = true -> b = false.
Proof. now destruct b. Qed.




End Repetition_Guard.

Section Unguarded_Sources.

Variable w : World.
Variable answer : Board -> Z -> bool.







End Unguarded_Sources.

(** A candidate that the guard rejects makes the remote sources return no
    move. *)
Section Rejected_Candidates.

Variable w : World.






End Rejected_Candidates.




(** ** A source whose counter has reached 10 *)

Lemma stays_out_refl source self : stays_out source self self.
Proof. unfold stays_out. auto. Qed.

Lemma stays_out_trans source a b c :
  stays_out source a b -> stays_out source b c -> stays_out source a c.
Proof.
  unfold stays_out, out_of. intros Hab Hbc Ha.
  destruct (Hab Ha) as [Hc Hq].
  assert (Hb : exists n, counter source b = Some n /\ 10 <= n)
    by (rewrite Hc; exact Ha).
  destruct (Hbc Hb) as [Hc' Hq']. split; congruence.
Qed.

Ltac stays_out_assign :=
  unfold stays_out, out_of, counter, queries; simpl;
  first
    [ intros [? [Hc _]]; discriminate Hc
    | intros _; split;
      [ reflexivity | first [ reflexivity | apply filter_snoc_false; reflexivity ] ] ].

Ltac stays_out_steps :=
  match goal with
  | |- keeps (stays_out ?source) _ =>
      keeps_steps (stays_out_refl source) (stays_out_trans source) stays_out_assign
  end.

Lemma out_of_counter source self :
  out_of source self ->
  match source with
  | Book => (out_of_book_counter self >=? 10) = true
  | Explore => (out_of_opening_explorer_counter self >=? 10) = true
  | Cloud => (out_of_cloud_counter self >=? 10) = true
  | ChessDB => (out_of_chessdb_counter self >=? 10) = true
  | _ => False
  end.
Proof.
  intros (n & Hc & Hn). destruct source; simpl in Hc; inversion Hc; try lia.
Qed.

Section Out_Of_A_Source.

Variable w : World.

(** The source returns at once, with nothing asked and nothing changed. *)
Lemma make_book_move_out self :
  out_of Book self -> _make_book_move w self = Returns None self.
Proof.
  intros H. apply out_of_counter in H. unfold _make_book_move, bind, get, ret.
  rewrite H. cbn [orb]. now destruct (negb _).
Qed.

Lemma make_opening_explorer_move_out self :
  out_of Explore self -> _make_opening_explorer_move w self = Returns None self.
Proof.
  intros H. apply out_of_counter in H.
  unfold _make_opening_explorer_move, bind, get, ret.
  rewrite H. cbn [orb]. now destruct (negb _).
Qed.

Lemma make_cloud_move_out self :
  out_of Cloud self -> _make_cloud_move w self = Returns None self.
Proof.
  intros H. apply out_of_counter in H. unfold _make_cloud_move, bind, get, ret.
  rewrite H. cbn [orb]. now destruct (negb _).
Qed.

Lemma make_chessdb_move_out self :
  out_of ChessDB self -> _make_chessdb_move w self = Returns None self.
Proof.
  intros H. apply out_of_counter in H. unfold _make_chessdb_move, bind, get, ret.
  rewrite H. cbn [orb]. now destruct (negb _).
Qed.

(** A method that returns at once when the source is out. *)
Lemma keeps_when_out {A} source (m : M A) (none : A) :
  (forall self, out_of source self -> m self = Returns none self) ->
  keeps (stays_out source) m.
Proof.
  intros Hm self a self' H Hout. rewrite (Hm self Hout) in H.
  inversion H. subst. auto.
Qed.

Lemma select_entry_stays_out source selection drawn first others :
  keeps (stays_out source) (select_entry selection drawn first others).
Proof. unfold select_entry. stays_out_steps. Qed.

Lemma book_readers_loop_stays_out source readers :
  source <> Book -> keeps (stays_out source) (book_readers_loop w readers).
Proof.
  intros Hs. induction readers as [|book_reader readers IH]; cbn [book_readers_loop].
  - stays_out_steps.
  - apply (keeps_bind _ (stays_out_trans source)); [apply (keeps_get _ (stays_out_refl source))|].
    intros self. apply (keeps_bind _ (stays_out_trans source)).
    { destruct source; try congruence; stays_out_steps. }
    intros _.
    destruct (find_all w book_reader (board self)); [exact IH|].
    apply (keeps_bind _ (stays_out_trans source)); [apply select_entry_stays_out|].
    intros entry. destruct (negb _); [|exact IH].
    destruct source; try congruence; stays_out_steps.
Qed.

Lemma make_book_move_stays_out source : keeps (stays_out source) (_make_book_move w).
Proof.
  destruct (source_eqb source Book) eqn:E.
  - destruct source; try discriminate E.
    apply (keeps_when_out Book _ None). apply make_book_move_out.
  - assert (Hs : source <> Book) by (intros ->; discriminate E).
    unfold _make_book_move.
    apply (keeps_bind _ (stays_out_trans source)); [apply (keeps_get _ (stays_out_refl source))|].
    intros self. cbv zeta. destruct (negb _); [stays_out_steps|].
    destruct (_ || _); [stays_out_steps|].
    apply (keeps_bind _ (stays_out_trans source)); [now apply book_readers_loop_stays_out|].
    intros response. destruct source; try congruence; stays_out_steps.
Qed.

Lemma make_opening_explorer_move_stays_out source :
  keeps (stays_out source) (_make_opening_explorer_move w).
Proof.
  destruct source;
    try (unfold _make_opening_explorer_move, _get_opening_explorer_top_move;
         solve [stays_out_steps]).
  apply (keeps_when_out Explore _ None). apply make_opening_explorer_move_out.
Qed.

Lemma make_cloud_move_stays_out source : keeps (stays_out source) (_make_cloud_move w).
Proof.
  destruct source; try (unfold _make_cloud_move; solve [stays_out_steps]).
  apply (keeps_when_out Cloud _ None). apply make_cloud_move_out.
Qed.

Lemma make_chessdb_move_stays_out source : keeps (stays_out source) (_make_chessdb_move w).
Proof.
  destruct source; try (unfold _make_chessdb_move; solve [stays_out_steps]).
  apply (keeps_when_out ChessDB _ None). apply make_chessdb_move_out.
Qed.

Lemma make_gaviota_move_stays_out source : keeps (stays_out source) (_make_gaviota_move w).
Proof. unfold _make_gaviota_move, random_choice. stays_out_steps. Qed.

Lemma make_syzygy_move_stays_out source : keeps (stays_out source) (_make_syzygy_move w).
Proof. unfold _make_syzygy_move, random_choice. stays_out_steps. Qed.

Lemma make_egtb_move_stays_out source : keeps (stays_out source) (_make_egtb_move w).
Proof. destruct source; unfold _make_egtb_move; stays_out_steps. Qed.

Lemma make_engine_move_stays_out source : keeps (stays_out source) (_make_engine_move w).
Proof. destruct source; unfold _make_engine_move; stays_out_steps. Qed.

Lemma stop_pondering_stays_out source : keeps (stays_out source) stop_pondering.
Proof. destruct source; unfold stop_pondering; stays_out_steps. Qed.

Lemma play_stays_out source by_source move offer_draw resign engine_move :
  keeps (stays_out source) (play by_source move offer_draw resign engine_move).
Proof. destruct source; unfold play, start_pondering; stays_out_steps. Qed.

End Out_Of_A_Source.

Section Steps_Keep_It_Out.

Variable source : Source.

Ltac chain :=
  apply (keeps_bind _ (stays_out_trans source)).

Lemma else_engine_stays_out w : keeps (stays_out source) (else_engine w).
Proof.
  unfold else_engine. chain; [apply make_engine_move_stays_out|].
  intros [move info]. chain; [apply (keeps_get _ (stays_out_refl source))|].
  intros self. apply play_stays_out.
Qed.

Lemma elif_egtb_stays_out w : keeps (stays_out source) (elif_egtb w).
Proof.
  unfold elif_egtb. chain; [apply make_egtb_move_stays_out|].
  intros [[[[[[move outcome] dtz] dtm] od] rs]|];
    [apply play_stays_out | apply else_engine_stays_out].
Qed.

Lemma elif_syzygy_stays_out w : keeps (stays_out source) (elif_syzygy w).
Proof.
  unfold elif_syzygy. chain; [apply make_syzygy_move_stays_out|].
  intros [[[[[move outcome] dtz] od] rs]|]; [|apply elif_egtb_stays_out].
  chain; [apply stop_pondering_stays_out | intros _; apply play_stays_out].
Qed.

Lemma elif_gaviota_stays_out w : keeps (stays_out source) (elif_gaviota w).
Proof.
  unfold elif_gaviota. chain; [apply make_gaviota_move_stays_out|].
  intros [[[[[move outcome] dtm] od] rs]|]; [|apply elif_syzygy_stays_out].
  chain; [apply stop_pondering_stays_out | intros _; apply play_stays_out].
Qed.

Lemma elif_chessdb_stays_out w : keeps (stays_out source) (elif_chessdb w).
Proof.
  unfold elif_chessdb. chain; [apply make_chessdb_move_stays_out|].
  intros [move|]; [apply play_stays_out | apply elif_gaviota_stays_out].
Qed.

Lemma elif_cloud_stays_out w : keeps (stays_out source) (elif_cloud w).
Proof.
  unfold elif_cloud. chain; [apply make_cloud_move_stays_out|].
  intros [[[move cp] depth]|]; [apply play_stays_out | apply elif_chessdb_stays_out].
Qed.

Lemma elif_opening_explorer_stays_out w :
  keeps (stays_out source) (elif_opening_explorer w).
Proof.
  unfold elif_opening_explorer. chain; [apply make_opening_explorer_move_stays_out|].
  intros [[[move perf] wdl]|]; [apply play_stays_out | apply elif_cloud_stays_out].
Qed.

Lemma make_move_stays_out w : keeps (stays_out source) (make_move w).
Proof.
  unfold make_move. chain; [apply make_book_move_stays_out|].
  intros [[[move weight] learn]|];
    [apply play_stays_out | apply elif_opening_explorer_stays_out].
Qed.

Lemma update_stays_out gameState_event : keeps (stays_out source) (update gameState_event).
Proof. unfold update. destruct source; stays_out_steps. Qed.

Lemma step_stays_out self self' : step self self' -> stays_out source self self'.
Proof.
  intros [w s r s' H | ev s changed s' H].
  - eapply make_move_stays_out; eassumption.
  - eapply update_stays_out; eassumption.
Qed.

Lemma steps_stay_out self self' : steps self self' -> stays_out source self self'.
Proof.
  induction 1 as [s | s s' s'' _ IH Hstep].
  - apply stays_out_refl.
  - eapply stays_out_trans; [exact IH|]. now apply step_stays_out.
Qed.

End Steps_Keep_It_Out.

(** C7. Once the counter of consecutive misses of the book, the opening
    explorer, the cloud or the community database has reached 10, the source
    returns "no move" at once, asking nothing and changing nothing; and
    whatever cycles and game states follow, its counter stays where it
    is and no further query is issued to it: the source is out for the
    rest of the game. *)
Theorem source_out_for_the_rest_of_the_game (source : Source) (self : Lichess_Game) :
  out_of source self ->
  (forall w,
     match source with
     | Book => _make_book_move w self = Returns None self
     | Explore => _make_opening_explorer_move w self = Returns None self
     | Cloud => _make_cloud_move w self = Returns None self
     | ChessDB => _make_chessdb_move w self = Returns None self
     | _ => False
     end) /\
  (forall self',
     steps self self' ->
     out_of source self' /\
     counter source self' = counter source self /\
     queries source self' = queries source self).
Proof.
  intros Hout. split.
  - intros w. destruct source;
      try (destruct Hout as (n & Hc & _); discriminate Hc).
    + now apply make_book_move_out.
    + now apply make_opening_explorer_move_out.
    + now apply make_cloud_move_out.
    + now apply make_chessdb_move_out.
  - intros self' Hsteps.
    destruct (steps_stay_out source self self' Hsteps Hout) as [Hc Hq].
    split; [|split; assumption].
    unfold out_of. rewrite Hc. exact Hout.
Qed.

Lemma cloud_out_game_out : out_of Cloud cloud_out_game.
Proof. exists 10. split; [reflexivity | discriminate]. Defined.

Lemma cloud_out_game_steps :
  steps cloud_out_game (state_after (make_move cloud_world) cloud_out_game).
Proof.
  eapply steps_more; [apply steps_none|].
  apply (step_make_move cloud_world cloud_out_game ("Ka6", false, false)).
  vm_compute. reflexivity.
Defined.

(** With the cloud out, a cycle in a world whose cloud knows the position
    asks the engine instead and leaves the cloud unqueried. *)
Lemma source_out_for_the_rest_of_the_game_witness :
  _make_cloud_move cloud_world cloud_out_game = Returns None cloud_out_game /\
  out_of Cloud (state_after (make_move cloud_world) cloud_out_game) /\
  counter Cloud (state_after (make_move cloud_world) cloud_out_game)
  = counter Cloud cloud_out_game /\
  queries Cloud (state_after (make_move cloud_world) cloud_out_game)
  = queries Cloud cloud_out_game.
Proof.
  split.
  - exact (proj1 (source_out_for_the_rest_of_the_game Cloud cloud_out_game
                    cloud_out_game_out) cloud_world).
  - exact (proj2 (source_out_for_the_rest_of_the_game Cloud cloud_out_game
                    cloud_out_game_out) _ cloud_out_game_steps).
Defined.

Example cloud_answers_until_out :
  last_message (state_after (make_move cloud_world) (repeating_game [Cloud]))
  = Message_of Cloud "Ka6" /\
  queries Cloud (state_after (make_move cloud_world) (repeating_game [Cloud]))
  = [Cloud_query (board (repeating_game [Cloud]))] /\
  last_message (state_after (make_move cloud_world) cloud_out_game)
  = Message_of Engine "Ka6".
Proof. split_all; evaluate. Qed.

(** ** Draw offers *)

Lemma is_drawish_iff w self :
  _is_drawish w self = true <->
  draw_enabled self = true /\
  offer_draw_min_game_length (config self) <= fullmove_number w (board self) /\
  offer_draw_consecutive_moves (config self) <= len (draw_scores self) /\
  Forall (fun s => Z.abs (score s 40000) <= offer_draw_score (config self))
    (draw_scores self).
Proof.
  unfold _is_drawish.
  destruct (draw_enabled self); cbn [negb]; [|intuition discriminate].
  destruct (fullmove_number w (board self) <? offer_draw_min_game_length (config self))
    eqn:E1; cbn [orb].
  { split; [discriminate|]. intros (_ & H & _). lia. }
  destruct (len (draw_scores self) <? offer_draw_consecutive_moves (config self))
    eqn:E2.
  { split; [discriminate|]. intros (_ & _ & H & _). lia. }
  rewrite forallb_forall, Forall_forall.
  split.
  - intros H. repeat split; try lia.
    intros s Hs. specialize (H s Hs). apply negb_true_false in H. lia.
  - intros (_ & _ & _ & H) s Hs. specialize (H s Hs).
    destruct (Z.abs (score s 40000) >? offer_draw_score (config self)) eqn:E;
      [lia | reflexivity].
Qed.

Lemma deque_append_length {A} (maxlen : Z) (d : list A) (x : A) :
  len (deque_append maxlen d x) <= Z.max 0 maxlen.
Proof.
  unfold deque_append, len. rewrite length_skipn. lia.
Qed.

(** C8, as the code has it.  [_is_drawish] holds exactly when draw offering
    is enabled, the move number is at least the configured minimal game
    length, the window holds as many scores as configured, and every score
    in it is at most the threshold in absolute value; a cycle decided by
    the engine offers a draw only then, its window (the new score
    included) holding exactly its capacity.  With capacity 3 and threshold
    50, the window [10,-20,30] offers a draw, [10,-20,60] does not, and no
    window of fewer than 3 scores does. *)
Theorem draw_offer_conditions :
  (forall w self,
     _is_drawish w self = true <->
     draw_enabled self = true /\
     offer_draw_min_game_length (config self) <= fullmove_number w (board self) /\
     offer_draw_consecutive_moves (config self) <= len (draw_scores self) /\
     Forall (fun s => Z.abs (score s 40000) <= offer_draw_score (config self))
       (draw_scores self)) /\
  (forall w self move resign self',
     make_move w self = Returns (move, true, resign) self' ->
     last_message self' = Message_of Engine move ->
     draw_enabled self = true /\
     offer_draw_min_game_length (config self) <= fullmove_number w (board self) /\
     len (draw_scores self') = Z.max 0 (offer_draw_consecutive_moves (config self)) /\
     Forall (fun s => Z.abs (score s 40000) <= offer_draw_score (config self))
       (draw_scores self')) /\
  _is_drawish (draw_world 60 0) (draw_game 60 0 [10; -20; 30]) = true /\
  _is_drawish (draw_world 60 0) (draw_game 60 0 [10; -20; 60]) = false /\
  (forall window,
     (List.length window < 3)%nat ->
     _is_drawish (draw_world 60 0) (draw_game 60 0 window) = false).
Proof.
  split; [exact is_drawish_iff|]. split; [|split; [reflexivity|split; [reflexivity|]]].
  - intros w self move resign self' H Hm.
    apply make_move_decided in H.
    destruct H as (src & s0 & s1 & m & od & rs & Hsame & Ha & Hc).
    apply conclude_returns in Hc.
    destruct Hc as (Hr & _ & Hm' & _ & _ & Hcfg & Hds & _).
    rewrite Hm' in Hm. inversion Hm. subst src m. clear Hm.
    destruct Ha as (info & He & -> & ->).
    inversion Hr as [[Hod Hrs]].
    symmetry in Hod. apply andb_true_iff in Hod. destruct Hod as [Hod _].
    apply is_drawish_iff in Hod. destruct Hod as (D1 & D2 & D3 & D4).
    apply make_engine_move_returns in He.
    destruct He as (E1 & E2 & E3 & _ & _ & _ & E7 & _).
    destruct Hsame as (S1 & S2 & S3 & _).
    rewrite Hds. rewrite E1, S1 in *. rewrite E2, S2 in *. rewrite E3, S3 in D1.
    repeat split; try assumption.
    pose proof (deque_append_length (offer_draw_consecutive_moves (config self))
                  (draw_scores s0) (match info with Some s => s | None => Mate 1 end))
      as Hlen.
    rewrite <- E7 in Hlen. unfold len in *. lia.
  - intros window Hw. unfold _is_drawish.
    change (draw_enabled (draw_game 60 0 window)) with true.
    change (draw_scores (draw_game 60 0 window)) with (map Cp window).
    change (offer_draw_consecutive_moves (config (draw_game 60 0 window))) with 3.
    unfold len. rewrite length_map.
    replace (Z.of_nat (List.length window) <? 3) with true by (symmetry; lia).
    cbn [negb]. now rewrite orb_true_r.
Qed.

Lemma draw_offer_conditions_witness :
  draw_enabled (draw_game 60 30 [99; 10; -20]) = true /\
  offer_draw_min_game_length (config (draw_game 60 30 [99; 10; -20]))
  <= fullmove_number (draw_world 60 30) (board (draw_game 60 30 [99; 10; -20])) /\
  len (draw_scores (state_after (make_move (draw_world 60 30))
                      (draw_game 60 30 [99; 10; -20])))
  = Z.max 0 (offer_draw_consecutive_moves (config (draw_game 60 30 [99; 10; -20]))) /\
  Forall
    (fun s =>
       Z.abs (score s 40000) <= offer_draw_score (config (draw_game 60 30 [99; 10; -20])))
    (draw_scores (state_after (make_move (draw_world 60 30))
                    (draw_game 60 30 [99; 10; -20]))).
Proof.
  refine (proj1 (proj2 draw_offer_conditions) (draw_world 60 30)
            (draw_game 60 30 [99; 10; -20]) "Ka6" false
            (state_after (make_move (draw_world 60 30)) (draw_game 60 30 [99; 10; -20]))
            _ _);
    vm_compute; reflexivity.
Defined.

(** C8 as the specification states it fails at both bounds: at move 35,
    the configured minimal length, and with the score 50, the configured
    threshold, in its window [10,-20,50], an engine move offers a draw. *)
Lemma draw_offered_at_the_bounds :
  make_move (draw_world 35 50) (draw_game 35 50 [99; 10; -20])
  = Returns ("Ka6", true, false)
      (state_after (make_move (draw_world 35 50)) (draw_game 35 50 [99; 10; -20])) /\
  last_message (state_after (make_move (draw_world 35 50)) (draw_game 35 50 [99; 10; -20]))
  = Message_of Engine "Ka6" /\
  draw_scores (state_after (make_move (draw_world 35 50)) (draw_game 35 50 [99; 10; -20]))
  = [Cp 10; Cp (-20); Cp 50] /\
  _is_drawish (draw_world 35 50) (draw_game 35 50 [10; -20; 50]) = true /\
  ~ stated_drawish (draw_world 35 50) (draw_game 35 50 [10; -20; 50]) /\
  _is_drawish (draw_world 35 0) (draw_game 35 0 [10; -20; 30]) = true /\
  ~ stated_drawish (draw_world 35 0) (draw_game 35 0 [10; -20; 30]) /\
  _is_drawish (draw_world 60 0) (draw_game 60 0 [10; -20; 50]) = true /\
  ~ stated_drawish (draw_world 60 0) (draw_game 60 0 [10; -20; 50]).
Proof.
  split; [evaluate|]. split; [evaluate|]. split; [evaluate|].
  split; [evaluate|]. split.
  { intros (_ & H & _). vm_compute in H. discriminate H. }
  split; [evaluate|]. split.
  { intros (_ & H & _). vm_compute in H. discriminate H. }
  split; [evaluate|].
  intros (_ & _ & _ & H). rewrite Forall_forall in H.
  assert (Hin : In (Cp 50) (draw_scores (draw_game 60 0 [10; -20; 50])))
    by (right; right; left; reflexivity).
  specialize (H (Cp 50) Hin). vm_compute in H. discriminate H.
Qed.

(** ** Move overhead *)

Lemma int_floor (x : Q) : (0 <= x)%Q -> int x = Qfloor x.
Proof.
  destruct x as [n d]. unfold Qle, int, Qfloor. simpl. intros H.
  apply Z.quot_div_nonneg; lia.
Qed.

(** The rounding to the nearest integer stays within one of the quotient
    and is never below its floor. *)
Lemma round_half_even_bounds (n d : Z) :
  0 <= n -> 0 < d ->
  n / d <= round_half_even n d /\ round_half_even n d * d < n + d.
Proof.
  intros Hn Hd. unfold round_half_even.
  pose proof (Z.div_mod n d ltac:(lia)) as Hdm.
  pose proof (Z.mod_pos_bound n d Hd) as Hr.
  destruct (2 * (n mod d) <? d) eqn:E1; [split; nia|].
  apply Z.ltb_ge in E1.
  destruct (d <? 2 * (n mod d)) eqn:E2; [apply Z.ltb_lt in E2; split; nia|].
  apply Z.ltb_ge in E2.
  destruct (Z.even (n / d)); split; nia.
Qed.

(** The leading binary digit of a quotient below [2 ^ k] has an exponent
    below [k]. *)
Lemma binary_exponent_below (n d k : Z) :
  0 < n -> 0 < d -> 0 <= k -> n < d * 2 ^ k -> binary_exponent n d < k.
Proof.
  intros Hn Hd Hk Hlt. unfold binary_exponent.
  assert (He : Z.log2 n - Z.log2 d <= k).
  { assert (H : Z.log2 n <= Z.log2 (d * 2 ^ k)) by (apply Z.log2_le_mono; lia).
    rewrite Z.log2_mul_pow2 in H by lia. lia. }
  destruct (d * 2 ^ Z.max (Z.log2 n - Z.log2 d) 0
            <=? n * 2 ^ Z.max (- (Z.log2 n - Z.log2 d)) 0) eqn:E; [|lia].
  apply Z.leb_le in E.
  destruct (Z.eq_dec (Z.log2 n - Z.log2 d) k) as [Ek|Ek]; [|lia].
  rewrite Ek in E. rewrite Z.max_l in E by lia.
  rewrite Z.max_r in E by lia. change (2 ^ 0) with 1 in E. lia.
Qed.

(** Below [2 ^ 44] a rounding to binary64 moves a number by less than
    1/512 and never across the integer below it. *)
Lemma float_step (x : Q) (k : Z) :
  0 <= k -> (inject_Z k <= x)%Q -> (x < inject_Z (2 ^ 44))%Q ->
  (inject_Z k <= float x)%Q /\ (float x < x + (1 # 512))%Q.
Proof.
  destruct x as [n d]. unfold Qle, Qlt. cbn [Qnum Qden inject_Z].
  intros Hk Hle Hlt. rewrite !Z.mul_1_r in *.
  assert (Hn : 0 <= n) by nia.
  unfold float. cbn [Qnum Qden]. rewrite (Z.abs_eq n) by exact Hn.
  destruct (n =? 0) eqn:E0.
  - apply Z.eqb_eq in E0. subst n. unfold Qle, Qlt, Qplus. cbn. split; nia.
  - apply Z.eqb_neq in E0.
    assert (He : binary_exponent n (Z.pos d) < 44)
      by (apply binary_exponent_below; lia).
    set (q := Z.max (binary_exponent n (Z.pos d)) (-1022) - 52) in *.
    assert (Hq : q <= -9) by lia.
    assert (Hq' : -1074 <= q) by lia.
    replace (0 <=? q) with false by (symmetry; apply Z.leb_gt; lia).
    replace (n <? 0) with false by (symmetry; apply Z.ltb_ge; lia).
    rewrite (Z.max_l (- q) 0) by lia. rewrite (Z.max_r q 0) by lia.
    change (2 ^ 0) with 1. rewrite Z.mul_1_r.
    set (S := 2 ^ (- q)) in *.
    assert (HS : 512 <= S).
    { change 512 with (2 ^ 9). apply Z.pow_le_mono_r; lia. }
    destruct (round_half_even_bounds (n * S) (Z.pos d)) as [Hlo Hhi]; [nia | lia |].
    set (m := round_half_even (n * S) (Z.pos d)) in *.
    assert (Hdiv : k * S <= n * S / Z.pos d).
    { apply Z.div_le_lower_bound; [lia | nia]. }
    unfold Qle, Qlt, Qplus. cbn [Qnum Qden inject_Z].
    rewrite Pos2Z.inj_mul. rewrite Z2Pos.id by lia.
    split; nia.
Qed.

Lemma Qfloor_between (y : Q) (k : Z) :
  (inject_Z k <= y)%Q -> (y < inject_Z (k + 1))%Q -> Qfloor y = k.
Proof.
  intros Hle Hlt.
  assert (H1 : k <= Qfloor y).
  { rewrite <- (Qfloor_Z k). now apply Qfloor_resp_le. }
  assert (H2 : Qfloor y < k + 1).
  { rewrite Zlt_Qlt. eapply Qle_lt_trans; [apply Qfloor_le | exact Hlt]. }
  lia.
Qed.

Lemma Qfloor_quotient (t : Z) : Qfloor (inject_Z t / 60) = t / 60.
Proof.
  unfold Qfloor, Qdiv, Qmult, Qinv, inject_Z. cbn [Qnum Qden].
  rewrite Z.mul_1_r. reflexivity.
Qed.

(** With the multiplier 1.0 the two roundings leave the integer part of
    the quotient by 60 as it is. *)
Lemma unit_share (initial_time : Z) (one : Q) :
  0 <= initial_time < 2 ^ 40 -> (one == 1)%Q ->
  int (float (float (inject_Z initial_time / 60) * one)) = initial_time / 60.
Proof.
  intros Ht Hone.
  pose proof (Z.div_mod initial_time 60 ltac:(lia)) as Hdm.
  pose proof (Z.mod_pos_bound initial_time 60 ltac:(lia)) as Hr.
  set (k := initial_time / 60) in *.
  assert (Hk : 0 <= k) by (apply Z.div_pos; lia).
  assert (Hx1 : (inject_Z k <= inject_Z initial_time / 60)%Q).
  { unfold Qle, Qdiv, Qmult, Qinv. cbn. lia. }
  assert (Hx2 : (inject_Z initial_time / 60 <= inject_Z k + (59 # 60))%Q).
  { unfold Qle, Qdiv, Qmult, Qinv, Qplus. cbn. lia. }
  assert (Hk40 : (inject_Z k < inject_Z (2 ^ 40))%Q).
  { rewrite <- Zlt_Qlt. unfold k. apply Z.div_lt_upper_bound; lia. }
  assert (H44 : (inject_Z (2 ^ 40) + 2 <= inject_Z (2 ^ 44))%Q) by discriminate.
  destruct (float_step (inject_Z initial_time / 60) k Hk Hx1) as [F1 F2]; [lra|].
  set (first := float (inject_Z initial_time / 60)) in *.
  assert (HP : (first * one == first)%Q) by (rewrite Hone; ring).
  destruct (float_step (first * one) k Hk) as [G1 G2]; [rewrite HP; exact F1 | lra |].
  set (second := float (first * one)) in *.
  assert (Hk0 : (0 <= inject_Z k)%Q) by (unfold Qle; cbn; lia).
  rewrite int_floor by lra.
  apply Qfloor_between; [exact G1|].
  rewrite inject_Z_plus. change (inject_Z 1) with 1%Q. lra.
Qed.

(** C9, as the code has it.  The move overhead in milliseconds is the
    greater of 1000 and the integer part of the initial time in
    milliseconds divided by 60 and multiplied by the configured multiplier,
    the quotient and the product being binary64 operations.  With the
    multiplier 1.0, given or by default, that is the integer part of the
    exact quotient, which in terms of the initial time in seconds is that
    of seconds * 1000 / 60; with another multiplier the rounded product can
    fall below the exact one, as 180000 * 2.3 / 60 does.  For a game of 600
    seconds (600000 milliseconds) and multiplier 1.0 the overhead is
    10000 ms. *)
Theorem move_overhead_formula :
  (forall config initial_time,
     _get_move_overhead config initial_time
     = Z.max (int (float (float (inject_Z initial_time / 60)
                          * match move_overhead_multiplier config with
                            | Some m => float m
                            | None => 1
                            end))) 1000 /\
     1000 <= _get_move_overhead config initial_time) /\
  (forall config initial_time,
     0 <= initial_time < 2 ^ 40 ->
     move_overhead_multiplier config = None \/
     move_overhead_multiplier config = Some 1%Q ->
     _get_move_overhead config initial_time = Z.max (initial_time / 60) 1000) /\
  (forall config initial_time_seconds,
     0 <= initial_time_seconds < 2 ^ 30 ->
     move_overhead_multiplier config = None \/
     move_overhead_multiplier config = Some 1%Q ->
     _get_move_overhead config (1000 * initial_time_seconds)
     = Z.max (Qfloor (inject_Z initial_time_seconds * 1000 / 60)) 1000) /\
  _get_move_overhead (example_config [] true) (1000 * 600) = 10000 /\
  (forall config,
     move_overhead_multiplier config = Some 1%Q ->
     _get_move_overhead config (1000 * 600) = 10000) /\
  (forall w username readers,
     move_overhead (__init__ w username readers (example_event [] 600000)
                      (example_config [] true)) = 10000) /\
  (forall config,
     move_overhead_multiplier config = Some (23 # 10) ->
     _get_move_overhead config 180000 = 6899 /\
     Qfloor (inject_Z 180000 / 60 * (23 # 10)) = 6900).
Proof.
  assert (H1 : forall config initial_time,
            0 <= initial_time < 2 ^ 40 ->
            move_overhead_multiplier config = None \/
            move_overhead_multiplier config = Some 1%Q ->
            _get_move_overhead config initial_time = Z.max (initial_time / 60) 1000).
  { intros config initial_time Ht Hm. unfold _get_move_overhead.
    destruct Hm as [-> | ->]; rewrite unit_share; try reflexivity; exact Ht. }
  split; [|split; [exact H1|split; [|split; [|split; [|split]]]]].
  - intros config initial_time. split; [reflexivity|].
    unfold _get_move_overhead. apply Z.le_max_r.
  - intros config s Hs Hm. rewrite H1 by (assumption || lia). f_equal.
    rewrite <- Qfloor_quotient. apply Qfloor_comp.
    rewrite inject_Z_mult. rewrite (Qmult_comm (inject_Z 1000)). reflexivity.
  - vm_compute. reflexivity.
  - intros config H. unfold _get_move_overhead. rewrite H. vm_compute. reflexivity.
  - intros w username readers. vm_compute. reflexivity.
  - intros config H. unfold _get_move_overhead. rewrite H. split; vm_compute; reflexivity.
Qed.

Lemma move_overhead_formula_witness :
  _get_move_overhead (example_config [] true) 100000 = Z.max (100000 / 60) 1000.
Proof.
  apply (proj1 (proj2 move_overhead_formula) (example_config [] true) 100000).
  - split; [discriminate | reflexivity].
  - left. reflexivity.
Defined.

(** C9 as the specification states it fails on its own example: for 600
    seconds and multiplier 1.0 the stated formula gives 1000, where the
    code, which divides the initial time in milliseconds, gives 10000; and
    the code would give 1000 only if the attribute held 600.  The overhead
    is an integer where the share is not: for 100 seconds the code gives
    1666 and not 5000/3.  And the share is computed in binary64: for 180
    seconds and the multiplier 2.3 the code gives 6899, one less than the
    integer part of the exact product. *)
Lemma stated_move_overhead_is_in_seconds :
  _get_move_overhead (example_config [] true) (1000 * 600) = 10000 /\
  (stated_move_overhead 600 1 == 1000)%Q /\
  ~ (inject_Z (_get_move_overhead (example_config [] true) (1000 * 600))
     == stated_move_overhead 600 1)%Q /\
  _get_move_overhead (example_config [] true) 600 = 1000 /\
  _get_move_overhead (example_config [] true) (1000 * 100) = 1666 /\
  ~ (inject_Z (_get_move_overhead (example_config [] true) (1000 * 100))
     == inject_Z (1000 * 100) / 60 * 1)%Q /\
  _get_move_overhead (with_move_overhead_multiplier (23 # 10) (example_config [] true))
    (1000 * 180) = 6899 /\
  Qfloor (inject_Z (1000 * 180) / 60 * (23 # 10)) = 6900.
Proof.
  split_all; try evaluate; intros H; vm_compute in H; discriminate H.
Qed.

(** ** Cursed wins and blessed losses in the Gaviota selector *)

Section Gaviota_Declines.

Variable w : World.

(** The class the scan keeps is the best class of the position. *)
Lemma gaviota_scan_best_class self best :
  gaviota_scan w self = Some best ->
  legal_moves w (board self) <> [] ->
  best_class (gaviota_probe w self) (legal_moves w (board self)) (best_wdl best).
Proof.
  intros Hscan Hlegal.
  destruct (gaviota_scan_optimal w self best Hscan Hlegal) as (Hne & Hkey & Hopt).
  destruct (best_moves best) as [|m0 rest] eqn:Hb; [congruence|].
  assert (H0 : In m0 (m0 :: rest)) by (left; reflexivity).
  pose proof (Hkey _ H0) as Hp0. apply Hopt in H0.
  destruct H0 as (Hin0 & wdl0 & d0 & Hp0' & Hbest).
  rewrite Hp0 in Hp0'. inversion Hp0'. subst wdl0 d0.
  split.
  - exists m0, (best_dtm best). auto.
  - intros move Hin.
    destruct (gaviota_loop_probes w self _ _ _ Hscan move Hin) as (wdl & d & Hp).
    exists wdl, d. split; [assumption|].
    destruct (Hbest _ _ _ Hin Hp); lia.
Qed.

Lemma best_class_unique probe legal a b :
  best_class probe legal a -> best_class probe legal b -> a = b.
Proof.
  intros [(ma & da & Ia & Pa) Ha] [(mb & db & Ib & Pb) Hb].
  destruct (Ha mb Ib) as (x & dx & Px & Lx). rewrite Pb in Px. inversion Px. subst.
  destruct (Hb ma Ia) as (y & dy & Py & Ly). rewrite Pa in Py. inversion Py. subst.
  lia.
Qed.

Lemma gaviota_best_class_scan self wdl :
  best_class (gaviota_probe w self) (legal_moves w (board self)) wdl ->
  exists best, gaviota_scan w self = Some best /\ best_wdl best = wdl.
Proof.
  intros Hbest. pose proof Hbest as [(m & d & Hin & Hp) Hall].
  destruct (gaviota_loop_returns w self (legal_moves w (board self))
              {| best_moves := []; best_wdl := -2; best_dtm := 1000000 |}) as [best Hscan].
  { intros move Hm. destruct (Hall move Hm) as (c & d' & Hc & _). eauto. }
  exists best. split; [exact Hscan|].
  assert (Hlegal : legal_moves w (board self) <> []).
  { intros E. rewrite E in Hin. inversion Hin. }
  eapply best_class_unique; [|exact Hbest].
  now apply gaviota_scan_best_class.
Qed.

Lemma make_gaviota_move_declines self wdl :
  best_class (gaviota_probe w self) (legal_moves w (board self)) wdl ->
  wdl = 1 \/ wdl = -1 ->
  _make_gaviota_move w self = Returns None self.
Proof.
  intros Hbest Hwdl.
  destruct (gaviota_best_class_scan self wdl Hbest) as (best & Hscan & Hb).
  unfold _make_gaviota_move, bind, get, ret.
  destruct (negb (gaviota_enabled (config self))); [reflexivity|].
  destruct (negb _ || _); [reflexivity|].
  rewrite Hscan, Hb.
  destruct Hwdl as [-> | ->]; reflexivity.
Qed.

Lemma gaviota_probe_same_board self self' move :
  board self' = board self -> gaviota_probe w self' move = gaviota_probe w self move.
Proof. unfold gaviota_probe. now intros ->. Qed.

Lemma best_class_same_board self self' wdl :
  board self' = board self ->
  best_class (gaviota_probe w self) (legal_moves w (board self)) wdl ->
  best_class (gaviota_probe w self') (legal_moves w (board self')) wdl.
Proof.
  intros Hb [(m & d & Hin & Hp) Hall]. rewrite Hb. split.
  - exists m, d. split; [assumption|]. now rewrite (gaviota_probe_same_board self self').
  - intros move Hm. destruct (Hall move Hm) as (c & d' & Hc & Hle).
    exists c, d'. split; [|assumption].
    now rewrite (gaviota_probe_same_board self self').
Qed.

End Gaviota_Declines.

(** C10. The Gaviota selector returns a move only when the best class over
    the legal moves is +2, 0 or -2.  When the best class is +1 (cursed win)
    or -1 (blessed loss) it returns no move and leaves the object as it
    was, the branch of [make_move] that asks it goes on as the Syzygy
    branch does, and no cycle plays a move on Gaviota's behalf. *)
Theorem gaviota_declines_cursed_and_blessed (w : World) (self : Lichess_Game) :
  (forall move outcome dtm offer_draw resign self',
     _make_gaviota_move w self
     = Returns (Some (move, outcome, dtm, offer_draw, resign)) self' ->
     exists wdl,
       best_class (gaviota_probe w self) (legal_moves w (board self)) wdl /\
       (wdl = 2 \/ wdl = 0 \/ wdl = -2)) /\
  (forall wdl,
     best_class (gaviota_probe w self) (legal_moves w (board self)) wdl ->
     wdl = 1 \/ wdl = -1 ->
     _make_gaviota_move w self = Returns None self /\
     elif_gaviota w self = elif_syzygy w self /\
     forall response self' move,
       make_move w self = Returns response self' ->
       last_message self' <> Message_of Gaviota move).
Proof.
  split.
  - intros move outcome dtm od rs self' H.
    apply make_gaviota_move_returns in H.
    destruct H as (_ & best & Hscan & Hin & _ & Hflags).
    assert (Hlegal : legal_moves w (board self) <> []).
    { intros Hl. rewrite (gaviota_scan_nil w self best Hscan Hl) in Hin. inversion Hin. }
    exists (best_wdl best). split; [now apply gaviota_scan_best_class|].
    intuition.
  - intros wdl Hbest Hwdl.
    pose proof (make_gaviota_move_declines w self wdl Hbest Hwdl) as Hnone.
    split; [exact Hnone|]. split.
    + unfold elif_gaviota, bind. now rewrite Hnone.
    + intros response self' move H Hm.
      apply make_move_decided in H.
      destruct H as (src & s0 & s1 & m & od & rs & Hsame & Ha & Hc).
      apply conclude_returns in Hc. destruct Hc as (_ & _ & Hm' & _).
      rewrite Hm' in Hm. inversion Hm. subst src m.
      destruct Ha as (outcome & dtm & Ha).
      assert (Hb : board s0 = board self) by apply Hsame.
      rewrite (make_gaviota_move_declines w s0 wdl) in Ha;
        [discriminate Ha | | exact Hwdl].
      now apply (best_class_same_board w self s0).
Qed.

Lemma cursed_game_best_class :
  best_class (gaviota_probe cursed_world cursed_game)
    (legal_moves cursed_world (board cursed_game)) 1.
Proof.
  split.
  - exists "Rh8", 1. split; [left; reflexivity | reflexivity].
  - intros move [<- | []]. exists 1, 1. split; [reflexivity | discriminate].
Defined.

(** The only move is a cursed win: Gaviota returns no move, and the cycle
    falls through to the engine. *)
Lemma gaviota_declines_cursed_and_blessed_witness :
  _make_gaviota_move cursed_world cursed_game = Returns None cursed_game /\
  elif_gaviota cursed_world cursed_game = elif_syzygy cursed_world cursed_game /\
  forall response self' move,
    make_move cursed_world cursed_game = Returns response self' ->
    last_message self' <> Message_of Gaviota move.
Proof.
  exact (proj2 (gaviota_declines_cursed_and_blessed cursed_world cursed_game) 1
           cursed_game_best_class (or_introl eq_refl)).
Defined.

Example cursed_game_falls_through :
  last_message (state_after (make_move cursed_world) cursed_game)
  = Message_of Engine "Rh8".
Proof. evaluate. Qed.

(** * Further properties of the code *)

(** ** The classifier is odd in the distance *)

(** X1. Negating the signed distance negates the class, whatever the
    halfmove clock. *)
Theorem value_to_wdl_antisymmetric (d h : Z) :
  _value_to_wdl (- d) h = - _value_to_wdl d h.
Proof.
  unfold _value_to_wdl.
  repeat match goal with
         | |- context [if ?b then _ else _] =>
             let E := fresh "E" in destruct b eqn:E
         end; lia.
Qed.

(** ** Game states *)

(** X2. [update] never raises.  A game state with no more moves than the
    board holds changes the status only: the board and both clocks stay,
    whatever clocks the event carries.  A game state with more moves
    pushes exactly one move, the last of the event, and adopts the event's
    clocks; so the board holds the event's moves afterwards when the event
    is one move ahead, and falls behind when it is two or more ahead. *)
Theorem update_pushes_the_last_move (gameState_event : GameState_Event)
    (self : Lichess_Game) :
  exists changed self',
    update gameState_event self = Returns changed self' /\
    status self' = gs_status gameState_event /\
    (changed = false <->
     len (gs_moves gameState_event) <= len (move_stack (board self))) /\
    (changed = false ->
     board self' = board self /\
     white_time self' = white_time self /\ black_time self' = black_time self) /\
    (changed = true ->
     move_stack (board self')
     = move_stack (board self) ++ [last (gs_moves gameState_event) ""] /\
     white_time self' = gs_wtime gameState_event /\
     black_time self' = gs_btime gameState_event) /\
    (forall move,
       gs_moves gameState_event = move_stack (board self) ++ [move] ->
       changed = true /\ move_stack (board self') = gs_moves gameState_event) /\
    (len (gs_moves gameState_event) > len (move_stack (board self)) + 1 ->
     move_stack (board self') <> gs_moves gameState_event).
Proof.
  unfold update. unfold_monad. cbn [set_status board move_stack].
  destruct (len (gs_moves gameState_event) <=? len (move_stack (board self))) eqn:E.
  - eexists. eexists. split; [reflexivity|]. cbn.
    split; [reflexivity|]. split; [split; [intros _; lia | reflexivity]|].
    split; [auto|]. split; [discriminate|]. split.
    + intros move Hm. apply Z.leb_le in E. rewrite Hm in E. unfold len in E.
      rewrite length_app in E. cbn [List.length] in E. lia.
    + intros Hlen Heq. apply Z.leb_le in E. lia.
  - eexists. eexists. split; [reflexivity|]. cbn.
    split; [reflexivity|]. split; [split; [discriminate | intros; lia]|].
    split; [discriminate|]. split; [auto|]. split.
    + intros move Hm. split; [reflexivity|]. rewrite Hm. now rewrite last_last.
    + intros Hlen Heq. rewrite <- Heq in Hlen. unfold len in Hlen.
      rewrite length_app in Hlen. cbn [List.length] in Hlen. lia.
Qed.

(** ** Resignation *)

Lemma is_resignable_iff self :
  _is_resignable self = true <->
  resign_enabled self = true /\
  resign_consecutive_moves (config self) <= len (resign_scores self) /\
  Forall (fun s => score s 40000 <= resign_score (config self)) (resign_scores self).
Proof.
  unfold _is_resignable.
  destruct (resign_enabled self); cbn [negb]; [|intuition discriminate].
  destruct (len (resign_scores self) <? resign_consecutive_moves (config self)) eqn:E.
  { split; [discriminate|]. intros (_ & H & _). lia. }
  rewrite forallb_forall, Forall_forall. split.
  - intros H. repeat split; try lia.
    intros s Hs. specialize (H s Hs). apply negb_true_false in H. lia.
  - intros (_ & _ & H) s Hs. specialize (H s Hs).
    destruct (score s 40000 >? resign_score (config self)) eqn:E'; [lia | reflexivity].
Qed.

(** X3. [_is_resignable] holds exactly when resigning is enabled, the
    resign window holds as many scores as configured and every score in it
    is at most the configured resign score; a cycle decided by the engine
    resigns only then, its window (the new score included) holding exactly
    its capacity. *)
Theorem resignation_conditions :
  (forall self,
     _is_resignable self = true <->
     resign_enabled self = true /\
     resign_consecutive_moves (config self) <= len (resign_scores self) /\
     Forall (fun s => score s 40000 <= resign_score (config self)) (resign_scores self)) /\
  (forall w self move offer_draw self',
     make_move w self = Returns (move, offer_draw, true) self' ->
     last_message self' = Message_of Engine move ->
     resign_enabled self = true /\
     len (resign_scores self') = Z.max 0 (resign_consecutive_moves (config self)) /\
     Forall (fun s => score s 40000 <= resign_score (config self)) (resign_scores self')).
Proof.
  split; [exact is_resignable_iff|].
  intros w self move offer_draw self' H Hm.
  apply make_move_decided in H.
  destruct H as (src & s0 & s1 & m & od & rs & Hsame & Ha & Hc).
  apply conclude_returns in Hc.
  destruct Hc as (Hr & _ & Hm' & _ & _ & Hcfg & _ & Hrs).
  rewrite Hm' in Hm. inversion Hm. subst src m. clear Hm.
  destruct Ha as (info & He & -> & ->).
  inversion Hr as [[Hod Hres]].
  symmetry in Hres. apply andb_true_iff in Hres. destruct Hres as [Hres _].
  apply is_resignable_iff in Hres. destruct Hres as (D1 & D2 & D3).
  apply make_engine_move_returns in He.
  destruct He as (E1 & _ & _ & E4 & _ & _ & _ & E8).
  destruct Hsame as (S1 & _ & _ & S4 & _).
  rewrite Hrs. rewrite E1, S1 in *. rewrite E4, S4 in D1.
  repeat split; try assumption.
  pose proof (deque_append_length (resign_consecutive_moves (config self))
                (resign_scores s0) (match info with Some s => s | None => Mate 1 end))
    as Hlen.
  rewrite <- E8 in Hlen. unfold len in *. lia.
Qed.

Lemma resignation_conditions_witness :
  resign_enabled (set_resign_scores [Cp (-1500); Cp (-1500); Cp (-1500)]
                    (draw_game 60 0 [])) = true /\
  resign_consecutive_moves
    (config (set_resign_scores [Cp (-1500); Cp (-1500); Cp (-1500)] (draw_game 60 0 [])))
  <= len (resign_scores
            (set_resign_scores [Cp (-1500); Cp (-1500); Cp (-1500)] (draw_game 60 0 []))) /\
  Forall
    (fun s =>
       score s 40000
       <= resign_score
            (config (set_resign_scores [Cp (-1500); Cp (-1500); Cp (-1500)]
                       (draw_game 60 0 []))))
    (resign_scores
       (set_resign_scores [Cp (-1500); Cp (-1500); Cp (-1500)] (draw_game 60 0 []))).
Proof.
  apply (proj1 (proj1 resignation_conditions
                  (set_resign_scores [Cp (-1500); Cp (-1500); Cp (-1500)]
                     (draw_game 60 0 [])))).
  vm_compute. reflexivity.
Defined.

(** ** The score windows *)

(** X4. Appending to a window of capacity [maxlen] keeps the most recent
    scores: the result is the end of the old window followed by the new
    score, as long as the capacity allows and no longer; the new score is
    its last element whenever the capacity is positive, and a window of
    capacity 0 (or less) stays empty. *)
Theorem deque_append_keeps_the_most_recent {A} (maxlen : Z) (d : list A) (x : A) :
  (exists dropped, d ++ [x] = dropped ++ deque_append maxlen d x) /\
  len (deque_append maxlen d x) = Z.min (len d + 1) (Z.max 0 maxlen) /\
  (0 < maxlen -> exists kept, deque_append maxlen d x = kept ++ [x]) /\
  (maxlen <= 0 -> deque_append maxlen d x = []) /\
  (len d < maxlen -> deque_append maxlen d x = d ++ [x]).
Proof.
  unfold deque_append, len.
  split; [|split; [|split; [|split]]].
  - exists (firstn (List.length (d ++ [x]) - Z.to_nat maxlen) (d ++ [x])).
    now rewrite firstn_skipn.
  - rewrite length_skipn, length_app. cbn [List.length]. lia.
  - intros Hpos.
    assert (Hle : (List.length (d ++ [x]) - Z.to_nat maxlen <= List.length d)%nat).
    { rewrite length_app. cbn [List.length]. lia. }
    rewrite skipn_app.
    replace (List.length (d ++ [x]) - Z.to_nat maxlen - List.length d)%nat with 0%nat
      by lia.
    cbn [skipn]. eauto.
  - intros Hle. replace (Z.to_nat maxlen) with 0%nat by lia.
    rewrite Nat.sub_0_r. apply skipn_all.
  - intros Hlt.
    replace (List.length (d ++ [x]) - Z.to_nat maxlen)%nat with 0%nat;
      [reflexivity|].
    rewrite length_app. cbn [List.length]. lia.
Qed.

Lemma deque_append_keeps_the_most_recent_witness :
  exists kept, deque_append 3 [Cp 5; Cp 6; Cp 7] (Cp 8) = kept ++ [Cp 8].
Proof.
  apply (proj1 (proj2 (proj2
           (deque_append_keeps_the_most_recent 3 [Cp 5; Cp 6; Cp 7] (Cp 8))))).
  reflexivity.
Defined.

Lemma answers_same_game w source asked move offer_draw resign answered :
  source <> Engine ->
  answers w source asked move offer_draw resign answered ->
  same_game asked answered.
Proof.
  destruct source; unfold answers; intros Hs; try congruence.
  - intros (? & ? & H & _). eapply make_book_move_keeps; eassumption.
  - intros (? & ? & H & _). eapply make_opening_explorer_move_keeps; eassumption.
  - intros (? & ? & H & _). eapply make_cloud_move_keeps; eassumption.
  - intros (H & _). eapply make_chessdb_move_keeps; eassumption.
  - intros (? & ? & H). eapply make_gaviota_move_keeps; eassumption.
  - intros (? & ? & H). eapply make_syzygy_move_keeps; eassumption.
  - intros (? & ? & ? & H). eapply make_egtb_move_keeps; eassumption.
Qed.

Lemma make_move_windows w self response self' :
  make_move w self = Returns response self' ->
  config self' = config self /\ (windows_bounded self -> windows_bounded self').
Proof.
  intros H. apply make_move_decided in H.
  destruct H as (src & s0 & s1 & m & od & rs & Hsame & Ha & Hc).
  apply conclude_returns in Hc.
  destruct Hc as (_ & _ & _ & _ & _ & Hcfg & Hds & Hrs).
  destruct Hsame as (S1 & _ & _ & _ & _ & S6 & S7 & _).
  unfold windows_bounded. rewrite Hcfg, Hds, Hrs.
  destruct (source_eqb src Engine) eqn:E.
  - destruct src; try discriminate E. destruct Ha as (info & He & _).
    apply make_engine_move_returns in He.
    destruct He as (E1 & _ & _ & _ & _ & _ & E7 & E8).
    rewrite E1, S1. split; [reflexivity|]. intros _.
    rewrite E7, E8, S1. split; apply deque_append_length.
  - assert (Hs : src <> Engine) by (intros ->; discriminate E).
    apply (answers_same_game w src) in Ha; [|exact Hs].
    destruct Ha as (A1 & _ & _ & _ & _ & A6 & A7 & _).
    rewrite A1, A6, A7, S1, S6, S7. auto.
Qed.

Lemma update_windows gameState_event self changed self' :
  update gameState_event self = Returns changed self' ->
  config self' = config self /\
  draw_scores self' = draw_scores self /\ resign_scores self' = resign_scores self.
Proof.
  unfold update. unfold_monad. cbn [set_status board move_stack].
  destruct (len (gs_moves gameState_event) <=? len (move_stack (board self)));
    intros H; inversion H; subst; cbn; auto.
Qed.

(** X5. Neither score window ever exceeds its configured capacity: from
    the object [__init__] builds, through any sequence of decision cycles
    and game states, each window holds at most as many scores as
    configured, and the configuration stays the one given. *)
Theorem score_windows_stay_bounded (w : World) (username : string) (readers : list nat)
    (gameFull_event : GameFull_Event) (cfg : Config) (self' : Lichess_Game) :
  steps (__init__ w username readers gameFull_event cfg) self' ->
  config self' = cfg /\
  len (draw_scores self') <= Z.max 0 (offer_draw_consecutive_moves cfg) /\
  len (resign_scores self') <= Z.max 0 (resign_consecutive_moves cfg).
Proof.
  intros Hsteps.
  assert (H : config self' = cfg /\ windows_bounded self').
  { remember (__init__ w username readers gameFull_event cfg) as start eqn:Hstart.
    induction Hsteps as [s | s s' s'' _ IH Hstep].
    - subst s. split; [reflexivity|]. unfold windows_bounded. cbn. lia.
    - destruct (IH Hstart) as [Hc Hb].
      destruct Hstep as [w' a r a' Hm | ev a ch a' Hu].
      + destruct (make_move_windows _ _ _ _ Hm) as [Hc' Hb'].
        split; [congruence | auto].
      + destruct (update_windows _ _ _ _ Hu) as (Hc' & Hd & Hr).
        split; [congruence|]. unfold windows_bounded in *.
        rewrite Hc', Hd, Hr. exact Hb. }
  destruct H as [Hc [Hd Hr]]. rewrite Hc in Hd, Hr. auto.
Qed.

Lemma score_windows_stay_bounded_witness :
  config (state_after (make_move (draw_world 60 30))
            (__init__ (draw_world 60 30) "bot" [] (example_event ["Ka5"; "Kc8"] 300000)
               (example_config [] true)))
  = example_config [] true /\
  len (draw_scores
         (state_after (make_move (draw_world 60 30))
            (__init__ (draw_world 60 30) "bot" [] (example_event ["Ka5"; "Kc8"] 300000)
               (example_config [] true))))
  <= Z.max 0 (offer_draw_consecutive_moves (example_config [] true)) /\
  len (resign_scores
         (state_after (make_move (draw_world 60 30))
            (__init__ (draw_world 60 30) "bot" [] (example_event ["Ka5"; "Kc8"] 300000)
               (example_config [] true))))
  <= Z.max 0 (resign_consecutive_moves (example_config [] true)).
Proof.
  apply (score_windows_stay_bounded (draw_world 60 30) "bot" []
           (example_event ["Ka5"; "Kc8"] 300000) (example_config [] true)).
  eapply steps_more; [apply steps_none|].
  apply (step_make_move (draw_world 60 30) _ ("Ka6", false, false)).
  vm_compute. reflexivity.
Defined.

(** ** The limits given to the engine *)

(** X6. A search that returns a move was asked once, on the current
    position.  With fewer than two moves on the board it was given a fixed
    15 seconds and no pondering.  Later it is given both clocks in seconds
    and the configured pondering: the opponent's clock as it is, and for
    the own side the remaining time less the move overhead if that is
    positive, half the remaining time otherwise; so, with time left, the
    engine's own clock is positive and never more than the time left. *)
Theorem engine_limits w self move info self' :
  _make_engine_move w self = Returns (move, info) self' ->
  exists limit ponder,
    calls self' = calls self ++ [Engine_play (board self) limit ponder] /\
    engine_play w (board self) limit ponder = Some (move, info) /\
    (len (move_stack (board self)) < 2 ->
     limit = Limit_time 15 /\ ponder = false) /\
    (2 <= len (move_stack (board self)) ->
     ponder = ponder_enabled self /\
     exists own opponent,
       own_clock self limit = Some own /\
       opponent_clock self limit = Some opponent /\
       (opponent == inject_Z (opponent_time self) / 1000)%Q /\
       (own_time self > move_overhead self ->
        (own == inject_Z (own_time self - move_overhead self) / 1000)%Q) /\
       (own_time self <= move_overhead self ->
        (own == inject_Z (own_time self) / 2000)%Q) /\
       (0 < own_time self -> 0 <= move_overhead self ->
        (0 < own)%Q /\ (own <= inject_Z (own_time self) / 1000)%Q)).
Proof.
  unfold _make_engine_move, own_time, opponent_time. unfold_monad.
  destruct (len (move_stack (board self)) <? 2) eqn:Elen.
  - cbn. destruct (engine_play w (board self) (Limit_time 15) false) as [[m i]|] eqn:Ep;
      [|discriminate].
    intros H. inversion H. subst. cbn.
    exists (Limit_time 15), false. repeat split; auto; lia.
  - destruct (is_white self) eqn:Ew.
    + destruct (white_time self >? move_overhead self) eqn:Et; cbn;
        match goal with
        | |- context [engine_play w (board self) ?l ?p] =>
            destruct (engine_play w (board self) l p) as [[m i]|] eqn:Ep;
            [|discriminate]; intros H; inversion H; subst; cbn;
            exists l, p
        end;
        (split; [reflexivity|]); (split; [exact Ep|]); (split; [intros; lia|]);
        intros _; (split; [reflexivity|]); cbn; rewrite Ew;
        eexists; eexists; (split; [reflexivity|]); (split; [reflexivity|]);
        (split; [reflexivity|]);
        (split; [intros; try lia; reflexivity|]);
        (split; [intros; try lia; unfold Qeq; cbn; lia|]);
        intros Hpos Hov; unfold Qlt, Qle; cbn; lia.
    + destruct (black_time self >? move_overhead self) eqn:Et; cbn;
        match goal with
        | |- context [engine_play w (board self) ?l ?p] =>
            destruct (engine_play w (board self) l p) as [[m i]|] eqn:Ep;
            [|discriminate]; intros H; inversion H; subst; cbn;
            exists l, p
        end;
        (split; [reflexivity|]); (split; [exact Ep|]); (split; [intros; lia|]);
        intros _; (split; [reflexivity|]); cbn; rewrite Ew;
        eexists; eexists; (split; [reflexivity|]); (split; [reflexivity|]);
        (split; [reflexivity|]);
        (split; [intros; try lia; reflexivity|]);
        (split; [intros; try lia; unfold Qeq; cbn; lia|]);
        intros Hpos Hov; unfold Qlt, Qle; cbn; lia.
Qed.

Lemma engine_limits_witness :
  exists limit ponder,
    calls (state_after (_make_engine_move (draw_world 60 30)) (draw_game 60 30 []))
    = calls (draw_game 60 30 [])
      ++ [Engine_play (board (draw_game 60 30 [])) limit ponder] /\
    ponder = true /\
    own_clock (draw_game 60 30 []) limit = Some (290000 # 1000).
Proof.
  destruct (engine_limits (draw_world 60 30) (draw_game 60 30 []) "Ka6" (Some (Cp 30))
              (state_after (_make_engine_move (draw_world 60 30)) (draw_game 60 30 [])))
    as (limit & ponder & Hc & _ & _ & Hl).
  { vm_compute. reflexivity. }
  exists limit, ponder. split; [exact Hc|].
  vm_compute in Hc. injection Hc as Hlimit Hponder. subst limit ponder.
  split; [reflexivity | vm_compute; reflexivity].
Defined.

(** ** The flags returned with a move *)

(** X7. [make_move] offers a draw only when draw offering is enabled and
    resigns only when resigning is enabled, whichever source decided; and
    a move of the book, the opening explorer, the cloud or the community
    database comes with neither flag. *)
Theorem flags_need_their_feature w self move offer_draw resign self' :
  make_move w self = Returns (move, offer_draw, resign) self' ->
  (offer_draw = true -> draw_enabled self = true) /\
  (resign = true -> resign_enabled self = true) /\
  (forall source,
     last_message self' = Message_of source move ->
     guarded source = true ->
     offer_draw = false /\ resign = false).
Proof.
  intros H. apply make_move_decided in H.
  destruct H as (src & s0 & s1 & m & od & rs & Hsame & Ha & Hc).
  apply conclude_returns in Hc.
  destruct Hc as (Hr & _ & Hm' & _).
  inversion Hr. subst m.
  pose proof (answers_keeps _ _ _ _ _ _ _ Ha) as (_ & _ & Hd & Hre & _).
  destruct Hsame as (_ & _ & Sd & Sr & _).
  rewrite Hd, Sd, Hre, Sr.
  split; [intros E; apply andb_true_iff in E; tauto|].
  split; [intros E; apply andb_true_iff in E; tauto|].
  intros source Hm Hg. rewrite Hm' in Hm. inversion Hm. subst src.
  destruct source; try discriminate Hg; unfold answers in Ha.
  - destruct Ha as (? & ? & _ & -> & ->). auto.
  - destruct Ha as (? & ? & _ & -> & ->). auto.
  - destruct Ha as (? & ? & _ & -> & ->). auto.
  - destruct Ha as (_ & -> & ->). auto.
Qed.

Lemma flags_need_their_feature_witness :
  (true = true -> draw_enabled (draw_game 60 30 [99; 10; -20]) = true) /\
  (false = true -> resign_enabled (draw_game 60 30 [99; 10; -20]) = true) /\
  (forall source,
     last_message (state_after (make_move (draw_world 60 30))
                     (draw_game 60 30 [99; 10; -20]))
     = Message_of source "Ka6" ->
     guarded source = true ->
     true = false /\ false = false).
Proof.
  apply (flags_need_their_feature (draw_world 60 30) (draw_game 60 30 [99; 10; -20])
           "Ka6" true false
           (state_after (make_move (draw_world 60 30)) (draw_game 60 30 [99; 10; -20]))).
  vm_compute. reflexivity.
Defined.

(** ** Remote queries that fail *)

Ltac timed_out H Hcalls :=
  unfold _reduce_own_time, _has_time in *; run_in H; inversion H; subst;
  try (exfalso; apply Hcalls; reflexivity);
  try congruence;
  (split; [reflexivity|]);
  unfold debited, own_time, opponent_time; cbn in *;
  match goal with
  | E : is_white _ = _ |- _ => rewrite ?E
  end;
  repeat split; try reflexivity;
  intros source; destruct source; reflexivity.

(** X8. A remote query that gets no response charges the timeout to the
    clock of the side played, and to nothing else: when the opening
    explorer, the cloud, the community database or the online tablebase
    was queried and did not answer, the method returns no move, the own
    remaining time is less by exactly timeout * 1000 milliseconds, the
    opponent's time is as it was, and no miss counter has moved. *)
Theorem timeouts_debit_the_own_clock (w : World) (self self' : Lichess_Game) :
  (forall response,
     _make_opening_explorer_move w self = Returns response self' ->
     calls self' <> calls self ->
     (forall username color timeout,
        get_opening_explorer w username (board self) color timeout = None) ->
     response = None /\ debited (opening_explorer_timeout (config self)) self self') /\
  (forall response,
     _make_cloud_move w self = Returns response self' ->
     calls self' <> calls self ->
     (forall timeout, get_cloud_eval w (board self) timeout = None) ->
     response = None /\ debited (lichess_cloud_timeout (config self)) self self') /\
  (forall response,
     _make_chessdb_move w self = Returns response self' ->
     calls self' <> calls self ->
     (forall action timeout, get_chessdb_eval w (board self) action timeout = None) ->
     response = None /\ debited (chessdb_timeout (config self)) self self') /\
  (forall response,
     _make_egtb_move w self = Returns response self' ->
     calls self' <> calls self ->
     (forall variant timeout, get_egtb w (board self) variant timeout = None) ->
     response = None /\ debited (online_egtb_timeout (config self)) self self').
Proof.
  split; [|split; [|split]].
  - intros response H Hcalls Hnone.
    unfold _make_opening_explorer_move, _get_opening_explorer_top_move in H.
    timed_out H Hcalls.
  - intros response H Hcalls Hnone. unfold _make_cloud_move in H.
    timed_out H Hcalls.
  - intros response H Hcalls Hnone. unfold _make_chessdb_move in H.
    timed_out H Hcalls.
  - intros response H Hcalls Hnone. unfold _make_egtb_move in H.
    timed_out H Hcalls.
Qed.

Lemma timeouts_debit_the_own_clock_witness :
  @None (Move * Z * Z) = None /\
  debited (lichess_cloud_timeout (config (repeating_game [Cloud])))
    (repeating_game [Cloud])
    (state_after (_make_cloud_move silent_world) (repeating_game [Cloud])).
Proof.
  apply (proj1 (proj2 (timeouts_debit_the_own_clock silent_world (repeating_game [Cloud])
                         (state_after (_make_cloud_move silent_world)
                            (repeating_game [Cloud]))))).
  - vm_compute. reflexivity.
  - vm_compute. intros H. discriminate H.
  - intros timeout. reflexivity.
Defined.

(** ** Whatever every method keeps, the cycle keeps *)

Section Chain.

Variable R : Lichess_Game -> Lichess_Game -> Prop.
Hypothesis R_refl : forall self, R self self.
Hypothesis R_trans : forall a b c, R a b -> R b c -> R a c.
Variable w : World.
Hypothesis book_keeps : keeps R (_make_book_move w).
Hypothesis opening_explorer_keeps : keeps R (_make_opening_explorer_move w).
Hypothesis cloud_keeps : keeps R (_make_cloud_move w).
Hypothesis chessdb_keeps : keeps R (_make_chessdb_move w).
Hypothesis gaviota_keeps : keeps R (_make_gaviota_move w).
Hypothesis syzygy_keeps : keeps R (_make_syzygy_move w).
Hypothesis egtb_keeps : keeps R (_make_egtb_move w).
Hypothesis engine_keeps : keeps R (_make_engine_move w).
Hypothesis stop_pondering_keeps : keeps R stop_pondering.
Hypothesis play_keeps :
  forall source move offer_draw resign engine_move,
    keeps R (play source move offer_draw resign engine_move).

Lemma make_move_keeps : keeps R (make_move w).
Proof.
  assert (Hengine : keeps R (else_engine w)).
  { unfold else_engine. apply (keeps_bind _ R_trans); [exact engine_keeps|].
    intros [move info]. apply (keeps_bind _ R_trans); [apply (keeps_get _ R_refl)|].
    intros self. apply play_keeps. }
  assert (Hegtb : keeps R (elif_egtb w)).
  { unfold elif_egtb. apply (keeps_bind _ R_trans); [exact egtb_keeps|].
    intros [[[[[[move outcome] dtz] dtm] od] rs]|]; [apply play_keeps | exact Hengine]. }
  assert (Hsyzygy : keeps R (elif_syzygy w)).
  { unfold elif_syzygy. apply (keeps_bind _ R_trans); [exact syzygy_keeps|].
    intros [[[[[move outcome] dtz] od] rs]|]; [|exact Hegtb].
    apply (keeps_bind _ R_trans); [exact stop_pondering_keeps|].
    intros _. apply play_keeps. }
  assert (Hgaviota : keeps R (elif_gaviota w)).
  { unfold elif_gaviota. apply (keeps_bind _ R_trans); [exact gaviota_keeps|].
    intros [[[[[move outcome] dtm] od] rs]|]; [|exact Hsyzygy].
    apply (keeps_bind _ R_trans); [exact stop_pondering_keeps|].
    intros _. apply play_keeps. }
  assert (Hchessdb : keeps R (elif_chessdb w)).
  { unfold elif_chessdb. apply (keeps_bind _ R_trans); [exact chessdb_keeps|].
    intros [move|]; [apply play_keeps | exact Hgaviota]. }
  assert (Hcloud : keeps R (elif_cloud w)).
  { unfold elif_cloud. apply (keeps_bind _ R_trans); [exact cloud_keeps|].
    intros [[[move cp] depth]|]; [apply play_keeps | exact Hchessdb]. }
  assert (Hexplorer : keeps R (elif_opening_explorer w)).
  { unfold elif_opening_explorer.
    apply (keeps_bind _ R_trans); [exact opening_explorer_keeps|].
    intros [[[move perf] wdl]|]; [apply play_keeps | exact Hcloud]. }
  unfold make_move. apply (keeps_bind _ R_trans); [exact book_keeps|].
  intros [[[move weight] learn]|]; [apply play_keeps | exact Hexplorer].
Qed.

End Chain.

(** ** The clocks over a cycle *)

Lemma clocks_kept_refl self : clocks_kept self self.
Proof. unfold clocks_kept. repeat split; auto. intros _. apply Z.le_refl. Qed.

Lemma clocks_kept_trans a b c : clocks_kept a b -> clocks_kept b c -> clocks_kept a c.
Proof.
  unfold clocks_kept. intros (A1 & A2 & A3 & A4) (B1 & B2 & B3 & B4).
  repeat split; try congruence.
  intros Ht. rewrite A1 in B4. specialize (A4 Ht). specialize (B4 Ht). lia.
Qed.

Ltac clocks_kept_assign :=
  unfold clocks_kept, own_time, opponent_time; cbn;
  repeat split; first [reflexivity | intros _; apply Z.le_refl].

Ltac clocks_kept_steps :=
  unfold call; repeat keeps_step clocks_kept_refl clocks_kept_trans clocks_kept_assign.

Ltac clocks_kept_run :=
  let self := fresh "self" in
  let r := fresh "r" in
  let self' := fresh "self'" in
  let H := fresh "H" in
  intros self r self' H;
  unfold _reduce_own_time, _has_time in *; run_in H; inversion H; subst;
  unfold clocks_kept, timeouts_nonnegative, own_time, opponent_time; cbn in *;
  repeat match goal with
         | E : is_white _ = _ |- _ => rewrite ?E; clear E
         end;
  repeat split; try reflexivity; intros; lia.

Section Clocks.

Variable w : World.

Lemma select_entry_clocks selection drawn first others :
  keeps clocks_kept (select_entry selection drawn first others).
Proof. unfold select_entry. clocks_kept_steps. Qed.

Lemma book_readers_loop_clocks readers : keeps clocks_kept (book_readers_loop w readers).
Proof.
  induction readers as [|book_reader readers IH]; cbn [book_readers_loop].
  - clocks_kept_steps.
  - apply (keeps_bind _ clocks_kept_trans); [apply (keeps_get _ clocks_kept_refl)|].
    intros self. apply (keeps_bind _ clocks_kept_trans); [clocks_kept_steps|]. intros _.
    destruct (find_all w book_reader (board self)); [exact IH|].
    apply (keeps_bind _ clocks_kept_trans); [apply select_entry_clocks|]. intros entry.
    destruct (negb _); [|exact IH]. clocks_kept_steps.
Qed.

Lemma make_book_move_clocks : keeps clocks_kept (_make_book_move w).
Proof.
  unfold _make_book_move.
  apply (keeps_bind _ clocks_kept_trans); [apply (keeps_get _ clocks_kept_refl)|].
  intros self. cbv zeta. destruct (negb _); [clocks_kept_steps|].
  destruct (_ || _); [clocks_kept_steps|].
  apply (keeps_bind _ clocks_kept_trans); [apply book_readers_loop_clocks|].
  intros response. clocks_kept_steps.
Qed.

Lemma make_opening_explorer_move_clocks :
  keeps clocks_kept (_make_opening_explorer_move w).
Proof.
  unfold _make_opening_explorer_move, _get_opening_explorer_top_move. clocks_kept_run.
Qed.

Lemma make_cloud_move_clocks : keeps clocks_kept (_make_cloud_move w).
Proof. unfold _make_cloud_move. clocks_kept_run. Qed.

Lemma make_chessdb_move_clocks : keeps clocks_kept (_make_chessdb_move w).
Proof. unfold _make_chessdb_move. clocks_kept_run. Qed.

Lemma make_egtb_move_clocks : keeps clocks_kept (_make_egtb_move w).
Proof. unfold _make_egtb_move. clocks_kept_run. Qed.

Lemma make_gaviota_move_clocks : keeps clocks_kept (_make_gaviota_move w).
Proof. unfold _make_gaviota_move, random_choice. clocks_kept_steps. Qed.

Lemma make_syzygy_move_clocks : keeps clocks_kept (_make_syzygy_move w).
Proof. unfold _make_syzygy_move, random_choice. clocks_kept_steps. Qed.

Lemma make_engine_move_clocks : keeps clocks_kept (_make_engine_move w).
Proof. unfold _make_engine_move. clocks_kept_steps. Qed.

Lemma stop_pondering_clocks : keeps clocks_kept stop_pondering.
Proof. unfold stop_pondering. clocks_kept_steps. Qed.

Lemma play_clocks source move offer_draw resign engine_move :
  keeps clocks_kept (play source move offer_draw resign engine_move).
Proof. unfold play, start_pondering. clocks_kept_steps. Qed.

End Clocks.

(** X9. A decision cycle never touches the opponent's clock nor the side
    played, and, the configured timeouts not being negative, never
    increases the own remaining time: it can only be charged for remote
    queries that failed. *)
Theorem make_move_keeps_the_clocks w self response self' :
  make_move w self = Returns response self' ->
  is_white self' = is_white self /\
  opponent_time self' = opponent_time self /\
  (timeouts_nonnegative (config self) -> own_time self' <= own_time self).
Proof.
  intros H.
  assert (Hk : clocks_kept self self').
  { eapply (make_move_keeps clocks_kept clocks_kept_refl clocks_kept_trans w);
      [apply make_book_move_clocks | apply make_opening_explorer_move_clocks
      | apply make_cloud_move_clocks | apply make_chessdb_move_clocks
      | apply make_gaviota_move_clocks | apply make_syzygy_move_clocks
      | apply make_egtb_move_clocks | apply make_engine_move_clocks
      | apply stop_pondering_clocks | apply play_clocks | exact H]. }
  destruct Hk as (_ & H1 & H2 & H3). auto.
Qed.

Lemma make_move_keeps_the_clocks_witness :
  is_white (state_after (make_move silent_world) (repeating_game [Cloud]))
  = is_white (repeating_game [Cloud]) /\
  opponent_time (state_after (make_move silent_world) (repeating_game [Cloud]))
  = opponent_time (repeating_game [Cloud]) /\
  (timeouts_nonnegative (config (repeating_game [Cloud])) ->
   own_time (state_after (make_move silent_world) (repeating_game [Cloud]))
   <= own_time (repeating_game [Cloud])).
Proof.
  apply (make_move_keeps_the_clocks silent_world (repeating_game [Cloud])
           ("Ka6", false, false)).
  vm_compute. reflexivity.
Defined.

Example silent_cloud_costs_two_seconds :
  own_time (repeating_game [Cloud]) = 300000 /\
  own_time (state_after (make_move silent_world) (repeating_game [Cloud])) = 298000 /\
  last_message (state_after (make_move silent_world) (repeating_game [Cloud]))
  = Message_of Engine "Ka6".
Proof. split_all; evaluate. Qed.

(** ** More on the tablebase selectors *)

(** X10. When a legal move gives checkmate, a move the Gaviota selector
    returns gives checkmate, and it is returned as a win with distance 0. *)
Theorem gaviota_plays_the_mate w self mate move outcome dtm offer_draw resign self' :
  In mate (legal_moves w (board self)) ->
  is_checkmate w (push (board self) mate) = true ->
  _make_gaviota_move w self
  = Returns (Some (move, outcome, dtm, offer_draw, resign)) self' ->
  is_checkmate w (push (board self) move) = true /\
  outcome = "win" /\ dtm = 0 /\ offer_draw = false /\ resign = false.
Proof.
  intros Hin Hmate H.
  apply make_gaviota_move_returns in H.
  destruct H as (_ & best & Hscan & Hmove & -> & Hflags).
  assert (Hlegal : legal_moves w (board self) <> []).
  { intros E. rewrite E in Hin. inversion Hin. }
  destruct (gaviota_scan_optimal w self best Hscan Hlegal) as (_ & Hkey & Hopt).
  pose proof (Hkey _ Hmove) as Hp.
  apply Hopt in Hmove. destruct Hmove as (_ & wdl & d & Hp' & Hbest).
  rewrite Hp in Hp'. inversion Hp'. subst wdl d. clear Hp'.
  assert (Hm : gaviota_probe w self mate = Some (2, 0)).
  { unfold gaviota_probe. now rewrite Hmate. }
  pose proof (gaviota_probe_range _ _ _ _ _ Hp) as Hrange.
  destruct (Hbest _ _ _ Hin Hm) as [Hlt | [Heq Hle]]; [lia|].
  assert (Hc : is_checkmate w (push (board self) move) = true).
  { unfold gaviota_probe in Hp.
    destruct (is_checkmate w (push (board self) move)); [reflexivity|].
    destruct (probe_dtm w (push (board self) move)) as [probed|]; [|discriminate].
    inversion Hp as [[Hw Hd]].
    pose proof (value_to_wdl_sign (- probed) (halfmove_clock w (push (board self) move)))
      as [Hs _].
    lia. }
  split; [exact Hc|].
  unfold gaviota_probe in Hp. rewrite Hc in Hp. inversion Hp as [[Hw Hd]].
  rewrite <- Hw in Hflags.
  destruct Hflags as [F | [F | F]]; intuition (try lia).
Qed.

Lemma gaviota_plays_the_mate_witness :
  is_checkmate mating_world (push (board (tablebase_game mating_world)) "Rh8") = true /\
  "win" = "win" /\ 0 = 0 /\ false = false /\ false = false.
Proof.
  apply (gaviota_plays_the_mate mating_world (tablebase_game mating_world)
           "Rh8" "Rh8" "win" 0 false false (tablebase_game mating_world)).
  - right. left. reflexivity.
  - reflexivity.
  - vm_compute. reflexivity.
Defined.

Lemma gaviota_loop_gap w self moves : forall best move,
  In move moves -> gaviota_probe w self move = None ->
  gaviota_loop w self moves best = None.
Proof.
  induction moves as [|m moves IH]; intros best move Hin Hp; [inversion Hin|].
  cbn [gaviota_loop]. destruct Hin as [-> | Hin].
  - now rewrite Hp.
  - destruct (gaviota_probe w self m) as [[wdl d]|]; [|reflexivity].
    eapply IH; eassumption.
Qed.

Lemma syzygy_loop_gap w self moves : forall best move,
  In move moves -> syzygy_probe w self move = None ->
  syzygy_loop w self moves best = None.
Proof.
  induction moves as [|m moves IH]; intros best move Hin Hp; [inversion Hin|].
  cbn [syzygy_loop]. destruct Hin as [-> | Hin].
  - now rewrite Hp.
  - destruct (syzygy_probe w self m) as [[[wdl d] r]|]; [|reflexivity].
    eapply IH; eassumption.
Qed.

(** X11. A table missing for the position after any one legal move makes
    a selector give up the turn: the Gaviota selector returns no move when
    some legal move neither mates nor has a distance to mate, the Syzygy
    selector when some legal move has no distance to zeroing, whatever the
    other moves are worth; the object is left as it was. *)
Theorem missing_table_declines w self move :
  In move (legal_moves w (board self)) ->
  (is_checkmate w (push (board self) move) = false ->
   probe_dtm w (push (board self) move) = None ->
   _make_gaviota_move w self = Returns None self) /\
  (probe_dtz w (push (board self) move) = None ->
   _make_syzygy_move w self = Returns None self).
Proof.
  intros Hin. split.
  - intros Hc Hp.
    assert (Hg : gaviota_scan w self = None).
    { unfold gaviota_scan. apply (gaviota_loop_gap w self _ _ move Hin).
      unfold gaviota_probe. now rewrite Hc, Hp. }
    unfold _make_gaviota_move, bind, get, ret. rewrite Hg.
    destruct (negb _); [reflexivity|]. now destruct (negb _ || _).
  - intros Hp.
    assert (Hs : syzygy_scan w self = None).
    { unfold syzygy_scan. apply (syzygy_loop_gap w self _ _ move Hin).
      unfold syzygy_probe. now rewrite Hp. }
    unfold _make_syzygy_move, bind, get, ret. rewrite Hs.
    destruct (negb _); [reflexivity|]. now destruct (negb _ || _).
Qed.

Lemma missing_table_declines_witness :
  _make_gaviota_move gap_world (tablebase_game gap_world)
  = Returns None (tablebase_game gap_world) /\
  _make_syzygy_move gap_world (tablebase_game gap_world)
  = Returns None (tablebase_game gap_world).
Proof.
  split.
  - apply (proj1 (missing_table_declines gap_world (tablebase_game gap_world) "Ka6"
                    (or_intror (or_introl eq_refl)))); reflexivity.
  - apply (proj2 (missing_table_declines gap_world (tablebase_game gap_world) "Ka6"
                    (or_intror (or_introl eq_refl)))); reflexivity.
Defined.

(** X12. In a position without legal moves a selector that passes its
    gate raises [IndexError] (the choice from an empty list) instead of
    returning no move; behind its gate it returns no move. *)
Theorem no_legal_move_raises w self :
  legal_moves w (board self) = [] ->
  _make_gaviota_move w self
  = (if gaviota_eligible w self then Raises IndexError else Returns None self) /\
  _make_syzygy_move w self
  = (if syzygy_eligible w self then Raises IndexError else Returns None self).
Proof.
  intros Hl. split.
  - unfold _make_gaviota_move, gaviota_eligible, gaviota_scan, bind, get, ret.
    rewrite Hl. cbn [gaviota_loop best_wdl best_moves].
    destruct (gaviota_enabled (config self)); cbn [negb andb]; [|reflexivity].
    destruct (popcount_occupied w (board self) <=? gaviota_max_pieces (config self));
      cbn [negb andb orb]; [|reflexivity].
    destruct (String.eqb (uci_variant w (board self)) "chess"); reflexivity.
  - unfold _make_syzygy_move, syzygy_eligible, syzygy_scan, bind, get, ret.
    rewrite Hl. cbn [syzygy_loop syzygy_best_wdl syzygy_best_moves].
    destruct (syzygy_enabled (config self) && syzygy_instant_play (config self));
      cbn [negb andb]; [|reflexivity].
    destruct (popcount_occupied w (board self) <=? syzygy_max_pieces (config self));
      cbn [negb andb orb]; [|reflexivity].
    destruct (one_of (uci_variant w (board self)) ["chess"; "antichess"; "atomic"]);
      reflexivity.
Qed.

Lemma no_legal_move_raises_witness :
  _make_gaviota_move (example_world 5 60 [] no_move (fun _ => None) (fun _ => 0) no_move
                        (fun _ => 0%nat))
    (tablebase_game (example_world 5 60 [] no_move (fun _ => None) (fun _ => 0) no_move
                       (fun _ => 0%nat)))
  = Raises IndexError.
Proof.
  exact (proj1 (no_legal_move_raises
                  (example_world 5 60 [] no_move (fun _ => None) (fun _ => 0) no_move
                     (fun _ => 0%nat))
                  (tablebase_game
                     (example_world 5 60 [] no_move (fun _ => None) (fun _ => 0) no_move
                        (fun _ => 0%nat)))
                  eq_refl)).
Defined.

(** X13. With probed distances within the bias of 10000, the Syzygy
    selector prefers to reset the halfmove clock when it wins and avoids
    it when it loses: if the returned move is of a winning class and some
    legal move of that class resets the clock, the returned move resets
    the clock; if it is of a losing class and some legal move of that
    class does not reset the clock, the returned move does not either. *)
Theorem syzygy_resets_the_clock_to_win w self other move outcome dtz
    offer_draw resign self' wdl d d' :
  probes_within w self 10000 ->
  _make_syzygy_move w self
  = Returns (Some (move, outcome, dtz, offer_draw, resign)) self' ->
  In other (legal_moves w (board self)) ->
  syzygy_key w self move = Some (wdl, d) ->
  syzygy_key w self other = Some (wdl, d') ->
  (0 < wdl -> halfmove_clock w (push (board self) other) = 0 ->
   halfmove_clock w (push (board self) move) = 0) /\
  (wdl < 0 -> halfmove_clock w (push (board self) other) <> 0 ->
   halfmove_clock w (push (board self) move) <> 0).
Proof.
  intros Hbound H Hin Kmove Kother.
  apply make_syzygy_move_returns in H.
  destruct H as (_ & best & Hscan & Hmove & _).
  apply (syzygy_best_set w self best Hscan) in Hmove.
  destruct Hmove as (Hlegal & wdl0 & d0 & Kmove' & Hbest).
  rewrite Kmove in Kmove'. inversion Kmove'. subst wdl0 d0. clear Kmove'.
  destruct (Hbest _ _ _ Hin Kother) as [Hlt | [_ Hle]]; [lia|].
  unfold syzygy_key, syzygy_probe in Kmove, Kother.
  pose proof (Hbound move) as Hb1. pose proof (Hbound other) as Hb2.
  destruct (probe_dtz w (push (board self) move)) as [p1|]; [|discriminate Kmove].
  destruct (probe_dtz w (push (board self) other)) as [p2|]; [|discriminate Kother].
  specialize (Hb1 p1 Hlegal eq_refl). specialize (Hb2 p2 Hin eq_refl).
  apply Z.abs_le in Hb1. apply Z.abs_le in Hb2.
  clear Hbound Hbest Hscan best Hlegal Hin.
  cbv zeta in Kmove, Kother.
  remember (halfmove_clock w (push (board self) move)) as c1 eqn:E1.
  remember (halfmove_clock w (push (board self) other)) as c2 eqn:E2.
  clear E1 E2.
  injection Kmove as Hw1 Hd1. injection Kother as Hw2 Hd2.
  destruct (value_to_wdl_sign (- p1) c1) as [P1 N1].
  destruct (value_to_wdl_sign (- p2) c2) as [P2 N2].
  rewrite Hw1 in Hd1, P1, N1. rewrite Hw2 in Hd2, P2, N2. clear Hw1 Hw2.
  rewrite Z.gtb_ltb in Hd1, Hd2.
  destruct (Z.eqb_spec c1 0) as [Z1|Z1]; destruct (Z.eqb_spec c2 0) as [Z2|Z2];
    destruct (Z.ltb_spec wdl 0) as [L|L]; destruct (Z.ltb_spec 0 wdl) as [G|G];
    split; intros; lia.
Qed.

Lemma preference_probes_within : probes_within preference_world preference_game 10000.
Proof.
  intros move probed [<- | [<- | [<- | []]]] H; vm_compute in H; inversion H; lia.
Defined.

Lemma syzygy_resets_the_clock_to_win_witness :
  _make_syzygy_move preference_world preference_game
  = Returns (Some ("c7", "win", 20, false, false)) preference_game /\
  syzygy_real_dtz preference_world preference_game "Kd6" = Some 3 /\
  halfmove_clock preference_world (push (board preference_game) "Kd6") = 5 /\
  (0 < 2 -> halfmove_clock preference_world (push (board preference_game) "c8") = 0 ->
   halfmove_clock preference_world (push (board preference_game) "c7") = 0) /\
  (2 < 0 -> halfmove_clock preference_world (push (board preference_game) "c8") <> 0 ->
   halfmove_clock preference_world (push (board preference_game) "c7") <> 0).
Proof.
  split; [evaluate|]. split; [evaluate|]. split; [evaluate|].
  apply (syzygy_resets_the_clock_to_win preference_world preference_game "c8" "c7" "win"
           20 false false preference_game 2 (-9980) (-9970) preference_probes_within).
  - vm_compute. reflexivity.
  - right. right. left. reflexivity.
  - reflexivity.
  - reflexivity.
Defined.

(** ** First success wins *)

Lemma asks_only_refl own self : asks_only own self self.
Proof. intros source _. reflexivity. Qed.

Lemma asks_only_trans own a b c :
  asks_only own a b -> asks_only own b c -> asks_only own a c.
Proof. intros Hab Hbc source Hs. rewrite (Hbc source Hs). now apply Hab. Qed.

Ltac asks_only_assign :=
  unfold asks_only, queries; cbn;
  let source := fresh "source" in
  let Hs := fresh "Hs" in
  intros source Hs; destruct source; try congruence; try reflexivity;
  apply filter_snoc_false; reflexivity.

Ltac asks_only_steps :=
  match goal with
  | |- keeps (asks_only ?own) _ =>
      keeps_steps (asks_only_refl own) (asks_only_trans own) asks_only_assign
  end.

Section Asks_Only.

Variable w : World.

Lemma select_entry_asks own selection drawn first others :
  keeps (asks_only own) (select_entry selection drawn first others).
Proof. unfold select_entry. asks_only_steps. Qed.

Lemma book_readers_loop_asks readers : keeps (asks_only Book) (book_readers_loop w readers).
Proof.
  induction readers as [|book_reader readers IH]; cbn [book_readers_loop].
  - asks_only_steps.
  - apply (keeps_bind _ (asks_only_trans Book)); [apply (keeps_get _ (asks_only_refl Book))|].
    intros self. apply (keeps_bind _ (asks_only_trans Book)); [asks_only_steps|]. intros _.
    destruct (find_all w book_reader (board self)); [exact IH|].
    apply (keeps_bind _ (asks_only_trans Book)); [apply select_entry_asks|]. intros entry.
    destruct (negb _); [|exact IH]. asks_only_steps.
Qed.

Lemma make_book_move_asks : keeps (asks_only Book) (_make_book_move w).
Proof.
  unfold _make_book_move.
  apply (keeps_bind _ (asks_only_trans Book)); [apply (keeps_get _ (asks_only_refl Book))|].
  intros self. cbv zeta. destruct (negb _); [asks_only_steps|].
  destruct (_ || _); [asks_only_steps|].
  apply (keeps_bind _ (asks_only_trans Book)); [apply book_readers_loop_asks|].
  intros response. asks_only_steps.
Qed.

Lemma make_opening_explorer_move_asks :
  keeps (asks_only Explore) (_make_opening_explorer_move w).
Proof.
  unfold _make_opening_explorer_move, _get_opening_explorer_top_move. asks_only_steps.
Qed.

Lemma make_cloud_move_asks : keeps (asks_only Cloud) (_make_cloud_move w).
Proof. unfold _make_cloud_move. asks_only_steps. Qed.

Lemma make_chessdb_move_asks : keeps (asks_only ChessDB) (_make_chessdb_move w).
Proof. unfold _make_chessdb_move. asks_only_steps. Qed.

Lemma make_gaviota_move_asks : keeps (asks_only Gaviota) (_make_gaviota_move w).
Proof. unfold _make_gaviota_move, random_choice. asks_only_steps. Qed.

Lemma make_syzygy_move_asks : keeps (asks_only Syzygy) (_make_syzygy_move w).
Proof. unfold _make_syzygy_move, random_choice. asks_only_steps. Qed.

Lemma make_egtb_move_asks : keeps (asks_only EGTB) (_make_egtb_move w).
Proof. unfold _make_egtb_move. asks_only_steps. Qed.

Lemma conclude_asks_nothing source move offer_draw resign self response self' :
  conclude source move offer_draw resign self = Returns response self' ->
  asks_nothing self self'.
Proof.
  unfold conclude, play, stop_pondering, start_pondering, asks_nothing, queries.
  destruct source; unfold_monad; cbn;
    destruct (ponder_enabled self) eqn:Ep; cbn;
    try (destruct (len (move_stack (board self)) >? 1) eqn:El; cbn);
    rewrite ?Ep; cbn;
    intros H; inversion H; subst; cbn;
    intros src; destruct src; cbn; rewrite ?filter_app; cbn; rewrite ?app_nil_r;
    reflexivity.
Qed.

Lemma decided_from_after first next own self asked response self' :
  returns_none w own self asked ->
  asks_only own self asked ->
  rank own = first -> next = S first ->
  decided_from next w asked response self' ->
  decided_from first w self response self'.
Proof.
  intros Hnone Hown Hrank Hnext
    (source & s0 & s1 & move & od & rs & Hle & Hdecl & Hun & Ha & Hc).
  exists source, s0, s1, move, od, rs. split; [lia|]. split; [|split; [|auto]].
  - assert (Hchain : sources_between first source = own :: sources_between next source).
    { subst first next. destruct own, source; cbn in Hle; try lia; reflexivity. }
    rewrite Hchain. cbn [all_decline]. exists asked. auto.
  - intros src Hsrc. rewrite (Hun src Hsrc). apply Hown.
    intros ->. lia.
Qed.

Lemma unasked_from_refl first self : unasked_from first self self.
Proof. intros source _. reflexivity. Qed.

Lemma else_engine_decided_from self response self' :
  else_engine w self = Returns response self' -> decided_from 7 w self response self'.
Proof.
  unfold else_engine, bind. intros H.
  destruct (_make_engine_move w self) as [[move info] s1|] eqn:E; [|discriminate].
  exists Engine, self, s1, move, (_is_drawish w s1), (_is_resignable s1).
  split; [reflexivity|]. split; [reflexivity|]. split; [apply unasked_from_refl|].
  split; [exists info; auto|]. exact H.
Qed.

Lemma elif_egtb_decided_from self response self' :
  elif_egtb w self = Returns response self' -> decided_from 6 w self response self'.
Proof.
  unfold elif_egtb, bind. intros H.
  destruct (_make_egtb_move w self) as [[[[[[[move outcome] dtz] dtm] od] rs]|] s1|] eqn:E;
    [| |discriminate].
  - exists EGTB, self, s1, move, od, rs.
    split; [reflexivity|]. split; [reflexivity|]. split; [apply unasked_from_refl|].
    split; [exists outcome, dtz, dtm; exact E|]. exact H.
  - apply (decided_from_after 6 7 EGTB self s1); [exact E| |reflexivity|reflexivity|].
    + eapply make_egtb_move_asks; eassumption.
    + now apply else_engine_decided_from.
Qed.

Lemma elif_syzygy_decided_from self response self' :
  elif_syzygy w self = Returns response self' -> decided_from 5 w self response self'.
Proof.
  unfold elif_syzygy, bind at 1. intros H.
  destruct (_make_syzygy_move w self) as [[[[[[move outcome] dtz] od] rs]|] s1|] eqn:E;
    [| |discriminate].
  - exists Syzygy, self, s1, move, od, rs.
    split; [reflexivity|]. split; [reflexivity|]. split; [apply unasked_from_refl|].
    split; [exists outcome, dtz; exact E|]. exact H.
  - apply (decided_from_after 5 6 Syzygy self s1); [exact E| |reflexivity|reflexivity|].
    + eapply make_syzygy_move_asks; eassumption.
    + now apply elif_egtb_decided_from.
Qed.

Lemma elif_gaviota_decided_from self response self' :
  elif_gaviota w self = Returns response self' -> decided_from 4 w self response self'.
Proof.
  unfold elif_gaviota, bind at 1. intros H.
  destruct (_make_gaviota_move w self) as [[[[[[move outcome] dtm] od] rs]|] s1|] eqn:E;
    [| |discriminate].
  - exists Gaviota, self, s1, move, od, rs.
    split; [reflexivity|]. split; [reflexivity|]. split; [apply unasked_from_refl|].
    split; [exists outcome, dtm; exact E|]. exact H.
  - apply (decided_from_after 4 5 Gaviota self s1); [exact E| |reflexivity|reflexivity|].
    + eapply make_gaviota_move_asks; eassumption.
    + now apply elif_syzygy_decided_from.
Qed.

Lemma elif_chessdb_decided_from self response self' :
  elif_chessdb w self = Returns response self' -> decided_from 3 w self response self'.
Proof.
  unfold elif_chessdb, bind. intros H.
  destruct (_make_chessdb_move w self) as [[move|] s1|] eqn:E; [| |discriminate].
  - exists ChessDB, self, s1, move, false, false.
    split; [reflexivity|]. split; [reflexivity|]. split; [apply unasked_from_refl|].
    split; [split; auto|]. exact H.
  - apply (decided_from_after 3 4 ChessDB self s1); [exact E| |reflexivity|reflexivity|].
    + eapply make_chessdb_move_asks; eassumption.
    + now apply elif_gaviota_decided_from.
Qed.

Lemma elif_cloud_decided_from self response self' :
  elif_cloud w self = Returns response self' -> decided_from 2 w self response self'.
Proof.
  unfold elif_cloud, bind. intros H.
  destruct (_make_cloud_move w self) as [[[[move cp] depth]|] s1|] eqn:E; [| |discriminate].
  - exists Cloud, self, s1, move, false, false.
    split; [reflexivity|]. split; [reflexivity|]. split; [apply unasked_from_refl|].
    split; [exists cp, depth; auto|]. exact H.
  - apply (decided_from_after 2 3 Cloud self s1); [exact E| |reflexivity|reflexivity|].
    + eapply make_cloud_move_asks; eassumption.
    + now apply elif_chessdb_decided_from.
Qed.

Lemma elif_opening_explorer_decided_from self response self' :
  elif_opening_explorer w self = Returns response self' ->
  decided_from 1 w self response self'.
Proof.
  unfold elif_opening_explorer, bind. intros H.
  destruct (_make_opening_explorer_move w self) as [[[[move perf] wdl]|] s1|] eqn:E;
    [| |discriminate].
  - exists Explore, self, s1, move, false, false.
    split; [reflexivity|]. split; [reflexivity|]. split; [apply unasked_from_refl|].
    split; [exists perf, wdl; auto|]. exact H.
  - apply (decided_from_after 1 2 Explore self s1); [exact E| |reflexivity|reflexivity|].
    + eapply make_opening_explorer_move_asks; eassumption.
    + now apply elif_cloud_decided_from.
Qed.

Lemma make_move_decided_from self response self' :
  make_move w self = Returns response self' -> decided_from 0 w self response self'.
Proof.
  unfold make_move, bind. intros H.
  destruct (_make_book_move w self) as [[[[move weight] learn]|] s1|] eqn:E;
    [| |discriminate].
  - exists Book, self, s1, move, false, false.
    split; [lia|]. split; [reflexivity|]. split; [apply unasked_from_refl|].
    split; [exists weight, learn; auto|]. exact H.
  - apply (decided_from_after 0 1 Book self s1); [exact E| |reflexivity|reflexivity|].
    + eapply make_book_move_asks; eassumption.
    + now apply elif_opening_explorer_decided_from.
Qed.

Lemma answers_asks_only source asked move offer_draw resign answered :
  answers w source asked move offer_draw resign answered ->
  asks_only source asked answered.
Proof.
  destruct source; unfold answers.
  - intros (? & ? & H & _). eapply make_book_move_asks; eassumption.
  - intros (? & ? & H & _). eapply make_opening_explorer_move_asks; eassumption.
  - intros (? & ? & H & _). eapply make_cloud_move_asks; eassumption.
  - intros (H & _). eapply make_chessdb_move_asks; eassumption.
  - intros (? & ? & H). eapply make_gaviota_move_asks; eassumption.
  - intros (? & ? & H). eapply make_syzygy_move_asks; eassumption.
  - intros (? & ? & ? & H). eapply make_egtb_move_asks; eassumption.
  - intros (info & H & _) src Hs.
    revert H. unfold _make_engine_move. unfold_monad.
    destruct (if len (move_stack (board asked)) <? 2 then _ else _) as [limit ponder].
    cbn. destruct (engine_play w (board asked) limit ponder) as [[m i]|]; [|discriminate].
    intros H. inversion H. subst. unfold queries. cbn.
    destruct src; try congruence; apply filter_snoc_false; reflexivity.
Qed.

End Asks_Only.

(** X14. The first source that answers decides: in a cycle that returns
    a move, every source before the deciding one in the chain (book,
    opening explorer, cloud, community database, Gaviota, Syzygy, online
    tablebase, engine) was called in turn and returned no move, the
    deciding source answered with the move in the state they left, and
    no query was issued to a later source of those whose queries are
    recorded (all but the two local tablebases). *)
Theorem first_source_to_answer_decides w self move offer_draw resign self' :
  make_move w self = Returns (move, offer_draw, resign) self' ->
  exists source asked,
    last_message self' = Message_of source move /\
    all_decline w (sources_between 0 source) self asked /\
    (exists answered flag_draw flag_resign,
       answers w source asked move flag_draw flag_resign answered) /\
    forall later, recorded later = true -> (rank source < rank later)%nat ->
      queries later self' = queries later self.
Proof.
  intros H. apply make_move_decided_from in H.
  destruct H as (source & s0 & s1 & m & od & rs & _ & Hdecl & Hun & Ha & Hc).
  pose proof (conclude_asks_nothing _ _ _ _ _ _ _ Hc) as Hnothing.
  apply conclude_returns in Hc. destruct Hc as (Hr & _ & Hm & _).
  inversion Hr. subst m.
  exists source, s0. split; [exact Hm|]. split; [exact Hdecl|].
  split; [exists s1, od, rs; exact Ha|].
  intros later _ Hlater. rewrite (Hnothing later).
  rewrite (answers_asks_only w _ _ _ _ _ _ Ha later) by (intros ->; lia).
  apply Hun. lia.
Qed.

Lemma first_source_to_answer_decides_witness :
  exists source asked,
    last_message (state_after (make_move repeating_online_world)
                    (repeating_game [Gaviota; EGTB]))
    = Message_of source "Kb6" /\
    all_decline repeating_online_world (sources_between 0 source)
      (repeating_game [Gaviota; EGTB]) asked /\
    (exists answered flag_draw flag_resign,
       answers repeating_online_world source asked "Kb6" flag_draw flag_resign answered) /\
    forall later, recorded later = true -> (rank source < rank later)%nat ->
      queries later (state_after (make_move repeating_online_world)
                       (repeating_game [Gaviota; EGTB]))
      = queries later (repeating_game [Gaviota; EGTB]).
Proof.
  apply (first_source_to_answer_decides repeating_online_world
           (repeating_game [Gaviota; EGTB]) "Kb6" false false).
  vm_compute. reflexivity.
Defined.

(** ** The miss counters *)

Lemma counters_within_spec self :
  counters_within self <->
  0 <= out_of_book_counter self <= 10 /\
  0 <= out_of_opening_explorer_counter self <= 10 /\
  0 <= out_of_cloud_counter self <= 10 /\
  0 <= out_of_chessdb_counter self <= 10.
Proof.
  unfold counters_within. split.
  - intros H. split; [|split; [|split]].
    + apply (H Book); reflexivity.
    + apply (H Explore); reflexivity.
    + apply (H Cloud); reflexivity.
    + apply (H ChessDB); reflexivity.
  - intros (Hb & He & Hc & Hd) source n Hn.
    destruct source; inversion Hn; subst; assumption.
Qed.

Lemma stays_within_refl self : stays_within self self.
Proof. intros H. exact H. Qed.

Lemma stays_within_trans a b c : stays_within a b -> stays_within b c -> stays_within a c.
Proof. unfold stays_within. auto. Qed.

Lemma counters_kept_refl self : counters_kept self self.
Proof. intros source. reflexivity. Qed.

Lemma counters_kept_trans a b c : counters_kept a b -> counters_kept b c -> counters_kept a c.
Proof. intros Hab Hbc source. rewrite Hbc. apply Hab. Qed.

Lemma counters_kept_within a b : counters_kept a b -> stays_within a b.
Proof. intros Hk Hw source n Hn. rewrite Hk in Hn. eapply Hw; eassumption. Qed.

Lemma keeps_implies {A} (R R' : Lichess_Game -> Lichess_Game -> Prop) (m : M A) :
  (forall a b, R a b -> R' a b) -> keeps R m -> keeps R' m.
Proof. intros Himp Hk self a self' H. apply Himp. eapply Hk; eassumption. Qed.

Ltac counters_kept_assign :=
  let source := fresh "source" in
  unfold counters_kept; intros source; destruct source; reflexivity.

Ltac counters_kept_steps :=
  keeps_steps counters_kept_refl counters_kept_trans counters_kept_assign.

Ltac guards :=
  repeat match goal with
         | E : _ || _ = false |- _ => apply Bool.orb_false_iff in E; destruct E
         | E : (_ >=? _) = false |- _ => rewrite Z.geb_leb in E; apply Z.leb_gt in E
         end.

Ltac stays_within_run :=
  let self := fresh "self" in
  let r := fresh "r" in
  let self' := fresh "self'" in
  let H := fresh "H" in
  intros self r self' H;
  unfold _reduce_own_time in *; run_in H; inversion H; subst; guards;
  unfold stays_within; rewrite !counters_within_spec; cbn; intros; lia.

Section Counters.

Variable w : World.

Lemma select_entry_pure selection drawn first others self entry self' :
  select_entry selection drawn first others self = Returns entry self' -> self' = self.
Proof. unfold select_entry. intros H. run_in H; inversion H; reflexivity. Qed.

(** The loop over the readers touches the counter of the book only when it
    answers, and then resets it. *)
Lemma book_readers_loop_counters readers : forall self r self',
  book_readers_loop w readers self = Returns r self' ->
  out_of_opening_explorer_counter self' = out_of_opening_explorer_counter self /\
  out_of_cloud_counter self' = out_of_cloud_counter self /\
  out_of_chessdb_counter self' = out_of_chessdb_counter self /\
  out_of_book_counter self'
  = match r with Some _ => 0 | None => out_of_book_counter self end.
Proof.
  induction readers as [|book_reader readers IH]; intros self r self' H;
    cbn [book_readers_loop] in H.
  - unfold_monad. inversion H. auto.
  - unfold bind at 1 2, get, call, modify in H.
    destruct (find_all w book_reader (board self)) as [|first others].
    + apply IH in H. cbn in H. exact H.
    + unfold bind at 1 in H.
      destruct (select_entry _ _ first others _) as [entry s|] eqn:Es; [|discriminate].
      apply select_entry_pure in Es. subst s.
      destruct (negb _).
      * unfold_monad. destruct (sum_weights (first :: others) =? 0); [discriminate|].
        inversion H. subst. cbn. auto.
      * apply IH in H. cbn in H. exact H.
Qed.

Lemma make_book_move_counters self r self' :
  _make_book_move w self = Returns r self' ->
  out_of_opening_explorer_counter self' = out_of_opening_explorer_counter self /\
  out_of_cloud_counter self' = out_of_cloud_counter self /\
  out_of_chessdb_counter self' = out_of_chessdb_counter self /\
  out_of_book_counter self'
  = match r with
    | Some _ => 0
    | None =>
        if negb (opening_books_enabled (config self))
           || (out_of_book_counter self >=? 10)
           || reaches (ply w (board self)) (opening_books_max_depth (config self))
        then out_of_book_counter self
        else out_of_book_counter self + 1
    end.
Proof.
  unfold _make_book_move. unfold bind at 1, get. cbv zeta. intros H.
  destruct (negb (opening_books_enabled (config self))); cbn [orb].
  { unfold_monad. inversion H. auto. }
  destruct (_ || _).
  { unfold_monad. inversion H. auto. }
  unfold bind at 1 in H.
  destruct (book_readers_loop w (book_readers self) self) as [[found|] s|] eqn:El;
    [| |discriminate].
  - apply book_readers_loop_counters in El. unfold_monad. inversion H. subst. exact El.
  - apply book_readers_loop_counters in El. unfold_monad. inversion H. subst. cbn.
    destruct El as (E1 & E2 & E3 & E4). rewrite E4. auto.
Qed.

Lemma make_book_move_within : keeps stays_within (_make_book_move w).
Proof.
  intros self r self' H. apply make_book_move_counters in H.
  destruct H as (E1 & E2 & E3 & E4).
  unfold stays_within. rewrite !counters_within_spec. rewrite E1, E2, E3, E4.
  intros (Hb & Hrest). split; [|exact Hrest].
  destruct r; [lia|].
  destruct (negb _); cbn [orb]; [lia|].
  destruct (out_of_book_counter self >=? 10) eqn:E; cbn [orb]; [lia|].
  rewrite Z.geb_leb in E. apply Z.leb_gt in E.
  destruct (reaches _ _); lia.
Qed.

Lemma make_opening_explorer_move_within :
  keeps stays_within (_make_opening_explorer_move w).
Proof.
  unfold _make_opening_explorer_move, _get_opening_explorer_top_move. stays_within_run.
Qed.

Lemma make_cloud_move_within : keeps stays_within (_make_cloud_move w).
Proof. unfold _make_cloud_move. stays_within_run. Qed.

Lemma make_chessdb_move_within : keeps stays_within (_make_chessdb_move w).
Proof. unfold _make_chessdb_move. stays_within_run. Qed.

Lemma make_egtb_move_within : keeps stays_within (_make_egtb_move w).
Proof.
  apply (keeps_implies counters_kept); [exact counters_kept_within|].
  unfold _make_egtb_move. counters_kept_steps.
Qed.

Lemma make_gaviota_move_within : keeps stays_within (_make_gaviota_move w).
Proof.
  apply (keeps_implies counters_kept); [exact counters_kept_within|].
  unfold _make_gaviota_move, random_choice. counters_kept_steps.
Qed.

Lemma make_syzygy_move_within : keeps stays_within (_make_syzygy_move w).
Proof.
  apply (keeps_implies counters_kept); [exact counters_kept_within|].
  unfold _make_syzygy_move, random_choice. counters_kept_steps.
Qed.

Lemma make_engine_move_within : keeps stays_within (_make_engine_move w).
Proof.
  apply (keeps_implies counters_kept); [exact counters_kept_within|].
  unfold _make_engine_move. counters_kept_steps.
Qed.

Lemma stop_pondering_within : keeps stays_within stop_pondering.
Proof.
  apply (keeps_implies counters_kept); [exact counters_kept_within|].
  unfold stop_pondering. counters_kept_steps.
Qed.

Lemma play_within source move offer_draw resign engine_move :
  keeps stays_within (play source move offer_draw resign engine_move).
Proof.
  apply (keeps_implies counters_kept); [exact counters_kept_within|].
  unfold play, start_pondering. counters_kept_steps.
Qed.

Lemma make_move_within : keeps stays_within (make_move w).
Proof.
  apply (make_move_keeps stays_within stays_within_refl stays_within_trans w).
  - exact make_book_move_within.
  - exact make_opening_explorer_move_within.
  - exact make_cloud_move_within.
  - exact make_chessdb_move_within.
  - exact make_gaviota_move_within.
  - exact make_syzygy_move_within.
  - exact make_egtb_move_within.
  - exact make_engine_move_within.
  - exact stop_pondering_within.
  - exact play_within.
Qed.

End Counters.

Lemma update_counters gameState_event : keeps counters_kept (update gameState_event).
Proof. unfold update. counters_kept_steps. Qed.

(** X15. The miss counters never leave the range 0..10: from the object
    [__init__] builds, through any sequence of decision cycles and game
    states, the counters of the book, the opening explorer, the cloud and
    the community database stay between 0 and 10, so a source is out
    exactly when its counter is 10. *)
Theorem miss_counters_stay_within_ten (w : World) (username : string) (readers : list nat)
    (gameFull_event : GameFull_Event) (cfg : Config) (self' : Lichess_Game)
    (source : Source) (n : Z) :
  steps (__init__ w username readers gameFull_event cfg) self' ->
  counter source self' = Some n ->
  0 <= n <= 10 /\ (out_of source self' <-> n = 10).
Proof.
  intros Hsteps.
  assert (H : counters_within self').
  { remember (__init__ w username readers gameFull_event cfg) as start eqn:Hstart.
    induction Hsteps as [s | s s' s'' _ IH Hstep].
    - subst s. apply counters_within_spec. cbn. lia.
    - specialize (IH Hstart).
      destruct Hstep as [w' a r a' Hm | ev a ch a' Hu].
      + exact (make_move_within w' _ _ _ Hm IH).
      + exact (counters_kept_within _ _ (update_counters ev _ _ _ Hu) IH). }
  intros Hn. pose proof (H source n Hn) as Hrange. split; [exact Hrange|].
  unfold out_of. split.
  - intros (m & Hm & Hle). rewrite Hn in Hm. inversion Hm. lia.
  - intros ->. exists 10. split; [exact Hn | lia].
Qed.

Lemma miss_counters_stay_within_ten_witness :
  0 <= 1 <= 10 /\
  (out_of Cloud
     (state_after (make_move stubborn_cloud_world)
        (__init__ stubborn_cloud_world "bot" [] (example_event ["Ka5"; "Kc8"] 300000)
           (example_config [Cloud] true)))
   <-> 1 = 10).
Proof.
  apply (miss_counters_stay_within_ten stubborn_cloud_world "bot" []
           (example_event ["Ka5"; "Kc8"] 300000) (example_config [Cloud] true)
           _ Cloud 1).
  - eapply steps_more; [apply steps_none|].
    apply (step_make_move stubborn_cloud_world _
             (fst (match make_move stubborn_cloud_world
                           (__init__ stubborn_cloud_world "bot" []
                              (example_event ["Ka5"; "Kc8"] 300000)
                              (example_config [Cloud] true))
                   with Returns r _ => (r, tt) | Raises _ => (("", false, false), tt) end))).
    vm_compute. reflexivity.
  - vm_compute. reflexivity.
Defined.

Section Counter_Dynamics.

Variable w : World.

Ltac answered_run :=
  let H := fresh "H" in
  intros H; unfold _reduce_own_time in *; run_in H; inversion H; subst; reflexivity.

Lemma make_opening_explorer_move_resets self answer self' :
  _make_opening_explorer_move w self = Returns (Some answer) self' ->
  out_of_opening_explorer_counter self' = 0.
Proof.
  unfold _make_opening_explorer_move, _get_opening_explorer_top_move. answered_run.
Qed.

Lemma make_cloud_move_resets self answer self' :
  _make_cloud_move w self = Returns (Some answer) self' -> out_of_cloud_counter self' = 0.
Proof. unfold _make_cloud_move. answered_run. Qed.

Lemma make_chessdb_move_resets self answer self' :
  _make_chessdb_move w self = Returns (Some answer) self' -> out_of_chessdb_counter self' = 0.
Proof. unfold _make_chessdb_move. answered_run. Qed.

Ltac world_projections' H :=
  unfold unguarded, with_is_repetition, _is_repetition, _has_time in H;
  cbn [legal_moves is_checkmate is_repetition halfmove_clock fullmove_number ply turn
       popcount_occupied uci_variant find_all probe_dtm probe_dtz get_opening_explorer
       get_cloud_eval get_chessdb_eval get_egtb engine_play random] in H.

Ltac restarted H Hrep :=
  world_projections' H; unfold _is_repetition, _has_time in *;
  run_in H; inversion H; subst;
  cbv beta iota zeta;
  match goal with
  | |- context [negb (is_repetition w ?b 2)] =>
      replace (is_repetition w b 2) with true by (symmetry; exact Hrep)
  end;
  cbn [negb]; cbv beta iota zeta; eexists; split; reflexivity.

Lemma make_cloud_move_restarts self move cp_score depth self' :
  _make_cloud_move (unguarded w) self = Returns (Some (move, cp_score, depth)) self' ->
  _is_repetition w self move = true ->
  exists self'', _make_cloud_move w self = Returns None self'' /\
                 counter Cloud self'' = Some 1.
Proof.
  unfold _make_cloud_move, _reduce_own_time. intros H Hrep. restarted H Hrep.
Qed.

Lemma make_chessdb_move_restarts self move self' :
  _make_chessdb_move (unguarded w) self = Returns (Some move) self' ->
  _is_repetition w self move = true ->
  exists self'', _make_chessdb_move w self = Returns None self'' /\
                 counter ChessDB self'' = Some 1.
Proof.
  unfold _make_chessdb_move, _reduce_own_time. intros H Hrep. restarted H Hrep.
Qed.

Lemma make_opening_explorer_move_restarts self move performance wdl self' :
  _make_opening_explorer_move (unguarded w) self
  = Returns (Some (move, performance, wdl)) self' ->
  _is_repetition w self move = true ->
  exists self'', _make_opening_explorer_move w self = Returns None self'' /\
                 counter Explore self'' = Some 1.
Proof.
  unfold _make_opening_explorer_move, _get_opening_explorer_top_move, _reduce_own_time.
  intros H Hrep.
  change (with_wins_and_losses (unguarded w)) with (with_wins_and_losses w) in H.
  change (win_rate (unguarded w)) with (win_rate w) in H.
  restarted H Hrep.
Qed.

End Counter_Dynamics.

(** X16. An answer resets the count of misses: when the book, the opening
    explorer, the cloud or the community database answers with a move, its
    miss counter is 0 afterwards, whatever it was. *)
Theorem answer_resets_the_miss_counter (w : World) (source : Source)
    (self answered : Lichess_Game) (move : Move) (offer_draw resign : bool) :
  guarded source = true ->
  answers w source self move offer_draw resign answered ->
  counter source answered = Some 0.
Proof.
  intros Hg Ha. destruct source; try discriminate Hg; unfold answers in Ha; cbn [counter].
  - destruct Ha as (weight & learn & H & _).
    apply make_book_move_counters in H. destruct H as (_ & _ & _ & H). now rewrite H.
  - destruct Ha as (? & ? & H & _).
    apply make_opening_explorer_move_resets in H. now rewrite H.
  - destruct Ha as (? & ? & H & _). apply make_cloud_move_resets in H. now rewrite H.
  - destruct Ha as (H & _). apply make_chessdb_move_resets in H. now rewrite H.
Qed.

Lemma answer_resets_the_miss_counter_witness :
  counter Cloud (state_after (_make_cloud_move cloud_world)
                   (set_out_of_cloud_counter 7 (repeating_game [Cloud])))
  = Some 0.
Proof.
  apply (answer_resets_the_miss_counter cloud_world Cloud
           (set_out_of_cloud_counter 7 (repeating_game [Cloud])) _ "Ka6" false false).
  - reflexivity.
  - exists 15, 30. split_all; evaluate.
Defined.

(** X17. A candidate of a remote source that the repetition guard
    rejects restarts the count instead of adding to it: when the answer of
    the opening explorer, the cloud or the community database passes its
    thresholds and would be played but for the guard, the source returns
    no move and its miss counter is 1 afterwards, whatever it was before. *)
Theorem rejected_candidate_restarts_the_count (w : World) (source : Source)
    (self answered : Lichess_Game) (move : Move) (offer_draw resign : bool) :
  guarded source = true ->
  source <> Book ->
  answers (unguarded w) source self move offer_draw resign answered ->
  _is_repetition w self move = true ->
  exists self', declines w source self self' /\ counter source self' = Some 1.
Proof.
  intros Hg Hs Ha Hrep.
  destruct source; try discriminate Hg; try congruence;
    unfold answers in Ha; cbn [declines].
  - destruct Ha as (? & ? & H & _).
    eapply make_opening_explorer_move_restarts; eassumption.
  - destruct Ha as (? & ? & H & _). eapply make_cloud_move_restarts; eassumption.
  - destruct Ha as (H & _). eapply make_chessdb_move_restarts; eassumption.
Qed.

Lemma rejected_candidate_restarts_the_count_witness :
  exists self',
    declines stubborn_cloud_world Cloud stubborn_cloud_game self' /\
    counter Cloud self' = Some 1.
Proof.
  apply (rejected_candidate_restarts_the_count stubborn_cloud_world Cloud
           stubborn_cloud_game
           (state_after (_make_cloud_move (unguarded stubborn_cloud_world))
              stubborn_cloud_game)
           "Kb6" false false).
  - reflexivity.
  - discriminate.
  - exists 15, 30. split_all; evaluate.
  - evaluate.
Defined.

Lemma book_readers_loop_reads_every_reader w readers : forall self self',
  book_readers_loop w readers self = Returns None self' ->
  queries Book self'
  = queries Book self ++ map (fun reader => Book_find_all reader (board self)) readers.
Proof.
  induction readers as [|book_reader readers IH]; intros self self' H;
    cbn [book_readers_loop] in H.
  - unfold_monad. inversion H. cbn. now rewrite app_nil_r.
  - unfold bind at 1 2, get, call, modify in H.
    assert (Hnext : book_readers_loop w readers
                      (set_calls (calls self ++ [Book_find_all book_reader (board self)]) self)
                    = Returns None self').
    { destruct (find_all w book_reader (board self)) as [|first others]; [exact H|].
      unfold bind at 1 in H.
      destruct (select_entry _ _ first others _) as [entry s|] eqn:Es; [|discriminate].
      apply select_entry_pure in Es. subst s.
      destruct (negb _); [|exact H].
      unfold_monad. destruct (sum_weights (first :: others) =? 0); discriminate. }
    apply IH in Hnext. rewrite Hnext. cbn [map board set_calls].
    unfold queries at 1. cbn [calls set_calls].
    rewrite filter_snoc_true by reflexivity.
    rewrite <- app_assoc. reflexivity.
Qed.

Lemma make_book_move_reads_every_reader w self self' :
  _make_book_move w self = Returns None self' ->
  book_eligible w self = true ->
  queries Book self'
  = queries Book self
    ++ map (fun reader => Book_find_all reader (board self)) (book_readers self).
Proof.
  unfold _make_book_move, book_eligible. unfold bind at 1, get. cbv zeta. intros H He.
  apply andb_prop in He. destruct He as [He Hdeep].
  apply andb_prop in He. destruct He as [Hen Hout].
  rewrite Hen in H. cbn [negb] in H.
  apply Bool.negb_true_iff in Hout, Hdeep. rewrite Hout, Hdeep in H. cbn [orb] in H.
  unfold bind at 1 in H.
  destruct (book_readers_loop w (book_readers self) self) as [[found|] s|] eqn:El;
    [| |discriminate].
  - unfold_monad. discriminate.
  - apply book_readers_loop_reads_every_reader in El.
    unfold_monad. inversion H. subst. exact El.
Qed.

(** X18. A miss of the book counts once per cycle, and a candidate the
    guard rejects does not reset the count: when the book is enabled, not
    out and the game not too deep, and no reader yields a move that may be
    played, the counter is one more than before, however many readers were
    read; when its gate is closed the counter is left as it was. *)
Theorem book_miss_counts_once (w : World) (self self' : Lichess_Game) :
  _make_book_move w self = Returns None self' ->
  out_of_book_counter self'
  = (if book_eligible w self then out_of_book_counter self + 1
     else out_of_book_counter self) /\
  (book_eligible w self = true ->
   queries Book self'
   = queries Book self
     ++ map (fun reader => Book_find_all reader (board self)) (book_readers self)).
Proof.
  intros H. split.
  - apply make_book_move_counters in H. destruct H as (_ & _ & _ & H). rewrite H.
    unfold book_eligible.
    destruct (opening_books_enabled (config self)); cbn [negb orb andb]; [|reflexivity].
    destruct (out_of_book_counter self >=? 10); cbn [negb orb andb]; [reflexivity|].
    destruct (reaches _ _); reflexivity.
  - intros He. eapply make_book_move_reads_every_reader; eassumption.
Qed.

Lemma book_miss_counts_once_witness :
  out_of_book_counter
    (state_after (_make_book_move repeating_book_world) repeating_book_game_after_misses)
  = (if book_eligible repeating_book_world repeating_book_game_after_misses
     then out_of_book_counter repeating_book_game_after_misses + 1
     else out_of_book_counter repeating_book_game_after_misses) /\
  (book_eligible repeating_book_world repeating_book_game_after_misses = true ->
   queries Book
     (state_after (_make_book_move repeating_book_world) repeating_book_game_after_misses)
   = queries Book repeating_book_game_after_misses
     ++ map (fun reader => Book_find_all reader (board repeating_book_game_after_misses))
          (book_readers repeating_book_game_after_misses)).
Proof.
  apply (book_miss_counts_once repeating_book_world repeating_book_game_after_misses).
  vm_compute. reflexivity.
Defined.

(** ** Gates of the remote sources *)

Lemma has_time_spec min_time self :
  _has_time min_time self = true <->
  len (move_stack (board self)) < 2 \/ min_time * 1000 <= own_time self.
Proof.
  unfold _has_time, own_time.
  destruct (len (move_stack (board self)) <? 2) eqn:El.
  - apply Z.ltb_lt in El. tauto.
  - apply Z.ltb_ge in El.
    destruct (is_white self); rewrite Z.geb_le; split; auto; intros [H|H]; auto; lia.
Qed.

Lemma has_time_short min_time self :
  2 <= len (move_stack (board self)) ->
  own_time self < min_time * 1000 ->
  _has_time min_time self = false.
Proof.
  intros Hl Ht. destruct (_has_time min_time self) eqn:E; [|reflexivity].
  apply has_time_spec in E. lia.
Qed.

(** X19. Short of time, no remote source is asked: from the third ply on,
    when the own clock is below the minimum configured for the opening
    explorer, the cloud, the community database or the online tablebase,
    that source returns no move and leaves the object as it was: no
    query, no miss counted, no time charged.  In the first two plies the
    clock is not looked at. *)
Theorem short_of_time_skips_remote_sources (w : World) (self : Lichess_Game) :
  (2 <= len (move_stack (board self)) ->
   (own_time self < opening_explorer_min_time (config self) * 1000 ->
    _make_opening_explorer_move w self = Returns None self) /\
   (own_time self < lichess_cloud_min_time (config self) * 1000 ->
    _make_cloud_move w self = Returns None self) /\
   (own_time self < chessdb_min_time (config self) * 1000 ->
    _make_chessdb_move w self = Returns None self) /\
   (own_time self < online_egtb_min_time (config self) * 1000 ->
    _make_egtb_move w self = Returns None self)) /\
  (len (move_stack (board self)) < 2 ->
   forall min_time, _has_time min_time self = true).
Proof.
  split.
  - intros Hl. split_all; intros Ht; apply has_time_short in Ht; try exact Hl.
    + unfold _make_opening_explorer_move, bind, get. cbv zeta. rewrite Ht.
      cbn [negb]. rewrite !Bool.orb_true_r. cbn [orb].
      destruct (negb _); reflexivity.
    + unfold _make_cloud_move, bind, get. cbv zeta. rewrite Ht.
      cbn [negb]. rewrite !Bool.orb_true_r. cbn [orb].
      destruct (negb _); reflexivity.
    + unfold _make_chessdb_move, bind, get. cbv zeta. rewrite Ht.
      cbn [negb]. rewrite !Bool.orb_true_r. cbn [orb].
      destruct (negb _); reflexivity.
    + unfold _make_egtb_move, bind, get. cbv zeta. rewrite Ht.
      cbn [negb]. rewrite !Bool.orb_true_r. cbn [orb].
      destruct (negb _); reflexivity.
  - intros Hl min_time. apply has_time_spec. left. exact Hl.
Qed.

Lemma short_of_time_skips_remote_sources_witness :
  _make_cloud_move repeating_online_world hurried_game = Returns None hurried_game /\
  _make_egtb_move repeating_online_world hurried_game = Returns None hurried_game.
Proof.
  pose proof (proj1 (short_of_time_skips_remote_sources repeating_online_world hurried_game))
    as H.
  assert (Hl : 2 <= len (move_stack (board hurried_game))) by (vm_compute; discriminate).
  destruct (H Hl) as (_ & Hcloud & _ & Hegtb).
  split; [apply Hcloud | apply Hegtb]; vm_compute; reflexivity.
Defined.

Lemma make_chessdb_move_gate w self move self' :
  _make_chessdb_move w self = Returns (Some move) self' ->
  uci_variant w (board self) = "chess" /\ 7 < popcount_occupied w (board self).
Proof.
  unfold _make_chessdb_move. unfold bind at 1, get. cbv zeta. intros H.
  destruct (negb (chessdb_enabled (config self))); [discriminate H|].
  destruct (_ || _) eqn:E; [discriminate H|].
  apply Bool.orb_false_iff in E. destruct E as [E Hend].
  apply Bool.orb_false_iff in E. destruct E as [_ Hvar].
  apply Bool.negb_false_iff, String.eqb_eq in Hvar.
  apply Z.leb_gt in Hend. auto.
Qed.

Lemma make_egtb_move_gate w self answer self' :
  _make_egtb_move w self = Returns (Some answer) self' ->
  popcount_occupied w (board self)
  <= (if String.eqb (uci_variant w (board self)) "chess" then 7 else 6).
Proof.
  unfold _make_egtb_move. unfold bind at 1, get. cbv zeta. intros H.
  destruct (negb (online_egtb_enabled (config self))); [discriminate H|].
  destruct (_ || _) eqn:E; [discriminate H|].
  apply Bool.orb_false_iff in E. destruct E as [E _].
  apply Bool.orb_false_iff in E. destruct E as [Hend _].
  apply Bool.negb_false_iff, Z.leb_le in Hend. exact Hend.
Qed.

Lemma make_chessdb_move_closed w self :
  uci_variant w (board self) <> "chess" \/ popcount_occupied w (board self) <= 7 ->
  _make_chessdb_move w self = Returns None self.
Proof.
  intros Hc. unfold _make_chessdb_move, bind, get. cbv zeta.
  destruct (negb (chessdb_enabled (config self))); [reflexivity|].
  assert (E : negb (String.eqb (uci_variant w (board self)) "chess")
              || (popcount_occupied w (board self) <=? 7) = true).
  { destruct Hc as [Hv|Hp].
    - apply String.eqb_neq in Hv. rewrite Hv. reflexivity.
    - apply Z.leb_le in Hp. rewrite Hp. apply Bool.orb_true_r. }
  rewrite <- !Bool.orb_assoc. rewrite E. rewrite !Bool.orb_true_r. reflexivity.
Qed.

Lemma make_egtb_move_closed w self :
  (if String.eqb (uci_variant w (board self)) "chess" then 7 else 6)
  < popcount_occupied w (board self) ->
  _make_egtb_move w self = Returns None self.
Proof.
  intros Hc. unfold _make_egtb_move, bind, get. cbv zeta.
  destruct (negb (online_egtb_enabled (config self))); [reflexivity|].
  apply Z.leb_gt in Hc. rewrite Hc. reflexivity.
Qed.

(** X20. The community database and the online tablebase split the
    positions between them: on a position where one of them answers with
    a move, the gate of the other is closed, so that it returns no move
    without a query, whatever its configuration.  The database needs
    standard chess with more than 7 men, the tablebase at most 7 men (6 in
    a variant). *)
Theorem chessdb_and_egtb_split_the_positions (w : World) (a b : Lichess_Game) :
  board a = board b ->
  (forall move a', _make_chessdb_move w a = Returns (Some move) a' ->
                   _make_egtb_move w b = Returns None b) /\
  (forall answer b', _make_egtb_move w b = Returns (Some answer) b' ->
                     _make_chessdb_move w a = Returns None a).
Proof.
  intros Hb. split.
  - intros move a' H. apply make_chessdb_move_gate in H. destruct H as [Hv Hp].
    apply make_egtb_move_closed. rewrite <- Hb, Hv. cbn. exact Hp.
  - intros answer b' H. apply make_egtb_move_gate in H.
    apply make_chessdb_move_closed. rewrite Hb.
    destruct (String.eqb (uci_variant w (board b)) "chess") eqn:E.
    + right. exact H.
    + left. now apply String.eqb_neq.
Qed.

Lemma chessdb_and_egtb_split_the_positions_witness :
  _make_egtb_move (crowded_world 12) (crowded_game 12) = Returns None (crowded_game 12) /\
  _make_chessdb_move (crowded_world 6) (crowded_game 6) = Returns None (crowded_game 6).
Proof.
  split.
  - apply (proj1 (chessdb_and_egtb_split_the_positions (crowded_world 12)
                    (crowded_game 12) (crowded_game 12) eq_refl)
             "Ka6" (state_after (_make_chessdb_move (crowded_world 12)) (crowded_game 12))).
    vm_compute. reflexivity.
  - apply (proj2 (chessdb_and_egtb_split_the_positions (crowded_world 6)
                    (crowded_game 6) (crowded_game 6) eq_refl)
             ("Kb6", "win", 3, Some 3, false, false)
             (state_after (_make_egtb_move (crowded_world 6)) (crowded_game 6))).
    vm_compute. reflexivity.
Defined.

(** ** The opening explorer *)

(** [max] with a key returns the first of the elements whose key none
    exceeds, for a comparison that behaves as a total preorder. *)
Section Max_By.

Context {A K : Type} (gt : K -> K -> bool) (key : A -> K).
Hypothesis le_trans : forall a b c, gt a b = false -> gt b c = false -> gt a c = false.
Hypothesis lt_le : forall a b, gt b a = true -> gt a b = false.
Hypothesis lt_le_trans : forall a b c, gt b a = true -> gt b c = false -> gt c a = true.
Hypothesis le_lt_trans : forall a b c, gt a b = false -> gt c b = true -> gt c a = true.
Hypothesis le_refl : forall a, gt a a = false.

Lemma max_by_greatest l : forall x y,
  In y (x :: l) -> gt (key y) (key (max_by gt key x l)) = false.
Proof.
  induction l as [|z l IH]; intros x y Hy; cbn [max_by].
  - destruct Hy as [<-|[]]. apply le_refl.
  - destruct (gt (key z) (key x)) eqn:E.
    + destruct Hy as [<-|Hy]; [|now apply IH].
      apply (le_trans _ (key z)); [now apply lt_le|].
      apply IH. now left.
    + destruct Hy as [<-|[<-|Hy]].
      * apply IH. now left.
      * apply (le_trans _ (key x)); [exact E|]. apply IH. now left.
      * apply IH. now right.
Qed.

Lemma max_by_first l : forall x,
  exists before after,
    x :: l = before ++ max_by gt key x l :: after /\
    forall y, In y before -> gt (key (max_by gt key x l)) (key y) = true.
Proof.
  induction l as [|z l IH]; intros x; cbn [max_by].
  - exists [], []. split; [reflexivity|]. intros y [].
  - destruct (gt (key z) (key x)) eqn:E.
    + destruct (IH z) as (before & after & Heq & Hlt).
      exists (x :: before), after. split; [cbn; now rewrite <- Heq|].
      intros y [<-|Hy]; [|now apply Hlt].
      apply (lt_le_trans _ (key z)); [exact E|].
      apply max_by_greatest. now left.
    + destruct (IH x) as (before & after & Heq & Hlt).
      destruct before as [|b before].
      * cbn in Heq. injection Heq as Hx Hl.
        exists [], (z :: l). split; [cbn; now rewrite <- Hx|]. intros y [].
      * cbn in Heq. injection Heq as Hx Hl. subst b.
        exists (x :: z :: before), after. split; [cbn; now rewrite <- Hl|].
        intros y [<-|[<-|Hy]].
        -- apply Hlt. now left.
        -- apply (le_lt_trans _ (key x)); [exact E|]. apply Hlt. now left.
        -- apply Hlt. now right.
Qed.

End Max_By.

Lemma Qgtb_false a b : Qgtb a b = false <-> (a <= b)%Q.
Proof.
  unfold Qgtb. rewrite Bool.negb_false_iff. apply Qle_bool_iff.
Qed.

Lemma Qgtb_true a b : Qgtb a b = true <-> (b < a)%Q.
Proof.
  unfold Qgtb. rewrite Bool.negb_true_iff. split.
  - intros H. apply Qnot_le_lt. intros Hle. apply Qle_bool_iff in Hle. congruence.
  - intros H. destruct (Qle_bool a b) eqn:E; [|reflexivity].
    apply Qle_bool_iff in E. exfalso. exact (Qlt_not_le _ _ H E).
Qed.

Lemma max_by_Z {A} (key : A -> Z) first others :
  exists before after,
    first :: others = before ++ max_by Z.gtb key first others :: after /\
    (forall other, In other (first :: others) ->
       key other <= key (max_by Z.gtb key first others)) /\
    (forall other, In other before -> key other < key (max_by Z.gtb key first others)).
Proof.
  assert (Hf : forall a b, (a >? b) = false <-> a <= b).
  { intros a b. rewrite Z.gtb_ltb. apply Z.ltb_ge. }
  assert (Ht : forall a b, (a >? b) = true <-> b < a).
  { intros a b. rewrite Z.gtb_ltb. apply Z.ltb_lt. }
  destruct (max_by_first Z.gtb key) with (x := first) (l := others)
    as (before & after & Heq & Hlt).
  - intros a b c. rewrite !Hf. lia.
  - intros a b. rewrite Ht, Hf. lia.
  - intros a b c. rewrite !Ht, Hf. lia.
  - intros a b c. rewrite !Ht, Hf. lia.
  - intros a. rewrite Hf. lia.
  - exists before, after. split; [exact Heq|]. split.
    + intros other Hin. apply Hf. apply max_by_greatest; auto.
      * intros a b c. rewrite !Hf. lia.
      * intros a b. rewrite Ht, Hf. lia.
      * intros a. rewrite Hf. lia.
    + intros other Hin. apply Ht. now apply Hlt.
Qed.

Lemma max_by_win_rate (rate : Explorer_Move -> Q) first others :
  exists before after,
    first :: others = before ++ max_by Qgtb rate first others :: after /\
    (forall other, In other (first :: others) ->
       (rate other <= rate (max_by Qgtb rate first others))%Q) /\
    (forall other, In other before ->
       (rate other < rate (max_by Qgtb rate first others))%Q).
Proof.
  destruct (max_by_first Qgtb rate) with (x := first) (l := others)
    as (before & after & Heq & Hlt).
  - intros a b c. rewrite !Qgtb_false. apply Qle_trans.
  - intros a b. rewrite Qgtb_true, Qgtb_false. apply Qlt_le_weak.
  - intros a b c. rewrite !Qgtb_true, Qgtb_false. apply Qlt_le_trans.
  - intros a b c. rewrite !Qgtb_true, Qgtb_false. apply Qle_lt_trans.
  - intros a. rewrite Qgtb_false. apply Qle_refl.
  - exists before, after. split; [exact Heq|]. split.
    + intros other Hin. apply Qgtb_false. apply max_by_greatest; auto.
      * intros a b c. rewrite !Qgtb_false. apply Qle_trans.
      * intros a b. rewrite Qgtb_true, Qgtb_false. apply Qlt_le_weak.
      * intros a. rewrite Qgtb_false. apply Qle_refl.
    + intros other Hin. apply Qgtb_true. now apply Hlt.
Qed.

Lemma get_opening_explorer_top_move_returns w self moves state top self' :
  _get_opening_explorer_top_move w self moves state = Returns top self' ->
  self' = state /\
  exists before move after,
    moves = before ++ move :: after /\
    top = with_wins_and_losses w self move /\
    if String.eqb (opening_explorer_selection (config self)) "win_rate" then
      (forall other, In other moves -> games other <> 0) /\
      (forall other, In other moves -> (win_rate w self other <= win_rate w self move)%Q) /\
      (forall other, In other before -> (win_rate w self other < win_rate w self move)%Q)
    else
      (forall other, In other moves -> em_performance other <= em_performance move) /\
      (forall other, In other before -> em_performance other < em_performance move).
Proof.
  unfold _get_opening_explorer_top_move. destruct moves as [|first others]; [discriminate|].
  destruct (String.eqb _ "win_rate").
  - destruct (existsb _ _) eqn:Ez; [discriminate|].
    unfold ret. intros H. inversion H. subst. split; [reflexivity|].
    destruct (max_by_win_rate (win_rate w self) first others)
      as (before & after & Heq & Hle & Hlt).
    exists before, (max_by Qgtb (win_rate w self) first others), after.
    split; [exact Heq|]. split; [reflexivity|]. split; [|split; assumption].
    intros other Hin Hzero.
    assert (Ht : existsb (fun move => games move =? 0) (first :: others) = true).
    { apply existsb_exists. exists other. split; [exact Hin|]. now apply Z.eqb_eq. }
    congruence.
  - unfold ret. intros H. inversion H. subst. split; [reflexivity|].
    destruct (max_by_Z em_performance first others) as (before & after & Heq & Hle & Hlt).
    exists before, (max_by Z.gtb em_performance first others), after.
    split; [exact Heq|]. split; [reflexivity|]. split; assumption.
Qed.

(** X21. The top move of the opening explorer is the first best one:
    [_get_opening_explorer_top_move], whose selection and side to move are
    those of [self], leaves the object alone and returns a
    move of the list given, with its wins and losses read from the side to
    move, such that no move of the list has a greater key (the performance,
    or the share of won games under the selection [win_rate]) and every
    move before it has a smaller one.  An empty list raises ValueError,
    and under [win_rate] a move without games raises ZeroDivisionError. *)
Theorem explorer_top_move_is_the_first_best (w : World) (self state : Lichess_Game)
    (moves : list Explorer_Move) :
  (moves = [] -> _get_opening_explorer_top_move w self moves state = Raises ValueError) /\
  (moves <> [] ->
   opening_explorer_selection (config self) = "win_rate" ->
   (exists move, In move moves /\ games move = 0) ->
   _get_opening_explorer_top_move w self moves state = Raises ZeroDivisionError) /\
  (forall top self',
     _get_opening_explorer_top_move w self moves state = Returns top self' ->
     self' = state /\
     exists before move after,
       moves = before ++ move :: after /\
       top = with_wins_and_losses w self move /\
       if String.eqb (opening_explorer_selection (config self)) "win_rate" then
         (forall other, In other moves -> games other <> 0) /\
         (forall other, In other moves ->
            (win_rate w self other <= win_rate w self move)%Q) /\
         (forall other, In other before ->
            (win_rate w self other < win_rate w self move)%Q)
       else
         (forall other, In other moves -> em_performance other <= em_performance move) /\
         (forall other, In other before -> em_performance other < em_performance move)).
Proof.
  split; [|split].
  - intros ->. reflexivity.
  - intros Hne Hsel (move & Hin & Hzero).
    unfold _get_opening_explorer_top_move. destruct moves as [|first others]; [congruence|].
    cbv zeta. rewrite Hsel. cbn [String.eqb]. rewrite !Ascii.eqb_refl.
    assert (Ht : existsb (fun move => games move =? 0) (first :: others) = true).
    { apply existsb_exists. exists move. split; [exact Hin|]. now apply Z.eqb_eq. }
    rewrite Ht. reflexivity.
  - intros top self'. apply get_opening_explorer_top_move_returns.
Qed.

Lemma explorer_top_move_is_the_first_best_witness :
  state_after (_get_opening_explorer_top_move explorer_world explorer_game explorer_moves)
    explorer_game
  = explorer_game /\
  exists before move after,
    explorer_moves = before ++ move :: after /\
    {| tm_uci := "Kb5"; tm_performance := 2500; tm_wins := 5; tm_draws := 2;
       tm_losses := 3 |}
    = with_wins_and_losses explorer_world explorer_game move /\
    if String.eqb (opening_explorer_selection (config explorer_game)) "win_rate" then
      (forall other, In other explorer_moves -> games other <> 0) /\
      (forall other, In other explorer_moves ->
         (win_rate explorer_world explorer_game other
          <= win_rate explorer_world explorer_game move)%Q) /\
      (forall other, In other before ->
         (win_rate explorer_world explorer_game other
          < win_rate explorer_world explorer_game move)%Q)
    else
      (forall other, In other explorer_moves ->
         em_performance other <= em_performance move) /\
      (forall other, In other before -> em_performance other < em_performance move).
Proof.
  apply (proj2 (proj2 (explorer_top_move_is_the_first_best explorer_world explorer_game
                         explorer_game explorer_moves))).
  vm_compute. reflexivity.
Defined.

(** X22. A move of the opening explorer is backed by games: when the
    explorer answers, the service was asked about the player of the colour
    named, it knows at least [max(min_games, 1)] games of the position,
    the move is one of those it lists, returned with the performance and
    the draws listed and with the wins and losses of the side to move,
    and under [only_with_wins] that side has won with it. *)
Theorem explorer_move_is_backed_by_games (w : World) (self self' : Lichess_Game)
    (move : Move) (performance wins draws losses : Z) :
  _make_opening_explorer_move w self
  = Returns (Some (move, performance, (wins, draws, losses))) self' ->
  exists username color response chosen,
    get_opening_explorer w username (board self) color
      (opening_explorer_timeout (config self)) = Some response /\
    (color = "white" /\ username = white_name self \/
     color = "black" /\ username = black_name self) /\
    (color = "white" <->
     turn w (board self) = negb (opening_explorer_anti (config self))) /\
    Z.max (opening_explorer_min_games (config self)) 1
    <= er_white response + er_draws response + er_black response /\
    In chosen (er_moves response) /\
    move = em_uci chosen /\
    performance = em_performance chosen /\
    draws = em_draws chosen /\
    wins = (if turn w (board self) then em_white chosen else em_black chosen) /\
    losses = (if turn w (board self) then em_black chosen else em_white chosen) /\
    (opening_explorer_only_with_wins (config self) = true -> wins <> 0).
Proof.
  unfold _make_opening_explorer_move. intros H.
  run_in H; inversion H; subst.
  all: match goal with
       | E : _get_opening_explorer_top_move _ _ _ _ = Returns _ _ |- _ =>
           apply get_opening_explorer_top_move_returns in E;
           destruct E as (_ & before & chosen & after & Hmoves & -> & _)
       end.
  all: match goal with
       | E : get_opening_explorer _ ?u _ ?c _ = Some ?r |- _ =>
           exists u, c, r, chosen; split; [exact E|]
       end.
  all: split; [auto|].
  all: repeat match goal with
              | E : opening_explorer_anti _ = _ |- _ => rewrite E; clear E
              | E : turn _ _ = _ |- _ => rewrite E; clear E
              end.
  all: split; [cbn [negb]; split; intros; congruence|].
  all: split; [match goal with
               | E : (_ >=? _) = true |- _ => rewrite Z.geb_le in E; exact E
               end|].
  all: split; [rewrite Hmoves; apply in_elt|].
  all: cbn [with_wins_and_losses tm_uci tm_performance tm_wins tm_draws tm_losses].
  all: repeat match goal with
              | E : turn _ _ = _ |- _ => rewrite E
              end.
  all: split_all; try reflexivity.
  all: intros Hwins Hzero.
  all: match goal with
       | E : negb (_ && _) = true |- _ =>
           rewrite Hwins in E;
           cbn [with_wins_and_losses tm_wins] in E
       end.
  all: match goal with
       | E : negb (true && (?x =? 0)) = true |- _ =>
           assert (Hx : x = 0); [|rewrite Hx in E; discriminate E]
       end.
  all: repeat match goal with
              | E : turn _ _ = _ |- _ => rewrite E
              end; exact Hzero.
Qed.

Lemma explorer_move_is_backed_by_games_witness :
  exists username color response chosen,
    get_opening_explorer explorer_world username (board explorer_game) color
      (opening_explorer_timeout (config explorer_game)) = Some response /\
    (color = "white" /\ username = white_name explorer_game \/
     color = "black" /\ username = black_name explorer_game) /\
    (color = "white" <->
     turn explorer_world (board explorer_game)
     = negb (opening_explorer_anti (config explorer_game))) /\
    Z.max (opening_explorer_min_games (config explorer_game)) 1
    <= er_white response + er_draws response + er_black response /\
    In chosen (er_moves response) /\
    "Kb5" = em_uci chosen /\
    2500 = em_performance chosen /\
    2 = em_draws chosen /\
    5 = (if turn explorer_world (board explorer_game)
         then em_white chosen else em_black chosen) /\
    3 = (if turn explorer_world (board explorer_game)
         then em_black chosen else em_white chosen) /\
    (opening_explorer_only_with_wins (config explorer_game) = true -> 5 <> 0).
Proof.
  apply (explorer_move_is_backed_by_games explorer_world explorer_game
           (state_after (_make_opening_explorer_move explorer_world) explorer_game)).
  vm_compute. reflexivity.
Defined.

(** ** The opening books *)

Lemma choices_positive entries : forall point,
  (forall entry, In entry entries -> 0 <= entry_weight entry) ->
  0 <= point < sum_weights entries ->
  exists entry,
    choices entries point = Some entry /\ In entry entries /\ 0 < entry_weight entry.
Proof.
  induction entries as [|first others IH]; intros point Hw Hp; cbn [choices sum_weights fold_right] in *.
  - lia.
  - destruct (point <? entry_weight first) eqn:E.
    + apply Z.ltb_lt in E. exists first. split; [reflexivity|]. split; [now left | lia].
    + apply Z.ltb_ge in E.
      destruct (IH (point - entry_weight first)) as (entry & Hc & Hin & Hpos).
      * intros entry Hin. apply Hw. now right.
      * fold (sum_weights others) in Hp. lia.
      * exists entry. split; [exact Hc|]. split; [now right | exact Hpos].
Qed.

Lemma sum_weights_bounds entries :
  (forall entry, In entry entries -> 0 <= entry_weight entry) ->
  0 <= sum_weights entries /\
  forall entry, In entry entries -> entry_weight entry <= sum_weights entries.
Proof.
  induction entries as [|first others IH]; intros Hw; cbn [sum_weights fold_right].
  - split; [lia | intros entry []].
  - fold (sum_weights others).
    destruct IH as [Hsum Hle]; [intros entry Hin; apply Hw; now right|].
    pose proof (Hw first (or_introl eq_refl)) as Hfirst.
    split; [lia|]. intros entry [<-|Hin]; [lia|]. specialize (Hle entry Hin). lia.
Qed.

Lemma select_entry_returns selection drawn first others state entry self' :
  (forall entry, In entry (first :: others) -> 0 <= entry_weight entry) ->
  select_entry selection drawn first others state = Returns entry self' ->
  self' = state /\
  In entry (first :: others) /\
  (selection = "weighted_random" -> 0 < entry_weight entry) /\
  (selection <> "weighted_random" -> selection <> "uniform_random" ->
   exists before after,
     first :: others = before ++ entry :: after /\
     (forall other, In other (first :: others) -> entry_weight other <= entry_weight entry) /\
     (forall other, In other before -> entry_weight other < entry_weight entry)).
Proof.
  intros Hw. unfold select_entry. cbv zeta.
  destruct (String.eqb selection "weighted_random") eqn:Ew.
  - apply String.eqb_eq in Ew.
    destruct (sum_weights (first :: others) <=? 0) eqn:Es; [discriminate|].
    apply Z.leb_gt in Es.
    destruct (choices_positive (first :: others)
                (Z.of_nat drawn mod sum_weights (first :: others)) Hw)
      as (chosen & Hc & Hin & Hpos).
    { apply Z.mod_pos_bound. exact Es. }
    rewrite Hc. unfold ret. intros H. inversion H. subst.
    split_all; auto. intros Hne. congruence.
  - apply String.eqb_neq in Ew.
    destruct (String.eqb selection "uniform_random") eqn:Eu.
    + apply String.eqb_eq in Eu.
      destruct (choice drawn (first :: others)) as [chosen|] eqn:Ec; [|discriminate].
      unfold ret. intros H. inversion H. subst chosen self'.
      split_all; auto.
      * eapply choice_In. exact Ec.
      * intros Hsel. congruence.
      * intros _ Hne. congruence.
    + unfold ret. intros H. inversion H. subst.
      destruct (max_by_Z entry_weight first others) as (before & after & Heq & Hle & Hlt).
      split_all; auto.
      * rewrite Heq. apply in_elt.
      * intros Hsel. congruence.
      * intros _ _. exists before, after. auto.
Qed.

Lemma select_entry_raises selection drawn first others state e :
  (forall entry, In entry (first :: others) -> 0 <= entry_weight entry) ->
  select_entry selection drawn first others state = Raises e ->
  e = ValueError /\ selection = "weighted_random" /\
  forall entry, In entry (first :: others) -> entry_weight entry = 0.
Proof.
  intros Hw. unfold select_entry. cbv zeta.
  destruct (String.eqb selection "weighted_random") eqn:Ew.
  - apply String.eqb_eq in Ew.
    destruct (sum_weights (first :: others) <=? 0) eqn:Es.
    + apply Z.leb_le in Es. unfold raise. intros H. inversion H.
      split_all; auto. intros entry Hin.
      destruct (sum_weights_bounds _ Hw) as [_ Hle].
      specialize (Hle entry Hin). specialize (Hw entry Hin). lia.
    + apply Z.leb_gt in Es.
      destruct (choices_positive (first :: others)
                  (Z.of_nat drawn mod sum_weights (first :: others)) Hw)
        as (chosen & Hc & _).
      { apply Z.mod_pos_bound. exact Es. }
      rewrite Hc. discriminate.
  - destruct (String.eqb selection "uniform_random").
    + destruct (choice_nonempty drawn (first :: others)) as (chosen & Hc); [discriminate|].
      rewrite Hc. discriminate.
    + discriminate.
Qed.

(** X23. The entry a book proposes: the weights not being negative,
    [select_entry] leaves the object alone and returns an entry of the
    list; under [weighted_random] never one without weight; under a
    selection other than the two random ones the first of those with the
    greatest weight.  It raises only under [weighted_random] when every
    weight is zero, and then ValueError. *)
Theorem book_entry_selection (selection : string) (drawn : nat) (first : Entry)
    (others : list Entry) (state : Lichess_Game) :
  (forall entry, In entry (first :: others) -> 0 <= entry_weight entry) ->
  (forall entry self',
     select_entry selection drawn first others state = Returns entry self' ->
     self' = state /\
     In entry (first :: others) /\
     (selection = "weighted_random" -> 0 < entry_weight entry) /\
     (selection <> "weighted_random" -> selection <> "uniform_random" ->
      exists before after,
        first :: others = before ++ entry :: after /\
        (forall other, In other (first :: others) ->
           entry_weight other <= entry_weight entry) /\
        (forall other, In other before -> entry_weight other < entry_weight entry))) /\
  (forall e,
     select_entry selection drawn first others state = Raises e ->
     e = ValueError /\ selection = "weighted_random" /\
     forall entry, In entry (first :: others) -> entry_weight entry = 0).
Proof.
  intros Hw. split.
  - intros entry self'. now apply select_entry_returns.
  - intros e. now apply select_entry_raises.
Qed.

Lemma example_entries_nonnegative :
  forall entry, In entry example_entries -> 0 <= entry_weight entry.
Proof.
  intros entry Hin. cbn in Hin.
  destruct Hin as [<-|[<-|[<-|[]]]]; cbn; lia.
Qed.

Lemma book_entry_selection_witness :
  state_after (select_entry "weighted_random" 0
                 {| entry_move := "Kb5"; entry_weight := 0; entry_learn := 0 |}
                 (tl example_entries))
    two_books_game
  = two_books_game /\
  In {| entry_move := "Ka6"; entry_weight := 30; entry_learn := 0 |} example_entries /\
  ("weighted_random" = "weighted_random" ->
   0 < entry_weight {| entry_move := "Ka6"; entry_weight := 30; entry_learn := 0 |}) /\
  ("weighted_random" <> "weighted_random" -> "weighted_random" <> "uniform_random" ->
   exists before after,
     example_entries
     = before ++ {| entry_move := "Ka6"; entry_weight := 30; entry_learn := 0 |} :: after /\
     (forall other, In other example_entries ->
        entry_weight other
        <= entry_weight {| entry_move := "Ka6"; entry_weight := 30; entry_learn := 0 |}) /\
     (forall other, In other before ->
        entry_weight other
        < entry_weight {| entry_move := "Ka6"; entry_weight := 30; entry_learn := 0 |})).
Proof.
  apply (proj1 (book_entry_selection "weighted_random" 0
                  {| entry_move := "Kb5"; entry_weight := 0; entry_learn := 0 |}
                  (tl example_entries) two_books_game example_entries_nonnegative)).
  vm_compute. reflexivity.
Defined.

Lemma percentage_range (a b : Z) :
  0 <= a <= b -> 0 < b -> (0 <= inject_Z a / inject_Z b * 100 <= 100)%Q.
Proof.
  intros Ha Hb.
  assert (Hb' : (0 < inject_Z b)%Q) by (unfold Qlt; cbn; lia).
  assert (H0 : (0 <= inject_Z a / inject_Z b)%Q).
  { apply Qle_shift_div_l; [exact Hb'|]. rewrite Qmult_0_l. unfold Qle. cbn. lia. }
  assert (H1 : (inject_Z a / inject_Z b <= 1)%Q).
  { apply Qle_shift_div_r; [exact Hb'|]. rewrite Qmult_1_l. unfold Qle. cbn. lia. }
  split.
  - apply Qmult_le_0_compat; [exact H0 | discriminate].
  - apply (Qle_trans _ (1 * 100)); [|discriminate].
    apply Qmult_le_compat_r; [exact H1 | discriminate].
Qed.

Lemma book_readers_loop_returns w readers : forall state move weight learn self',
  weights_nonnegative w state ->
  book_readers_loop w readers state = Returns (Some (move, weight, learn)) self' ->
  exists before reader after entry,
    readers = before ++ reader :: after /\
    In entry (find_all w reader (board state)) /\
    move = entry_move entry /\
    weight = (inject_Z (entry_weight entry)
              / inject_Z (sum_weights (find_all w reader (board state))) * 100)%Q /\
    (0 <= weight <= 100)%Q /\
    learn = (if opening_books_read_learn (config state) then entry_learn entry else 0) /\
    forall earlier, In earlier before ->
      find_all w earlier (board state) = [] \/
      exists candidate,
        In candidate (find_all w earlier (board state)) /\
        _is_repetition w state (entry_move candidate) = true.
Proof.
  induction readers as [|book_reader readers IH]; intros state move weight learn self' Hw H;
    cbn [book_readers_loop] in H.
  - discriminate.
  - unfold bind at 1 2, get, call, modify in H.
    assert (Hnext : forall (Hearly : find_all w book_reader (board state) = [] \/
                                     exists candidate,
                                       In candidate (find_all w book_reader (board state)) /\
                                       _is_repetition w state (entry_move candidate) = true),
               book_readers_loop w readers
                 (set_calls (calls state ++ [Book_find_all book_reader (board state)]) state)
               = Returns (Some (move, weight, learn)) self' ->
               exists before reader after entry,
                 book_reader :: readers = before ++ reader :: after /\
                 In entry (find_all w reader (board state)) /\
                 move = entry_move entry /\
                 weight = (inject_Z (entry_weight entry)
                           / inject_Z (sum_weights (find_all w reader (board state)))
                           * 100)%Q /\
                 (0 <= weight <= 100)%Q /\
                 learn = (if opening_books_read_learn (config state)
                          then entry_learn entry else 0) /\
                 forall earlier, In earlier before ->
                   find_all w earlier (board state) = [] \/
                   exists candidate,
                     In candidate (find_all w earlier (board state)) /\
                     _is_repetition w state (entry_move candidate) = true).
    { intros Hearly Hloop. apply IH in Hloop; [|exact Hw].
      destruct Hloop as (before & reader & after & entry & Hr & Hin & Hm & Hwt & Hrg & Hl & He).
      exists (book_reader :: before), reader, after, entry.
      split; [cbn; now rewrite Hr|]. do 5 (split; [assumption|]).
      intros earlier [<-|Hin']; [exact Hearly | now apply He]. }
    destruct (find_all w book_reader (board state)) as [|first others] eqn:Ef.
    { apply Hnext; [now left | exact H]. }
    unfold bind at 1 in H.
    destruct (select_entry _ _ first others _) as [entry s|] eqn:Es; [|discriminate].
    assert (Hnonneg : forall entry, In entry (first :: others) -> 0 <= entry_weight entry).
    { intros candidate Hin. apply (Hw book_reader). now rewrite Ef. }
    apply select_entry_returns in Es; [|exact Hnonneg].
    destruct Es as (-> & Hin & _).
    destruct (negb _) eqn:Er.
    + unfold_monad. destruct (sum_weights (first :: others) =? 0) eqn:Ez; [discriminate|].
      inversion H. subst.
      exists [], book_reader, readers, entry. rewrite Ef.
      split; [reflexivity|]. split; [exact Hin|].
      split; [reflexivity|]. split; [reflexivity|].
      split; [|split; [reflexivity | intros earlier []]].
      destruct (sum_weights_bounds _ Hnonneg) as [Hsum Hle].
      apply Z.eqb_neq in Ez.
      change (entry_weight first + sum_weights others)
        with (sum_weights (first :: others)).
      apply percentage_range; [|lia].
      split; [now apply Hnonneg | now apply Hle].
    + apply Hnext; [|exact H]. right. exists entry. split; [exact Hin|].
      apply Bool.negb_false_iff in Er. exact Er.
Qed.

(** X24. A book move comes from the first reader that has one to play:
    the weights not being negative, a move of the book is the move of an
    entry of one of the readers, in the position on the board; every
    reader before that one had no entry or proposed an entry that repeats
    the position; the weight returned is the share of the entry in its
    reader's total weight, a percentage between 0 and 100; and the learn
    value is the entry's only under [read_learn], otherwise 0. *)
Theorem book_move_comes_from_the_first_reader (w : World) (self self' : Lichess_Game)
    (move : Move) (weight : Q) (learn : Z) :
  weights_nonnegative w self ->
  _make_book_move w self = Returns (Some (move, weight, learn)) self' ->
  exists before reader after entry,
    book_readers self = before ++ reader :: after /\
    In entry (find_all w reader (board self)) /\
    move = entry_move entry /\
    weight = (inject_Z (entry_weight entry)
              / inject_Z (sum_weights (find_all w reader (board self))) * 100)%Q /\
    (0 <= weight <= 100)%Q /\
    learn = (if opening_books_read_learn (config self) then entry_learn entry else 0) /\
    forall earlier, In earlier before ->
      find_all w earlier (board self) = [] \/
      exists candidate,
        In candidate (find_all w earlier (board self)) /\
        _is_repetition w self (entry_move candidate) = true.
Proof.
  intros Hw. unfold _make_book_move. unfold bind at 1, get. cbv zeta. intros H.
  destruct (negb (opening_books_enabled (config self))); [discriminate H|].
  destruct (_ || _); [discriminate H|].
  unfold bind at 1 in H.
  destruct (book_readers_loop w (book_readers self) self) as [[found|] s|] eqn:El;
    [| |discriminate].
  - unfold ret in H. inversion H. subst.
    eapply book_readers_loop_returns; eassumption.
  - unfold_monad. discriminate.
Qed.

Lemma two_books_nonnegative : weights_nonnegative two_books_world two_books_game.
Proof.
  intros reader entry Hin. cbn in Hin. destruct reader as [|reader].
  - destruct Hin as [<-|[]]. cbn. lia.
  - now apply example_entries_nonnegative.
Qed.

Lemma book_move_comes_from_the_first_reader_witness :
  exists before reader after entry,
    book_readers two_books_game = before ++ reader :: after /\
    In entry (find_all two_books_world reader (board two_books_game)) /\
    "Ka6" = entry_move entry /\
    (3000 # 40)%Q
    = (inject_Z (entry_weight entry)
       / inject_Z (sum_weights (find_all two_books_world reader (board two_books_game)))
       * 100)%Q /\
    (0 <= 3000 # 40 <= 100)%Q /\
    0 = (if opening_books_read_learn (config two_books_game)
         then entry_learn entry else 0) /\
    forall earlier, In earlier before ->
      find_all two_books_world earlier (board two_books_game) = [] \/
      exists candidate,
        In candidate (find_all two_books_world earlier (board two_books_game)) /\
        _is_repetition two_books_world two_books_game (entry_move candidate) = true.
Proof.
  apply (book_move_comes_from_the_first_reader two_books_world two_books_game
           (state_after (_make_book_move two_books_world) two_books_game)).
  - exact two_books_nonnegative.
  - vm_compute. reflexivity.
Defined.

(** ** Pondering *)

Lemma ponder_kept_refl self : ponder_kept self self.
Proof. unfold ponder_kept. auto. Qed.

Lemma ponder_kept_trans a b c : ponder_kept a b -> ponder_kept b c -> ponder_kept a c.
Proof. unfold ponder_kept. intros (A1 & A2 & A3) (B1 & B2 & B3). split_all; congruence. Qed.

Lemma ponder_stays_off_refl self : ponder_stays_off self self.
Proof. intros _. apply ponder_kept_refl. Qed.

Lemma ponder_stays_off_trans a b c :
  ponder_stays_off a b -> ponder_stays_off b c -> ponder_stays_off a c.
Proof.
  unfold ponder_stays_off. intros Hab Hbc Ha. specialize (Hab Ha).
  apply (ponder_kept_trans a b c); [exact Hab|]. apply Hbc.
  destruct Hab as (Hp & _). congruence.
Qed.

Lemma ponder_kept_stays_off a b : ponder_kept a b -> ponder_stays_off a b.
Proof. intros H _. exact H. Qed.

Ltac ponder_kept_assign :=
  unfold ponder_kept, analyses, pondering_plays; cbn;
  split_all; try reflexivity; apply filter_snoc_false; reflexivity.

Ltac ponder_kept_steps :=
  keeps_steps ponder_kept_refl ponder_kept_trans ponder_kept_assign.

Ltac ponder_off_run :=
  let self := fresh "self" in
  let r := fresh "r" in
  let self' := fresh "self'" in
  let H := fresh "H" in
  let Hoff := fresh "Hoff" in
  intros self r self' H Hoff;
  unfold_monad; rewrite ?Hoff in H; cbn in H; rewrite ?Hoff in H;
  run_in H; cbn in *; try congruence; inversion H; subst;
  unfold ponder_kept, analyses, pondering_plays; cbn;
  rewrite ?filter_app; cbn; rewrite ?app_nil_r; auto.

Section Pondering.

Variable w : World.

Lemma select_entry_ponder selection drawn first others :
  keeps ponder_kept (select_entry selection drawn first others).
Proof. unfold select_entry. ponder_kept_steps. Qed.

Lemma book_readers_loop_ponder readers : keeps ponder_kept (book_readers_loop w readers).
Proof.
  induction readers as [|book_reader readers IH]; cbn [book_readers_loop].
  - ponder_kept_steps.
  - apply (keeps_bind _ ponder_kept_trans); [apply (keeps_get _ ponder_kept_refl)|].
    intros self. apply (keeps_bind _ ponder_kept_trans); [ponder_kept_steps|]. intros _.
    destruct (find_all w book_reader (board self)); [exact IH|].
    apply (keeps_bind _ ponder_kept_trans); [apply select_entry_ponder|]. intros entry.
    destruct (negb _); [|exact IH]. ponder_kept_steps.
Qed.

Lemma make_book_move_ponder : keeps ponder_kept (_make_book_move w).
Proof.
  unfold _make_book_move.
  apply (keeps_bind _ ponder_kept_trans); [apply (keeps_get _ ponder_kept_refl)|].
  intros self. cbv zeta. destruct (negb _); [ponder_kept_steps|].
  destruct (_ || _); [ponder_kept_steps|].
  apply (keeps_bind _ ponder_kept_trans); [apply book_readers_loop_ponder|].
  intros response. ponder_kept_steps.
Qed.

Lemma make_opening_explorer_move_ponder :
  keeps ponder_kept (_make_opening_explorer_move w).
Proof.
  unfold _make_opening_explorer_move, _get_opening_explorer_top_move. ponder_kept_steps.
Qed.

Lemma make_cloud_move_ponder : keeps ponder_kept (_make_cloud_move w).
Proof. unfold _make_cloud_move. ponder_kept_steps. Qed.

Lemma make_chessdb_move_ponder : keeps ponder_kept (_make_chessdb_move w).
Proof. unfold _make_chessdb_move. ponder_kept_steps. Qed.

Lemma make_gaviota_move_ponder : keeps ponder_kept (_make_gaviota_move w).
Proof. unfold _make_gaviota_move, random_choice. ponder_kept_steps. Qed.

Lemma make_syzygy_move_ponder : keeps ponder_kept (_make_syzygy_move w).
Proof. unfold _make_syzygy_move, random_choice. ponder_kept_steps. Qed.

Lemma make_egtb_move_ponder : keeps ponder_kept (_make_egtb_move w).
Proof. unfold _make_egtb_move. ponder_kept_steps. Qed.

Lemma make_engine_move_ponder : keeps ponder_stays_off (_make_engine_move w).
Proof. unfold _make_engine_move. ponder_off_run. Qed.

Lemma stop_pondering_ponder : keeps ponder_stays_off stop_pondering.
Proof. unfold stop_pondering. ponder_off_run. Qed.

Lemma make_move_ponder : keeps ponder_stays_off (make_move w).
Proof.
  apply (make_move_keeps ponder_stays_off ponder_stays_off_refl ponder_stays_off_trans w).
  - exact (keeps_implies _ _ _ ponder_kept_stays_off make_book_move_ponder).
  - exact (keeps_implies _ _ _ ponder_kept_stays_off make_opening_explorer_move_ponder).
  - exact (keeps_implies _ _ _ ponder_kept_stays_off make_cloud_move_ponder).
  - exact (keeps_implies _ _ _ ponder_kept_stays_off make_chessdb_move_ponder).
  - exact (keeps_implies _ _ _ ponder_kept_stays_off make_gaviota_move_ponder).
  - exact (keeps_implies _ _ _ ponder_kept_stays_off make_syzygy_move_ponder).
  - exact (keeps_implies _ _ _ ponder_kept_stays_off make_egtb_move_ponder).
  - exact make_engine_move_ponder.
  - exact stop_pondering_ponder.
  - intros source move offer_draw resign engine_move.
    unfold play, start_pondering. ponder_off_run.
Qed.

End Pondering.

Lemma update_ponder gameState_event : keeps ponder_kept (update gameState_event).
Proof. unfold update. ponder_kept_steps. Qed.

(** X25. Pondering never resumes: once the flag is cleared, as a move of
    Gaviota or Syzygy clears it, no decision cycle and no game state sets
    it again; through the rest of the game no pondering search is started
    and the engine is never asked to ponder on its move. *)
Theorem pondering_never_resumes (self self' : Lichess_Game) :
  steps self self' ->
  ponder_enabled self = false ->
  ponder_enabled self' = false /\
  analyses self' = analyses self /\
  pondering_plays self' = pondering_plays self.
Proof.
  intros Hsteps Hoff.
  assert (H : ponder_kept self self').
  { induction Hsteps as [s | s s' s'' _ IH Hstep].
    - apply ponder_kept_refl.
    - specialize (IH Hoff). apply (ponder_kept_trans s s' s''); [exact IH|].
      assert (Hoff' : ponder_enabled s' = false) by (destruct IH as (Hp & _); congruence).
      destruct Hstep as [w a r a' Hm | ev a ch a' Hu].
      + exact (make_move_ponder w _ _ _ Hm Hoff').
      + exact (update_ponder ev _ _ _ Hu). }
  destruct H as (Hp & Ha & Hq). split_all; congruence.
Qed.

Lemma pondering_never_resumes_witness :
  ponder_enabled
    (state_after (make_move repeating_world)
       (state_after (make_move repeating_world) (repeating_game [Gaviota])))
  = false /\
  analyses
    (state_after (make_move repeating_world)
       (state_after (make_move repeating_world) (repeating_game [Gaviota])))
  = analyses (state_after (make_move repeating_world) (repeating_game [Gaviota])) /\
  pondering_plays
    (state_after (make_move repeating_world)
       (state_after (make_move repeating_world) (repeating_game [Gaviota])))
  = pondering_plays (state_after (make_move repeating_world) (repeating_game [Gaviota])).
Proof.
  apply (pondering_never_resumes
           (state_after (make_move repeating_world) (repeating_game [Gaviota]))).
  - eapply steps_more; [apply steps_none|].
    apply (step_make_move repeating_world _ ("Kb6", false, false)).
    vm_compute. reflexivity.
  - vm_compute. reflexivity.
Defined.
